(** * Labdisc Bridge: protocol engine

    A shallow embedding of the Labdisc <-> micro:bit bridge: the protocol
    codec ([protocol.js]), the sensor catalog ([sensors.js]), the packet
    framer ([parser.js]), the wire formatter ([formatter.js]), the Logger
    session ([connection.js]) and the bridge orchestrator ([bridge.js]).

    Conventions.
    - A byte is a [Z]; the transports deliver values in [0..255].
    - A JavaScript number that holds a sensor value is a binary64 [float]
      (Rocq's primitive floats follow IEEE 754 like the JS engine does);
      numbers that only ever hold small integers (bytes, offsets, masks,
      counters) are [Z].
    - An [async] procedure is modelled run-to-completion: the settling
      delays between the commands of one sequence are not represented and no
      other event interleaves with a sequence.  A call that the code does
      not [await] ([stopStreaming()] and [_startStreaming()] inside
      [_checkAutoStream]) is run to its end where it is made, so the trace
      has its outputs before those of the caller's next statements, where
      the program would have them after; the final state and the bytes
      written are the program's.
    - A write to the Logger's port may fail: how the coming writes end is
      part of the world ([txErrors]), and a failed write is logged and
      skipped as the [catch] of [_sendRaw] does.
    - Callbacks ([onLog], [onStateChange], ...) are function arguments; what
      reaches the outside (bytes written to a port, log lines, events) is
      appended to an explicit trace. *)

From Stdlib Require Import ZArith Lia Bool String Ascii.
From Stdlib Require Import Floats.PrimFloat Floats.FloatOps Floats.SpecFloat Floats.FloatAxioms.
From Stdlib Require Import Numbers.Cyclic.Int63.Uint63.
From stdpp Require Import base option list strings pretty gmap.

Local Open Scope Z_scope.

(** ** protocol.js: constants, checksum, command builders *)

Module Protocol.

Definition BAUD_RATE : Z := 9600.

(** Command header (Host -> Labdisc) *)
Definition CMD_HEADER : list Z := [0x47; 0x14].

(** Response header (Labdisc -> Host) *)
Definition RSP_HEADER : list Z := [0x2E; 0x69].

Module CMD.
Definition GET_SENSOR_STATUS : Z := 0x10.
Definition START_EXPERIMENT : Z := 0x11.
Definition START_LOGIN : Z := 0x22.
Definition STOP_LOGIN : Z := 0x33.
Definition GET_DEVICE_INFO : Z := 0x45.
Definition RESET_CLEAR : Z := 0x48.
Definition GET_CONFIG : Z := 0x55.
Definition GET_SENSOR_IDS : Z := 0xAA.
Definition SET_DATETIME : Z := 0xCC.
End CMD.

Module RSP.
Definition ONLINE_DATA : Z := 0x81.
Definition SENSOR_IDS : Z := 0x82.
Definition DEVICE_STATUS : Z := 0x83.
Definition EXPERIMENT_DATA : Z := 0x84.
Definition CONFIG : Z := 0x85.
End RSP.

(** [FIXED_LENGTHS[type]]; [None] when [type] is not a key of the table. *)
Definition FIXED_LENGTHS (type : Z) : option Z :=
  if type =? RSP.SENSOR_IDS then Some 21
  else if type =? RSP.DEVICE_STATUS then Some 33
  else None.

(** [STATUS_SUB[sub]] *)
Definition STATUS_SUB (sub : Z) : option string :=
  if sub =? 0x10 then Some "GetStatus"
  else if sub =? 0x11 then Some "ExperimentACK"
  else if sub =? 0x22 then Some "StartLoginACK"
  else if sub =? 0x33 then Some "StopLoginACK"
  else None.

(** Sensors where raw value 0x8000 means "no data". *)
Definition NO_DATA_0x8000 : list Z :=
  [2; 4; 6; 14; 15; 16; 17; 21; 23; 25; 26; 30; 31; 40; 41; 42].

(** [let sum = 0; for (const b of bytes) sum += b;] *)
Definition byteSum (bytes : list Z) : Z := fold_left Z.add bytes 0.

(** [(256 - (sum % 256)) % 256]; JS [%] truncates, as [Z.rem] does. *)
Definition calcChecksum (bytes : list Z) : Z :=
  Z.rem (256 - Z.rem (byteSum bytes) 256) 256.

(** [(sum & 0xFF) === 0] *)
Definition verifyChecksum (packet : list Z) : bool :=
  Z.land (byteSum packet) 0xFF =? 0.

(** [new Uint8Array(bytes)]: every element is stored modulo 256. *)
Definition Uint8Array (bytes : list Z) : list Z :=
  map (fun b => b mod 256) bytes.

(** [const bytes = [...CMD_HEADER, code]; bytes.push(calcChecksum(bytes));] *)
Definition buildCommand (code : Z) : list Z :=
  let bytes := CMD_HEADER ++ [code] in
  Uint8Array (bytes ++ [calcChecksum bytes]).

Definition buildCommandWithPayload (code : Z) (payload : list Z) : list Z :=
  let bytes := CMD_HEADER ++ [code] ++ payload in
  Uint8Array (bytes ++ [calcChecksum bytes]).

Definition buildStartExperiment (maskHi maskLo rateIdx countIdx : Z) : list Z :=
  let payload := [maskHi; maskLo; rateIdx; countIdx; 0; 0; 0; 0; 0; 0; 0; 0; 0] in
  buildCommandWithPayload CMD.START_EXPERIMENT payload.

(** A byte as the transports carry it. *)
Definition is_byte (b : Z) : Prop := 0 <= b <= 255.

(** *** Arithmetic of the checksum *)

Lemma fold_add_shift (l : list Z) (a : Z) :
  fold_left Z.add l a = a + fold_left Z.add l 0.
Proof.
  revert a. induction l as [|x l IH]; intros a; [simpl; lia|].
  change (fold_left Z.add (x :: l) a) with (fold_left Z.add l (a + x)).
  change (fold_left Z.add (x :: l) 0) with (fold_left Z.add l (0 + x)).
  rewrite (IH (a + x)), (IH (0 + x)). lia.
Qed.

Lemma byteSum_cons (x : Z) (l : list Z) : byteSum (x :: l) = x + byteSum l.
Proof. unfold byteSum. simpl. apply fold_add_shift. Qed.

Lemma byteSum_app (l1 l2 : list Z) : byteSum (l1 ++ l2) = byteSum l1 + byteSum l2.
Proof.
  induction l1 as [|x l1 IH]; [reflexivity|].
  rewrite <- app_comm_cons, !byteSum_cons, IH. lia.
Qed.

Lemma byteSum_Uint8Array (l : list Z) :
  byteSum (Uint8Array l) mod 256 = byteSum l mod 256.
Proof.
  induction l as [|x l IH]; [reflexivity|].
  unfold Uint8Array in *. simpl map. rewrite !byteSum_cons.
  rewrite Z.add_mod, IH, Z.mod_mod, <- Z.add_mod by lia. reflexivity.
Qed.

Lemma Uint8Array_bytes (l : list Z) : Forall is_byte l -> Uint8Array l = l.
Proof.
  induction 1 as [|x l Hx _ IH]; [reflexivity|].
  unfold Uint8Array in *. simpl. rewrite IH. f_equal.
  unfold is_byte in Hx. apply Z.mod_small. lia.
Qed.

(** The truncated remainder differs from the argument by a multiple of 256. *)
Lemma rem_congr (a : Z) : (Z.rem a 256) mod 256 = a mod 256.
Proof.
  pose proof (Z.quot_rem' a 256) as H.
  replace (Z.rem a 256) with (a + (- Z.quot a 256) * 256) by lia.
  apply Z_mod_plus_full.
Qed.

Lemma calcChecksum_cancels (l : list Z) :
  (byteSum l + calcChecksum l) mod 256 = 0.
Proof.
  unfold calcChecksum.
  rewrite Z.add_mod, rem_congr by lia.
  rewrite <- Z.add_mod by lia.
  replace (byteSum l + (256 - Z.rem (byteSum l) 256))
    with ((byteSum l - Z.rem (byteSum l) 256) + 1 * 256) by lia.
  rewrite Z_mod_plus_full.
  rewrite Zminus_mod, rem_congr, <- Zminus_mod.
  rewrite Z.sub_diag. reflexivity.
Qed.

Lemma verifyChecksum_mod (l : list Z) :
  verifyChecksum l = (byteSum l mod 256 =? 0).
Proof.
  unfold verifyChecksum. change 0xFF with (Z.ones 8).
  rewrite Z.land_ones by lia. reflexivity.
Qed.

(** Whatever a builder is given, header + body + checksum sums to 0 mod 256. *)
Lemma checksum_appended_valid (bytes : list Z) :
  verifyChecksum (Uint8Array (bytes ++ [calcChecksum bytes])) = true.
Proof.
  rewrite verifyChecksum_mod, byteSum_Uint8Array, byteSum_app.
  rewrite byteSum_cons. change (byteSum []) with 0. rewrite Z.add_0_r.
  rewrite calcChecksum_cancels. reflexivity.
Qed.

Lemma calcChecksum_byte (l : list Z) : Forall is_byte l -> is_byte (calcChecksum l).
Proof.
  intros Hl. unfold calcChecksum, is_byte.
  assert (0 <= byteSum l) as Hs.
  { induction Hl as [|x l Hx _ IH]; [unfold byteSum; simpl; lia|].
    rewrite byteSum_cons. unfold is_byte in Hx. lia. }
  pose proof (Z.rem_bound_pos (byteSum l) 256 Hs ltac:(lia)) as H1.
  pose proof (Z.rem_bound_pos (256 - Z.rem (byteSum l) 256) 256 ltac:(lia) ltac:(lia)).
  lia.
Qed.

End Protocol.

(** ** The JavaScript runtime operations the sources call

    Arithmetic on sensor values is IEEE 754 binary64 ([float]).  The
    conversions between numbers and text follow ECMA-262
    ([Number::toString], [Number.prototype.toFixed], [Math.round]); they are
    computed from the exact value [m * 2^e] of a finite double. *)

Module JS.

(** The number whose value is the integer [z] (exact below [2^53]). *)
Definition of_Z (z : Z) : float :=
  if z <? 0 then PrimFloat.opp (of_uint63 (Uint63.of_Z (- z)))
  else of_uint63 (Uint63.of_Z z).

Definition NaN : float := PrimFloat.nan.

(** [Number.isFinite(x)] *)
Definition Number_isFinite (x : float) : bool := is_finite x.

(** [Math.max(a, b)] and [Math.min(a, b)]: NaN if either is NaN; [+0] is
    larger than [-0]. *)
Definition Math_max (a b : float) : float :=
  if is_nan a || is_nan b then NaN
  else if PrimFloat.ltb a b then b
  else if PrimFloat.ltb b a then a
  else if get_sign a then b else a.

Definition Math_min (a b : float) : float :=
  if is_nan a || is_nan b then NaN
  else if PrimFloat.ltb a b then a
  else if PrimFloat.ltb b a then b
  else if get_sign a then a else b.

(** [Math.round(x)]: the integer closest to [x], ties toward +infinity;
    NaN, the infinities and integers are returned as they are, and a result
    0 keeps the sign of a negative [x]. *)
Definition Math_round (x : float) : float :=
  match Prim2SF x with
  | S754_finite s m e =>
      if 0 <=? e then x
      else
        let d := 2 ^ (- e) in
        let v := if s then - Z.pos m else Z.pos m in
        let n := (2 * v + d) / (2 * d) in
        if n =? 0 then (if s then PrimFloat.opp PrimFloat.zero else PrimFloat.zero)
        else of_Z n
  | _ => x
  end.

(** *** Integers as text *)

Definition hexDigits : list ascii :=
  ["0"; "1"; "2"; "3"; "4"; "5"; "6"; "7"; "8"; "9";
   "a"; "b"; "c"; "d"; "e"; "f"]%char.

Fixpoint toHex_go (fuel : nat) (n : Z) (acc : string) : string :=
  match fuel with
  | O => acc
  | S fuel' =>
      let acc' := String (nth (Z.to_nat (n mod 16)) hexDigits "0"%char) acc in
      if n / 16 =? 0 then acc' else toHex_go fuel' (n / 16) acc'
  end.

(** [n.toString(16)] for an integer [n] *)
Definition toString16 (n : Z) : string :=
  if n <? 0 then "-" +:+ toHex_go (S (Z.to_nat (Z.log2 (- n)))) (- n) ""
  else toHex_go (S (Z.to_nat (Z.log2 n))) n "".

(** [String(n)] for an integer [n] of magnitude below [10^21] *)
Definition toString10 (n : Z) : string := pretty n.

(** [s.padStart(len, c)] for a one-character filler *)
Definition padStart (len : nat) (c : ascii) (s : string) : string :=
  string_of_list_ascii (repeat c (len - String.length s)) +:+ s.

(** [s.slice(from, to)] for [0 <= from <= to] *)
Definition slice (from to : nat) (s : string) : string :=
  substring from (to - from) s.

Definition hexValue (c : ascii) : option Z :=
  let n := Z.of_nat (nat_of_ascii c) in
  if (48 <=? n) && (n <=? 57) then Some (n - 48)
  else if (97 <=? n) && (n <=? 102) then Some (n - 87)
  else if (65 <=? n) && (n <=? 70) then Some (n - 55)
  else None.

Fixpoint parseHex_go (s : string) (acc : option Z) : option Z :=
  match s with
  | EmptyString => acc
  | String c s' =>
      match hexValue c with
      | Some d => parseHex_go s' (Some (16 * default 0 acc + d))
      | None => acc
      end
  end.

(** [parseInt(s, 16)] for a string without sign or prefix: the leading hex
    digits, NaN when there is none. *)
Definition parseInt16 (s : string) : float :=
  match parseHex_go s None with
  | Some n => of_Z n
  | None => NaN
  end.

(** [arr.join(sep)] over strings *)
Fixpoint join (sep : string) (parts : list string) : string :=
  match parts with
  | [] => ""
  | [p] => p
  | p :: rest => p +:+ sep +:+ join sep rest
  end.

End JS.

(** *** Numbers as text: [Number::toString] and [toFixed] *)

Module JSNum.

(** [x >= 10^n] for the positive rational [x = num / den] *)
Definition ge_pow10 (num den : Z) (n : Z) : bool :=
  if 0 <=? n then 10 ^ n * den <=? num else den <=? num * 10 ^ (- n).

(** The [n] with [10^(n-1) <= num/den < 10^n], searched upward from an
    estimate that lies below it. *)
Fixpoint decExp_go (fuel : nat) (num den : Z) (n : Z) : Z :=
  match fuel with
  | O => n
  | S fuel' => if ge_pow10 num den n then decExp_go fuel' num den (n + 1) else n
  end.

Definition decExp (num den : Z) : Z :=
  let l := Z.log2 num - Z.log2 den in
  decExp_go 8 num den ((l * 30103) / 100000 - 2).

(** One step of the search for the shortest digits: with [k] digits, the
    two candidates around [x / 10^(n-k)] that the rounding interval
    [(lo, hi)] (closed when [incl]) may contain; the closer one wins, the
    even one on a tie.  All of [nx], [lo], [hi] are numerators over [den]. *)
Definition shortest_at (nx lo hi den : Z) (incl : bool) (n k : Z) : option Z :=
  let p := n - k in
  let a := if 0 <=? p then 1 else 10 ^ (- p) in
  let b := if 0 <=? p then 10 ^ p else 1 in
  let s0 := (nx * a) / (b * den) in
  let inside s :=
    let v := s * b * den in
    if incl then (lo * a <=? v) && (v <=? hi * a)
    else (lo * a <? v) && (v <? hi * a) in
  let dist s := Z.abs (s * b * den - nx * a) in
  let s1 := s0 + 1 in
  match inside s0, inside s1 with
  | true, true =>
      if dist s0 <? dist s1 then Some s0
      else if dist s1 <? dist s0 then Some s1
      else if Z.even s0 then Some s0 else Some s1
  | true, false => Some s0
  | false, true => Some s1
  | false, false => None
  end.

Fixpoint shortest_go (fuel : nat) (nx lo hi den : Z) (incl : bool) (n k : Z)
  : Z * Z * Z :=
  match fuel with
  | O => (nx / den, n, k)
  | S fuel' =>
      match shortest_at nx lo hi den incl n k with
      | Some s => if s =? 10 ^ k then (10 ^ (k - 1), n + 1, k) else (s, n, k)
      | None => shortest_go fuel' nx lo hi den incl n (k + 1)
      end
  end.

(** [(s, n, k)] of ECMA-262 for the positive finite double [m * 2^e]:
    [k] digits [s], as few as possible, with [s * 10^(n-k)] rounding to it. *)
Definition shortest (m : positive) (e : Z) : Z * Z * Z :=
  let mz := Z.pos m in
  let down := if (mz =? 2 ^ 52) && (-1074 <? e) then 1 else 2 in
  let scale := if 2 <=? e then 2 ^ (e - 2) else 1 in
  let den := if 2 <=? e then 1 else 2 ^ (2 - e) in
  let nx := 4 * mz * scale in
  let lo := (4 * mz - down) * scale in
  let hi := (4 * mz + 2) * scale in
  shortest_go 17 nx lo hi den (Z.even mz) (decExp nx den) 1.

Definition zeros (n : Z) : string := string_of_list_ascii (repeat "0"%char (Z.to_nat n)).

(** The text of a positive finite number from its [(s, n, k)]. *)
Definition render (s n k : Z) : string :=
  let ds := pretty s in
  if (k <=? n) && (n <=? 21) then ds +:+ zeros (n - k)
  else if (0 <? n) && (n <=? 21) then
    substring 0 (Z.to_nat n) ds +:+ "." +:+ substring (Z.to_nat n) (Z.to_nat (k - n)) ds
  else if (-6 <? n) && (n <=? 0) then "0." +:+ zeros (- n) +:+ ds
  else
    let ex := (if 0 <=? n - 1 then "+" else "-") +:+ pretty (Z.abs (n - 1)) in
    if k =? 1 then ds +:+ "e" +:+ ex
    else substring 0 1 ds +:+ "." +:+ substring 1 (Z.to_nat (k - 1)) ds +:+ "e" +:+ ex.

(** [String(x)], [x.toString()], and a number inside a template or [join]. *)
Definition toString (x : float) : string :=
  match Prim2SF x with
  | S754_nan => "NaN"
  | S754_zero _ => "0"
  | S754_infinity false => "Infinity"
  | S754_infinity true => "-Infinity"
  | S754_finite sg m e =>
      let '(s, n, k) := shortest m e in
      (if sg then "-" else "") +:+ render s n k
  end.

(** [x.toFixed(f)] for [0 <= f <= 100] *)
Definition toFixed (x : float) (f : Z) : string :=
  match Prim2SF x with
  | S754_finite sg m e =>
      let num := if 0 <=? e then Z.pos m * 2 ^ e else Z.pos m in
      let den := if 0 <=? e then 1 else 2 ^ (- e) in
      if 10 ^ 21 * den <=? num then toString x
      else
        let n := (2 * num * 10 ^ f + den) / (2 * den) in
        let ds := pretty n in
        let k := Z.of_nat (String.length ds) in
        let ds := if k <=? f then zeros (f + 1 - k) +:+ ds else ds in
        let k := Z.of_nat (String.length ds) in
        (if sg then "-" else "") +:+
        (if f =? 0 then ds
         else substring 0 (Z.to_nat (k - f)) ds +:+ "." +:+
              substring (Z.to_nat (k - f)) (Z.to_nat f) ds)
  | S754_zero _ =>
      if f =? 0 then "0" else "0." +:+ zeros f
  | _ => toString x
  end.

End JSNum.

(** ** sensors.js: the sensor catalog and its conversion formulas *)

#[local] Set Warnings "-inexact-float".

(** How a call ends: with a value, or with an exception ([try]/[catch]). *)
Inductive completion (A : Type) : Type :=
  | Normal (a : A)
  | Throw.
Arguments Normal {A} a.
Arguments Throw {A}.

Module Sensors.

Local Open Scope float_scope.

(** Linear interpolation between two ranges *)
Definition mb (r rMin rMax vMin vMax : float) : float :=
  (r - rMin) / (rMax - rMin) * (vMax - vMin) + vMin.

(** [t[i]]: reading past the end of an array gives [undefined], which
    compares false and turns arithmetic into NaN, as NaN does. *)
Definition at_ (t : list float) (i : nat) : float := nth i t JS.NaN.

Definition lightTable : list float :=
  [ 0; 0; 0.00054;
    3714; 2; 0.00215;
    7427; 10; 0.00269;
    11141; 20; 0.02154;
    14855; 100; 0.02693;
    18568; 200; 0.21542;
    22282; 1000; 0.26928;
    25996; 2000; 2.154;
    29709; 1e4; 2.693;
    33423; 2e4; 18.849;
    35280 ].

(** [while (raw > table[i]) i += 3;] *)
Fixpoint lightScan (fuel : nat) (table : list float) (raw : float) (i : nat) : nat :=
  match fuel with
  | O => i
  | S fuel' => if at_ table i <? raw then lightScan fuel' table raw (i + 3) else i
  end.

(** Light sensor: segmented interpolation table *)
Definition convertLight (raw : float) : float :=
  if (raw =? 0) || (raw =? 65535) then 0
  else
    let table := lightTable in
    let i := lightScan (length table) table raw 0 in
    let i := if Nat.eqb i 0 then i else (i - 3)%nat in
    (raw - at_ table i) * at_ table (i + 2) + at_ table (i + 1).

Definition extTempTable : list float :=
  [ 62587; -40; 0.0056201; 61698; -35; 0.0046082; 60613; -30; 0.0038338;
    59309; -25; 0.0032394; 57765; -20; 0.0027826; 55968; -15; 0.0024331;
    53913; -10; 0.002168;  51607; -5; 0.0019704;  49069; 0; 0.0018274;
    46333; 5; 0.001731;    43445; 10; 0.0016739;  40458; 15; 0.0016514;
    37430; 20; 0.0016621;  34422; 25; 0.0017029;  31486; 30; 0.0017738;
    28667; 35; 0.0018773;  26003; 40; 0.0020116;  23518; 45; 0.0021819;
    21226; 50; 0.0023894;  19134; 55; 0.0026435;  17242; 60; 0.0029314;
    15537; 65; 0.0032898;  14017; 70; 0.0036839;  12659; 75; 0.0041677;
    11460; 80; 0.0046932;  10394; 85; 0.0053328;  9457; 90; 0.0060505;
    8630; 95; 0.0068394;   7899; 100; 0.0078301;  7261; 105; 0.0088086;
    6693; 110; 0.0101603;  6201; 115; 0.0114695;  5765; 120; 0.0128549;
    5376 ].

(** [while (t[i * 3] > raw) i++;] *)
Fixpoint extTempScan (fuel : nat) (t : list float) (raw : float) (i : nat) : nat :=
  match fuel with
  | O => i
  | S fuel' => if raw <? at_ t (i * 3) then extTempScan fuel' t raw (i + 1) else i
  end.

(** [t[idx]] for the index [(i - 1) * 3 + k], which is negative when [i = 0]:
    a negative index reads [undefined]. *)
Definition atRow (t : list float) (i : nat) (k : nat) : float :=
  match i with
  | O => JS.NaN
  | S j => at_ t (j * 3 + k)
  end.

(** External temperature: thermistor table *)
Definition convertExtTemp (raw : float) : float :=
  let t := extTempTable in
  if at_ t 0 <? raw then at_ t 1
  else if raw <? at_ t (length t - 1) then at_ t (length t - 4)
  else
    let i := extTempScan (length t) t raw 0 in
    atRow t i 1 + (atRow t i 0 - raw) * atRow t i 2.

(** Signed int16 conversion *)
Definition signed16 (r : float) : float :=
  if 32767 <? r then r - 65536 else r.

Record GPSCoord : Type := mkGPSCoord { decimal : float; dms : string }.

(** GPS coordinate decoder *)
Definition decodeGPSCoord (b0 b1 b2 b3 : Z) : GPSCoord :=
  let hex := JS.join "" (map (fun b => JS.padStart 2 "0"%char (JS.toString16 b)) [b0; b1; b2; b3]) in
  let deg := JS.parseInt16 (JS.slice 0 2 hex) in
  let minRaw := JS.parseInt16 (JS.slice 2 6 hex) in
  let minutes := minRaw / 1000 in
  let dirHex := JS.slice 6 8 hex in
  let isPositive := String.eqb dirHex "4e" || String.eqb dirHex "45" || String.eqb dirHex "00" in
  let decDeg := deg + minutes / 60 in
  {| decimal := if isPositive then decDeg else - decDeg;
     dms := JSNum.toString deg +:+ "°" +:+ JSNum.toFixed minutes 3 +:+ "'" +:+
            (if String.eqb dirHex "4e" then "N"
             else if String.eqb dirHex "53" then "S"
             else if String.eqb dirHex "45" then "E"
             else if String.eqb dirHex "57" then "W" else "?") |}.

(** A sensor descriptor. [convert] is [null] for the composite GPS entry. *)
Record Sensor : Type := mkSensor {
  name : string;
  unit : string;
  dec : Z;
  bytes : Z;
  factor : float;
  convert : option (float -> completion float)
}.

Definition fn (f : float -> float) : option (float -> completion float) :=
  Some (fun r => Normal (f r)).

Definition SENSORS : gmap Z Sensor := list_to_map
  [ (1%Z,  mkSensor "UV" "idx" 2 2 100 (fn (fun r => JS.Math_max 0 ((r - 21845) * 458 * 150 / 1e6 / 100))));
    (2%Z,  mkSensor "pH" "pH" 2 2 100 (fn (fun r => r / 1000)));
    (4%Z,  mkSensor "Barómetro" "hPa" 1 2 10 (fn (fun r => mb r 5000 11500 500 1150)));
    (5%Z,  mkSensor "Temp IR" "°C" 1 2 10 (fn (fun r => mb r 5157 32657 (-170) 380)));
    (6%Z,  mkSensor "Humedad" "%" 1 2 10 (fn (fun r => mb r 0 1000 0 100)));
    (7%Z,  mkSensor "GPS" "" 0 12 1 None);
    (10%Z, mkSensor "GPS Vel" "km/h" 1 2 10 (fn (fun r => r / 10)));
    (11%Z, mkSensor "GPS Áng" "°" 1 2 10 (fn (fun r => r / 10)));
    (13%Z, mkSensor "Temp Ext" "°C" 1 2 10 (fn (fun r => convertExtTemp r)));
    (15%Z, mkSensor "Color R" "" 1 2 10 (fn (fun r => mb r 0 1000 0 100 / 10)));
    (16%Z, mkSensor "Color G" "" 1 2 10 (fn (fun r => mb r 0 1000 0 100 / 10)));
    (17%Z, mkSensor "Color B" "" 1 2 10 (fn (fun r => mb r 0 1000 0 100 / 10)));
    (20%Z, mkSensor "Luz" "lux" 0 2 1 (fn (fun r => convertLight r)));
    (21%Z, mkSensor "Sonido" "dB" 1 2 10 (fn (fun r => mb r 540 960 54 96)));
    (22%Z, mkSensor "Pulso" "bpm" 0 2 1 (fn (fun r => if 240 <? r then 0 else r)));
    (23%Z, mkSensor "HeartRate" "bpm" 0 2 1 (fn (fun r => if 240 <? r then 0 else r)));
    (24%Z, mkSensor "Onda Pulso" "V" 5 2 10000 (fn (fun r => r * 0.00004578754578754579)));
    (25%Z, mkSensor "Distancia" "m" 3 2 1000 (fn (fun r => mb r 400 10000 0.4 10)));
    (26%Z, mkSensor "Presión" "kPa" 1 2 10 (fn (fun r => mb r 0 3000 0 300)));
    (27%Z, mkSensor "Voltaje" "V" 3 2 1000 (fn (fun r => mb r 15527 50009 (-5) 5)));
    (28%Z, mkSensor "Corriente" "A" 3 2 1000 (fn (fun r => mb r 14318 51218 (-1) 1)));
    (29%Z, mkSensor "Humedad Ext" "%" 1 2 10
             (fn (fun r => (JS.Math_min 56848 (JS.Math_max 12288 r) - 12288) * 224 / 1e4 / 10)));
    (30%Z, mkSensor "Temp Amb" "°C" 1 2 10 (fn (fun r => signed16 r / 10)));
    (31%Z, mkSensor "Turbidez" "NTU" 1 2 10 (fn (fun r => r / 10)));
    (32%Z, mkSensor "Ext Analog" "V" 3 2 1000 (fn (fun r => r * 92 / 1e4 / 100)));
    (33%Z, mkSensor "Micrófono" "V" 3 2 1000 (fn (fun r => mb r 0 65535 0 3.3)));
    (34%Z, mkSensor "Voltaje Bajo" "mV" 0 2 1 (fn (fun r => mb r 15163 50373 (-500) 500)));
    (36%Z, mkSensor "Acel X" "g" 3 2 1000 (fn (fun r => r * 0.0002442)));
    (37%Z, mkSensor "Acel Y" "g" 3 2 1000 (fn (fun r => r * 0.0002442)));
    (38%Z, mkSensor "Acel Z" "g" 3 2 1000 (fn (fun r => r * 0.0002442)));
    (39%Z, mkSensor "Ext Analog 2" "V" 3 2 1000 (fn (fun r => r * 92 / 1e4 / 100)));
    (40%Z, mkSensor "O₂ Disuelto" "mg/L" 2 2 100 (fn (fun r => mb r 0 1400 0 14)));
    (41%Z, mkSensor "Respiración" "" 1 2 10 (fn (fun r => mb r 0 2000 0 20)));
    (42%Z, mkSensor "Temp (2)" "°C" 1 2 10 (fn (fun r => signed16 r / 10)));
    (47%Z, mkSensor "Baróm kPa" "kPa" 2 2 100 (fn (fun r => r / 100)));
    (49%Z, mkSensor "Voltaje Alt" "V" 3 2 1000 (fn (fun r => (r - 32768) * 1084 / 1e4 / 100)));
    (50%Z, mkSensor "Corriente Alt" "A" 4 2 10000 (fn (fun r => r * 0.5 / 28558))) ].

(** An entry of the fixed order of the UART line. *)
Record UartEntry : Type := mkUartEntry { id : Z; uname : string; ufactor : float }.

(** Fixed order of sensors for the UART CSV output. *)
Definition UART_ORDER : list UartEntry :=
  [ mkUartEntry 30 "Temp Amb" 10;
    mkUartEntry 6 "Humedad" 10;
    mkUartEntry 20 "Luz" 1;
    mkUartEntry 26 "Presión" 10;
    mkUartEntry 2 "pH" 100;
    mkUartEntry 25 "Distancia" 1000;
    mkUartEntry 21 "Sonido" 10;
    mkUartEntry 13 "Temp Ext" 10;
    mkUartEntry 27 "Voltaje" 1000;
    mkUartEntry 28 "Corriente" 1000;
    mkUartEntry 33 "Micrófono" 1000;
    mkUartEntry 32 "Ext Analog" 1000;
    mkUartEntry 4 "Barómetro" 10 ].

(** Sentinel value for "no data" in the UART output *)
Definition NO_DATA_VALUE : float := -9999.

End Sensors.

(** ** parser.js: the packet framer *)

Module Parser.

Import Protocol.

(** The extra fields of the GPS reading: [lat], [lon] in an online packet,
    and [vel], [ang] besides in an experiment packet. *)
Inductive GPSFields : Type :=
  | NoGPS
  | LatLon (lat lon : Sensors.GPSCoord)
  | LatLonVelAng (lat lon : Sensors.GPSCoord) (vel ang : float).

(** A reading record [{ raw, value, noData, ... }]; [value] is [null] as [None]. *)
Record Reading : Type := mkReading {
  raw : Z;
  value : option float;
  noData : bool;
  gps : GPSFields
}.

(** The object handed to [onData]: the readings by sensor id, and the
    [_counter] property ([None]: never assigned; [Some None]: assigned
    [undefined], the packet being too short to hold it). *)
Record Sample : Type := mkSample {
  readings : gmap Z Reading;
  _counter : option (option Z)
}.

Record DeviceStatus : Type := mkDeviceStatus {
  subType : Z;
  subName : string;
  model : Z;
  firmware : string;
  active : bool;
  sensorMask : Z;
  rateIdx : Z;
  countIdx : Z;
  date : string;
  time : string;
  sensorCount : Z
}.

(** What the parser hands to its callbacks, in call order. *)
Inductive Event : Type :=
  | OnSensorIds (ids : list Z)
  | OnStatus (status : DeviceStatus)
  | OnData (values : Sample) (count : Z)
  | OnLog (type msg : string).

Record LabdiscParser : Type := mkParser {
  buffer : list Z;
  sensorIds : list Z;
  packetCount : Z
}.

(** [new LabdiscParser()] *)
Definition new : LabdiscParser := mkParser [] [] 0.

(** [reset()] *)
Definition reset (p : LabdiscParser) : LabdiscParser := mkParser [] [] 0.

(** [pkt[i]] inside a bit operation or where the packet is known to hold
    it: an absent element counts as 0. *)
Definition byteAt (pkt : list Z) (i : nat) : Z := nth i pkt 0.

(** [(pkt[i] << 8) | pkt[i + 1]] *)
Definition word16 (pkt : list Z) (i : nat) : Z :=
  Z.lor (Z.shiftl (byteAt pkt i) 8) (byteAt pkt (i + 1)).

Definition hex2 (b : Z) : string := JS.padStart 2 "0"%char (JS.toString16 b).

(** The index of the first response header [0x2E 0x69], scanning
    [i = 0 .. buf.length - 2]. *)
Fixpoint findHeader (buf : list Z) : option nat :=
  match buf with
  | a :: ((b :: _) as rest) =>
      if (a =? 0x2E) && (b =? 0x69) then Some O else S <$> findHeader rest
  | _ => None
  end.

(** Expected packet length for a type; [None] is [null] (unknown type). *)
Definition _getPacketLength (type : Z) (buf : list Z) : option Z :=
  match FIXED_LENGTHS type with
  | Some len => Some len
  | None =>
      if (type =? RSP.ONLINE_DATA) || (type =? RSP.EXPERIMENT_DATA) || (type =? RSP.CONFIG)
      then (if (4 <=? length buf)%nat then Some (byteAt buf 3) else None)
      else None
  end.

(** *** Packet handlers; each returns the parser and the callbacks it made *)

(** 0x82: sensor id list *)
Definition _parseSensorIds (p : LabdiscParser) (pkt : list Z) : LabdiscParser * list Event :=
  let ids := List.filter (fun b => negb (b =? 0)) (take (length pkt - 1 - 3) (drop 3 pkt)) in
  let names := JS.join ", " (map (fun id =>
      match Sensors.SENSORS !! id with
      | Some s => Sensors.name s +:+ "(" +:+ JS.toString10 id +:+ ")"
      | None => "?(" +:+ JS.toString10 id +:+ ")"
      end) ids) in
  (mkParser (buffer p) ids (packetCount p),
   [ OnLog "rx" ("SensorIDs: [" +:+ JS.join "," (map JS.toString10 ids) +:+ "] (" +:+
                 JS.toString10 (Z.of_nat (length ids)) +:+ " sensores)");
     OnLog "info" names;
     OnSensorIds ids ]).

(** 0x83: device status / ACK *)
Definition _parseStatus (p : LabdiscParser) (pkt : list Z) : LabdiscParser * list Event :=
  let sub := byteAt pkt 3 in
  let bcd i := hex2 (byteAt pkt i) in
  let status := {|
    subType := sub;
    subName := default ("Sub:0x" +:+ JS.toString16 sub) (STATUS_SUB sub);
    model := byteAt pkt 4;
    firmware := JS.toString10 (byteAt pkt 5) +:+ "." +:+ hex2 (byteAt pkt 6);
    active := byteAt pkt 7 =? 0x01;
    sensorMask := word16 pkt 9;
    rateIdx := byteAt pkt 11;
    countIdx := byteAt pkt 12;
    date := bcd 13%nat +:+ "/" +:+ bcd 14%nat +:+ "/20" +:+ bcd 15%nat;
    time := bcd 16%nat +:+ ":" +:+ bcd 17%nat +:+ ":" +:+ bcd 18%nat;
    sensorCount := byteAt pkt 29 |} in
  (p,
   [ OnLog "rx" (subName status +:+ ": " +:+ date status +:+ " " +:+ time status +:+ " | " +:+
                 (if active status then "ACTIVO" else "idle") +:+ " | mask:0x" +:+
                 JS.toString16 (sensorMask status));
     OnStatus status ]).

(** Convert a raw uint16 to a reading record. *)
Definition _convertRaw (sid raw : Z) (sensor : option Sensors.Sensor) : Reading :=
  let isNoData := (raw =? 0xFFFF) || ((raw =? 0x8000) && bool_decide (sid ∈ NO_DATA_0x8000)) in
  let value :=
    if isNoData then None
    else match sensor with
         | Some s =>
             match Sensors.convert s with
             | Some f =>
                 match f (JS.of_Z raw) with
                 | Normal v => if JS.Number_isFinite v then Some v else None
                 | Throw => None
                 end
             | None => None
             end
         | None => None
         end in
  {| raw := raw; value := value; noData := isNoData; gps := NoGPS |}.

(** The periodic summary line of [_emitData]. *)
Definition summaryLine (p : LabdiscParser) (values : gmap Z Reading) : string :=
  let shown := List.filter (fun id =>
      match values !! id with
      | Some r => bool_decide (is_Some (value r)) && negb (id =? 7)
      | None => false
      end) (sensorIds p) in
  let texts := map (fun id =>
      match Sensors.SENSORS !! id, values !! id with
      | Some s, Some r =>
          Sensors.name s +:+ ":" +:+
          JSNum.toFixed (default JS.NaN (value r)) (Sensors.dec s)
      | _, _ => ""
      end) shown in
  let summary := JS.join " · " (List.filter (fun t => negb (String.eqb t "")) texts) in
  "#" +:+ JS.toString10 (packetCount p) +:+ " " +:+
  (if String.eqb summary "" then "(sin datos)" else summary).

(** Emit parsed sensor data through the callbacks. *)
Definition _emitData (p : LabdiscParser) (values : Sample) : list Event :=
  (if (packetCount p <=? 3) || (Z.rem (packetCount p) 10 =? 0)
   then [OnLog "rx" (summaryLine p (readings values))] else [])
  ++ [OnData values (packetCount p)].

(** The loop of [_parseOnlineData] over [this.sensorIds]. *)
Fixpoint onlineLoop (pkt : list Z) (ids : list Z) (offset : nat) (values : gmap Z Reading)
  : gmap Z Reading :=
  match ids with
  | [] => values
  | sid :: ids' =>
      if sid =? 7 then
        if (length pkt - 1 <? offset + 8)%nat then values
        else
          let lat := Sensors.decodeGPSCoord (byteAt pkt offset) (byteAt pkt (offset + 1))
                       (byteAt pkt (offset + 2)) (byteAt pkt (offset + 3)) in
          let lon := Sensors.decodeGPSCoord (byteAt pkt (offset + 4)) (byteAt pkt (offset + 5))
                       (byteAt pkt (offset + 6)) (byteAt pkt (offset + 7)) in
          onlineLoop pkt ids' (offset + 8)
            (<[7 := mkReading 0 (Some PrimFloat.zero) false (LatLon lat lon)]> values)
      else
        if (length pkt - 1 <? offset + 2)%nat then values
        else
          let raw := word16 pkt offset in
          onlineLoop pkt ids' (offset + 2)
            (<[sid := _convertRaw sid raw (Sensors.SENSORS !! sid)]> values)
  end.

(** 0x81: online data *)
Definition _parseOnlineData (p : LabdiscParser) (pkt : list Z) : LabdiscParser * list Event :=
  match sensorIds p with
  | [] => (p, [])
  | _ =>
      let values := onlineLoop pkt (sensorIds p) 4 ∅ in
      let p' := mkParser (buffer p) (sensorIds p) (packetCount p + 1) in
      (p', _emitData p' (mkSample values None))
  end.

(** [(mask >> bitIdx) & 1]; the shift count of [>>] is taken modulo 32. *)
Definition isActive (mask : Z) (bitIdx : nat) : bool :=
  negb (Z.land (Z.shiftr mask (Z.of_nat bitIdx mod 32)) 1 =? 0).

(** The loop of [_parseExperimentData] over [bitIdx]. *)
Fixpoint experimentLoop (pkt : list Z) (mask : Z) (ids : list Z) (bitIdx : nat)
    (offset : nat) (values : gmap Z Reading) : gmap Z Reading :=
  match ids with
  | [] => values
  | sid :: ids' =>
      if negb (isActive mask bitIdx) then
        experimentLoop pkt mask ids' (S bitIdx) offset
          (<[sid := mkReading 0xFFFF None true NoGPS]> values)
      else if sid =? 7 then
        if (length pkt - 1 <? offset + 12)%nat then values
        else
          let lat := Sensors.decodeGPSCoord (byteAt pkt offset) (byteAt pkt (offset + 1))
                       (byteAt pkt (offset + 2)) (byteAt pkt (offset + 3)) in
          let lon := Sensors.decodeGPSCoord (byteAt pkt (offset + 4)) (byteAt pkt (offset + 5))
                       (byteAt pkt (offset + 6)) (byteAt pkt (offset + 7)) in
          let vel := word16 pkt (offset + 8) in
          let ang := word16 pkt (offset + 10) in
          experimentLoop pkt mask ids' (S bitIdx) (offset + 12)
            (<[7 := mkReading 0 (Some PrimFloat.zero) false
                      (LatLonVelAng lat lon (JS.of_Z vel / 10)%float (JS.of_Z ang / 10)%float)]> values)
      else
        if (length pkt - 1 <? offset + 2)%nat then values
        else
          let raw := word16 pkt offset in
          experimentLoop pkt mask ids' (S bitIdx) (offset + 2)
            (<[sid := _convertRaw sid raw (Sensors.SENSORS !! sid)]> values)
  end.

(** 0x84: experiment data *)
Definition _parseExperimentData (p : LabdiscParser) (pkt : list Z) : LabdiscParser * list Event :=
  match sensorIds p with
  | [] => (p, [])
  | _ =>
      let mask := word16 pkt 4 in
      let counter := pkt !! 7%nat in
      let values := experimentLoop pkt mask (sensorIds p) 0 8 ∅ in
      let p' := mkParser (buffer p) (sensorIds p) (packetCount p + 1) in
      (p', _emitData p' (mkSample values (Some counter)))
  end.

(** Packet dispatch *)
Definition _handlePacket (p : LabdiscParser) (type : Z) (pkt : list Z)
  : LabdiscParser * list Event :=
  if type =? RSP.SENSOR_IDS then _parseSensorIds p pkt
  else if type =? RSP.DEVICE_STATUS then _parseStatus p pkt
  else if type =? RSP.ONLINE_DATA then _parseOnlineData p pkt
  else if type =? RSP.EXPERIMENT_DATA then _parseExperimentData p pkt
  else (p, [OnLog "rx" ("Unknown type 0x" +:+ JS.toString16 type +:+ " (" +:+
                        JS.toString10 (Z.of_nat (length pkt)) +:+ "b)")]).

(** *** Buffer processing *)

Definition withBuffer (p : LabdiscParser) (buf : list Z) : LabdiscParser :=
  mkParser buf (sensorIds p) (packetCount p).

(** How one pass through the body of the [while] loop ends: at a [break],
    or at its end or a [continue] with the callbacks made on the way. *)
Inductive Outcome : Type :=
  | Break (p : LabdiscParser)
  | Continue (p : LabdiscParser) (evs : list Event).

(** The body of the loop of [_processBuffer] once the bytes before the
    header are discarded: [buf] starts with the header.  [safety] is the
    counter after its increment in the loop condition. *)
Definition atHeader (safety : nat) (p : LabdiscParser) (buf : list Z) : Outcome :=
  if (length buf <? 4)%nat then Break (withBuffer p buf)
  else
    let type := byteAt buf 2 in
    match _getPacketLength type buf with
    | None =>
        (* Unknown type: skip this byte and try again *)
        Continue (withBuffer p (drop 1 buf)) []
    | Some len =>
        if (len <? 4) || (800 <? len) then Continue (withBuffer p (drop 1 buf)) []
        else if Z.of_nat (length buf) <? len then Break (withBuffer p buf)
        else
          let pkt := take (Z.to_nat len) buf in
          let buf := drop (Z.to_nat len) buf in
          if verifyChecksum pkt then
            let '(p', evs) := _handlePacket (withBuffer p buf) type pkt in
            Continue p' evs
          else
            (* Bad checksum: re-inject from byte 1 to retry sync *)
            let buf := drop 1 pkt ++ buf in
            let buf := if (30 <? safety)%nat then drop 10 buf else buf in
            Continue (withBuffer p buf)
              [OnLog "warn" ("Bad checksum, resync (type=0x" +:+ JS.toString16 type +:+ ", " +:+
                             JS.toString10 (Z.of_nat (length pkt)) +:+ "b)")]
    end.

(** The whole body: find the header, discard what precedes it. *)
Definition loopBody (safety : nat) (p : LabdiscParser) : Outcome :=
  let buf := buffer p in
  match findHeader buf with
  | None =>
      (* No header found: keep last 2 bytes (might be partial header) *)
      Break (withBuffer p (if (200 <? length buf)%nat then drop (length buf - 2) buf else buf))
  | Some hdr =>
      (* [splice(0, hdr)]; with [hdr = 0] nothing is removed *)
      atHeader safety p (drop hdr buf)
  end.

(** [while (buf.length >= 4 && safety++ < 50) { ... }]; [fuel] bounds the
    recursion and 50 is always enough. *)
Fixpoint loop (fuel : nat) (safety : nat) (p : LabdiscParser) : LabdiscParser * list Event :=
  match fuel with
  | O => (p, [])
  | S fuel' =>
      if (4 <=? length (buffer p))%nat && (safety <? 50)%nat then
        match loopBody (S safety) p with
        | Break p' => (p', [])
        | Continue p' evs =>
            let '(p'', evs') := loop fuel' (S safety) p' in (p'', evs ++ evs')
        end
      else (p, [])
  end.

Definition _processBuffer (p : LabdiscParser) : LabdiscParser * list Event :=
  loop 50 0 p.

(** Feed raw bytes into the parser. *)
Definition feed (p : LabdiscParser) (bytes : list Z) : LabdiscParser * list Event :=
  _processBuffer (withBuffer p (buffer p ++ bytes)).

(** [feed] called once per chunk, the callbacks of all calls in order. *)
Fixpoint feedAll (p : LabdiscParser) (chunks : list (list Z)) : LabdiscParser * list Event :=
  match chunks with
  | [] => (p, [])
  | c :: chunks' =>
      let '(p', evs) := feed p c in
      let '(p'', evs') := feedAll p' chunks' in
      (p'', evs ++ evs')
  end.

(** The sensor-id, status and sample events: the log lines left out. *)
Definition isDataEvent (e : Event) : bool :=
  match e with
  | OnLog _ _ => false
  | _ => true
  end.

End Parser.

(** ** formatter.js: the wire formatter *)

Module Formatter.

Import Parser.

(** What [formatForUART] pushes for one entry of [UART_ORDER]. *)
Definition uartPart (values : gmap Z Reading) (entry : Sensors.UartEntry) : float :=
  match values !! Sensors.id entry with
  | None => Sensors.NO_DATA_VALUE
  | Some data =>
      if noData data then Sensors.NO_DATA_VALUE
      else match value data with
           | None => Sensors.NO_DATA_VALUE
           | Some v => JS.Math_round (v * Sensors.ufactor entry)%float
           end
  end.

(** [for (const entry of UART_ORDER) { ... parts.push(...) }] *)
Fixpoint uartParts (values : gmap Z Reading) (order : list Sensors.UartEntry)
    (parts : list float) : list float :=
  match order with
  | [] => parts
  | entry :: order' => uartParts values order' (parts ++ [uartPart values entry])
  end.

(** Format sensor values into a UART CSV line. *)
Definition formatForUART (values : gmap Z Reading) : string :=
  JS.join "," (map JSNum.toString (uartParts values Sensors.UART_ORDER [])) +:+ String "010"%char "".

(** A row of [formatForDisplay]. *)
Record DisplayRow : Type := mkDisplayRow {
  row_id : Z;
  row_name : string;
  row_value : string;
  row_unit : string;
  hasData : bool
}.

(** Format sensor values into the rows of the debug view. *)
Definition formatForDisplay (values : gmap Z Reading) : list DisplayRow :=
  omap (fun entry =>
    match Sensors.SENSORS !! Sensors.id entry with
    | None => None
    | Some sensor =>
        Some (match values !! Sensors.id entry with
              | Some (mkReading _ (Some v) false _) =>
                  mkDisplayRow (Sensors.id entry) (Sensors.name sensor)
                    (JSNum.toFixed v (Sensors.dec sensor)) (Sensors.unit sensor) true
              | _ =>
                  mkDisplayRow (Sensors.id entry) (Sensors.name sensor) "—"
                    (Sensors.unit sensor) false
              end)
    end) Sensors.UART_ORDER.

End Formatter.

(** ** connection.js, ble-uart.js, bridge.js: the two device sessions and
    the orchestrator

    The objects of one bridge instance are the fields of one [World]
    record; what leaves the program is appended to [out]. *)

Inductive ConnectionState : Type := DISCONNECTED | CONNECTING | CONNECTED | STREAMING.

Inductive BleState : Type := BLE_DISCONNECTED | BLE_CONNECTING | BLE_CONNECTED.

#[global] Instance ConnectionState_eq_dec : EqDecision ConnectionState.
Proof. solve_decision. Defined.

#[global] Instance BleState_eq_dec : EqDecision BleState.
Proof. solve_decision. Defined.

(** The string value of a state, as it appears in log lines. *)
Definition stateName (s : ConnectionState) : string :=
  match s with
  | DISCONNECTED => "disconnected"
  | CONNECTING => "connecting"
  | CONNECTED => "connected"
  | STREAMING => "streaming"
  end.

Definition bleStateName (s : BleState) : string :=
  match s with
  | BLE_DISCONNECTED => "disconnected"
  | BLE_CONNECTING => "connecting"
  | BLE_CONNECTED => "connected"
  end.

(** What leaves the program. *)
Inductive Output : Type :=
  | Tx (pkt : list Z)                      (* a [writer.write(pkt)] that went through *)
  | LogLine (type msg : string)            (* a call of the outermost [onLog] *)
  | StateChanged (state : ConnectionState) (* a standalone session's [onStateChange] *)
  | Update.                                (* the bridge's [onUpdate()] *)

Record LabdiscConnection : Type := mkLabdisc {
  port : bool;                             (* [this.port] is not [null] *)
  state : ConnectionState;
  parser : Parser.LabdiscParser;
  streamMode : string;
  deviceStatus : option Parser.DeviceStatus
}.

Record MicrobitBLE : Type := mkMicrobit {
  ble_state : BleState;
  rxCharacteristic : bool                  (* [this.rxCharacteristic] is not [null] *)
}.

Record Bridge : Type := mkBridge {
  uartSentCount : Z;
  mode : string;
  _autoStarted : bool
}.

(** [txErrors] tells how the coming attempts to write to the Logger's port
    end, in order: [None] for a write that goes through, [Some message] for
    one where [getWriter()] or [write()] throws an error with that message;
    beyond the end of the list every write goes through.  (A writer whose
    [write()] threw is not released, so that the attempts after it throw as
    well: the list then has an error for each of them.) *)
Record World : Type := mkWorld {
  labdisc : LabdiscConnection;
  microbit : MicrobitBLE;
  bridge : Bridge;
  out : list Output;
  txErrors : list (option string)
}.

Definition emit (o : Output) (w : World) : World :=
  mkWorld (labdisc w) (microbit w) (bridge w) (out w ++ [o]) (txErrors w).

Definition setLabdisc (l : LabdiscConnection) (w : World) : World :=
  mkWorld l (microbit w) (bridge w) (out w) (txErrors w).

Definition setMicrobit (m : MicrobitBLE) (w : World) : World :=
  mkWorld (labdisc w) m (bridge w) (out w) (txErrors w).

Definition setBridge (b : Bridge) (w : World) : World :=
  mkWorld (labdisc w) (microbit w) b (out w) (txErrors w).

(** The next attempt to write: how it ends, and the world with the
    attempts that follow. *)
Definition nextWrite (w : World) : option string * World :=
  match txErrors w with
  | [] => (None, w)
  | r :: rest => (r, mkWorld (labdisc w) (microbit w) (bridge w) (out w) rest)
  end.

(** The callbacks a session calls: [onStateChange] and [onLog]. *)
Record Handlers (S : Type) : Type := mkHandlers {
  onStateChange : S -> World -> World;
  onLog : string -> string -> World -> World
}.
Arguments mkHandlers {S} _ _.
Arguments onStateChange {S} _ _ _.
Arguments onLog {S} _ _ _ _.

(** The listener of a session used on its own: it records what it is told. *)
Definition recorder : Handlers ConnectionState :=
  mkHandlers (fun st => emit (StateChanged st)) (fun type msg => emit (LogLine type msg)).

(** The bytes the session wrote to the Logger, in order. *)
Definition transmitted (w : World) : list (list Z) :=
  omap (fun o => match o with Tx pkt => Some pkt | _ => None end) (out w).

(** The log lines that reached the outside, in order. *)
Definition logged (w : World) : list (string * string) :=
  omap (fun o => match o with LogLine t m => Some (t, m) | _ => None end) (out w).

(** *** What both revisions of [LabdiscConnection] share *)

Module Session.

Import Protocol.

(** [new LabdiscConnection()]; [mode0] is the revision's initial [streamMode]. *)
Definition new (mode0 : string) : LabdiscConnection :=
  mkLabdisc false DISCONNECTED Parser.new mode0 None.

Definition isConnected (w : World) : bool :=
  negb (bool_decide (state (labdisc w) = DISCONNECTED)).

Definition isStreaming (w : World) : bool :=
  bool_decide (state (labdisc w) = STREAMING).

Definition sensorIds (w : World) : list Z := Parser.sensorIds (parser (labdisc w)).

Definition setStreamMode (m : string) (w : World) : World :=
  let l := labdisc w in
  setLabdisc (mkLabdisc (port l) (state l) (parser l) m (deviceStatus l)) w.

(** [this.parser.packetCount = 0] *)
Definition resetPacketCount (w : World) : World :=
  let l := labdisc w in
  let p := parser l in
  setLabdisc (mkLabdisc (port l) (state l)
                (Parser.mkParser (Parser.buffer p) (Parser.sensorIds p) 0)
                (streamMode l) (deviceStatus l)) w.

Section WithHandlers.

Variable H : Handlers ConnectionState.

Definition _log (type msg : string) (w : World) : World := onLog H type msg w.

Definition _setState (newState : ConnectionState) (w : World) : World :=
  let l := labdisc w in
  if bool_decide (state l = newState) then w
  else onStateChange H newState
         (setLabdisc (mkLabdisc (port l) newState (parser l) (streamMode l) (deviceStatus l)) w).

(** Format bytes as hex string for logging *)
Definition fmtHex (bytes : list Z) : string := JS.join " " (map Parser.hex2 bytes).

(** [_sendRaw]: nothing without an open port; a write that goes through
    is logged as sent, one that throws is logged as an error, and the
    caller goes on in both cases. *)
Definition _sendRaw (pkt : list Z) (name : string) (w : World) : World :=
  if negb (port (labdisc w)) || negb (isConnected w) then w
  else
    let '(r, w) := nextWrite w in
    match r with
    | None => _log "tx" (fmtHex pkt +:+ " (" +:+ name +:+ ")") (emit (Tx pkt) w)
    | Some message => _log "err" ("TX error: " +:+ message) w
    end.

(** Send a simple command (no payload). *)
Definition sendCommand (code : Z) (name : string) (w : World) : World :=
  _sendRaw (buildCommand code) name w.

(** Stop streaming (any mode). *)
Definition stopStreaming (w : World) : World :=
  if negb (isStreaming w) then w
  else _setState CONNECTED (sendCommand CMD.STOP_LOGIN "StopLogin" w).

(** How the dialog and the opening of the port end in [connect]. *)
Inductive OpenResult : Type :=
  | Opened
  | Cancelled                  (* a [NotFoundError]: the picker was dismissed *)
  | Failed (message : string).

Definition setPort (b : bool) (w : World) : World :=
  let l := labdisc w in
  setLabdisc (mkLabdisc b (state l) (parser l) (streamMode l) (deviceStatus l)) w.

(** Connect to the Labdisc. *)
Definition connect (r : OpenResult) (w : World) : World :=
  if isConnected w then w
  else
    let w := _log "info" "Solicitando puerto serial..." (_setState CONNECTING w) in
    match r with
    | Opened =>
        let w := _setState CONNECTED (setPort true w) in
        let w := _log "info" ("Puerto abierto a " +:+ JS.toString10 BAUD_RATE +:+ " baud") w in
        let w := sendCommand CMD.GET_SENSOR_IDS "GetSensorIDs" w in
        sendCommand CMD.GET_SENSOR_STATUS "GetSensorStatus" w
    | Cancelled => setPort false (_setState DISCONNECTED w)
    | Failed message =>
        setPort false (_setState DISCONNECTED (_log "err" ("Conexión: " +:+ message) w))
    end.

(** Disconnect from the Labdisc. *)
Definition disconnect (w : World) : World :=
  if negb (isConnected w) then w
  else
    let w := if isStreaming w then sendCommand CMD.STOP_LOGIN "StopLogin" w else w in
    let l := labdisc w in
    let w := setLabdisc (mkLabdisc false (state l) (Parser.reset (parser l)) (streamMode l) None) w in
    _log "info" "Desconectado del Labdisc" (_setState DISCONNECTED w).

End WithHandlers.

End Session.

(** *** ble-uart.js: the Beacon's session *)

Module Microbit.

Definition new : MicrobitBLE := mkMicrobit BLE_DISCONNECTED false.

Definition isConnected (w : World) : bool :=
  bool_decide (ble_state (microbit w) = BLE_CONNECTED).

Section WithHandlers.

Variable H : Handlers BleState.

Definition _log (type msg : string) (w : World) : World := onLog H type msg w.

Definition _setState (newState : BleState) (w : World) : World :=
  let m := microbit w in
  if bool_decide (ble_state m = newState) then w
  else onStateChange H newState (setMicrobit (mkMicrobit newState (rxCharacteristic m)) w).

Definition setRx (b : bool) (w : World) : World :=
  setMicrobit (mkMicrobit (ble_state (microbit w)) b) w.

(** The listener of [gattserverdisconnected]: the link to the Beacon is lost. *)
Definition gattserverdisconnected (w : World) : World :=
  setRx false (_setState BLE_DISCONNECTED (_log "info" "micro:bit desconectada" w)).

(** [connect()] when the device is found and the UART service answers;
    [deviceName] is the name the device reports. *)
Definition connect (deviceName : string) (w : World) : World :=
  if isConnected w then w
  else
    let w := _log "info" "Buscando micro:bit..." (_setState BLE_CONNECTING w) in
    let w := _log "info" ("Conectando a " +:+ deviceName +:+ "...") w in
    let w := _log "info" "Obteniendo servicio UART..." w in
    let w := _setState BLE_CONNECTED (setRx true w) in
    _log "info" ("micro:bit conectada: " +:+ deviceName) w.

(** Disconnect from the micro:bit. *)
Definition disconnect (w : World) : World :=
  _log "info" "micro:bit desconectada" (_setState BLE_DISCONNECTED (setRx false w)).

End WithHandlers.

End Microbit.

(** *** 32-bit integer operators of JavaScript *)

Module Int32.

(** [ToInt32] *)
Definition toInt32 (z : Z) : Z := (z + 2 ^ 31) mod 2 ^ 32 - 2 ^ 31.

(** [a << n] *)
Definition shl (a n : Z) : Z := toInt32 (Z.shiftl (toInt32 a) (n mod 32)).

(** [a >> n] *)
Definition shr (a n : Z) : Z := Z.shiftr (toInt32 a) (n mod 32).

(** [a & b] *)
Definition and (a b : Z) : Z := toInt32 (Z.land (toInt32 a) (toInt32 b)).

End Int32.

(** *** The current revision: connection.js with the handshake, bridge.js
    with the [_autoStarted] flag *)

Module Current.

Import Protocol Session.

Section WithMask.

(** [buildMaskForRate(ids, hz)] is imported from sensors.js, which does not
    define it; it is a parameter here. *)
Variable buildMaskForRate : list Z -> Z -> Z.

Section WithHandlers.

Variable H : Handlers ConnectionState.

(** Full handshake sequence required before StartExperiment. *)
Definition _handshake (w : World) : World :=
  let w := sendCommand H CMD.STOP_LOGIN "StopLogin (handshake)" w in
  let w := sendCommand H CMD.GET_SENSOR_IDS "GetSensorIDs (handshake)" w in
  sendCommand H CMD.GET_SENSOR_STATUS "GetStatus (handshake)" w.

(** Start streaming: Normal mode (1Hz, all sensors). *)
Definition startNormal (w : World) : World :=
  if negb (isConnected w) || isStreaming w then w
  else
    let w := setStreamMode "normal" w in
    let ids := sensorIds w in
    if (length ids =? 0)%nat then _log H "err" "No hay sensores" w
    else
      let n := Z.of_nat (length ids) in
      let mask := Int32.shl 1 n - 1 in
      let maskHi := Int32.and (Int32.shr mask 8) 0xFF in
      let maskLo := Int32.and mask 0xFF in
      let w := _log H "info" ("Modo normal: " +:+ JS.toString10 n +:+ " sensores a 1Hz") w in
      let w := _handshake w in
      let pkt := buildStartExperiment maskHi maskLo 0x02 0x03 in
      let w := _sendRaw H pkt ("StartExperiment mask=0x" +:+ JS.toString16 mask +:+
                               " rate=1Hz count=10000") w in
      let w := sendCommand H CMD.START_LOGIN "StartLogin (Normal 1Hz)" w in
      resetPacketCount (_setState H STREAMING w).

(** [ids.filter((id, i) => keep(i))] *)
Definition filterByIndex (keep : Z -> bool) (ids : list Z) : list Z :=
  omap (fun p : nat * Z => if keep (Z.of_nat (fst p)) then Some (snd p) else None)
       (zip (seq 0 (length ids)) ids).

(** Start streaming: Fast mode (10Hz, excluding slow sensors like GPS). *)
Definition startFast (w : World) : World :=
  if negb (isConnected w) || isStreaming w then w
  else
    let w := setStreamMode "fast" w in
    let ids := sensorIds w in
    if (length ids =? 0)%nat then _log H "err" "No hay sensores" w
    else
      let mask := buildMaskForRate ids 10 in
      let maskHi := Int32.and (Int32.shr mask 8) 0xFF in
      let maskLo := Int32.and mask 0xFF in
      let bit i := negb (Int32.and (Int32.shr mask i) 1 =? 0) in
      let excluded := filterByIndex (fun i => negb (bit i)) ids in
      let names := JS.join ", " (map (fun id =>
          match Sensors.SENSORS !! id with
          | Some s => if String.eqb (Sensors.name s) "" then "?" +:+ JS.toString10 id
                      else Sensors.name s
          | None => "?" +:+ JS.toString10 id
          end) excluded) in
      let w := if (0 <? length excluded)%nat
               then _log H "info" ("Excluidos (<10Hz): " +:+ names) w else w in
      let active := filterByIndex bit ids in
      let w := _log H "info" ("Modo rápido: " +:+ JS.toString10 (Z.of_nat (length active)) +:+
                              " sensores a 10Hz") w in
      let w := _handshake w in
      let pkt := buildStartExperiment maskHi maskLo 0x03 0x03 in
      let w := _sendRaw H pkt ("StartExperiment mask=0x" +:+ JS.toString16 mask +:+
                               " rate=10Hz count=10000") w in
      let w := sendCommand H CMD.START_LOGIN "StartLogin (Fast 10Hz)" w in
      resetPacketCount (_setState H STREAMING w).

(** Experiment auto-restart, on a status packet that reports the end of
    the stream. *)
Definition _handleExperimentEnd (w : World) : World :=
  let w := _log H "info" "Reiniciando experimento..." (_setState H CONNECTED w) in
  if String.eqb (streamMode (labdisc w)) "fast" then startFast w else startNormal w.

End WithHandlers.

(** **** bridge.js *)

Definition newBridge : Bridge := mkBridge 0 "normal" false.

(** [new Bridge()] *)
Definition newWorld : World :=
  mkWorld (Session.new "normal") Microbit.new newBridge [] [].

Definition bridge_log (type msg : string) (w : World) : World := emit (LogLine type msg) w.

Definition _update (w : World) : World := emit Update w.

Definition set_autoStarted (b : bool) (w : World) : World :=
  let br := bridge w in setBridge (mkBridge (uartSentCount br) (mode br) b) w.

Definition setUartSentCount (n : Z) (w : World) : World :=
  let br := bridge w in setBridge (mkBridge n (mode br) (_autoStarted br)) w.

Definition setMode (m : string) (w : World) : World :=
  if negb (String.eqb m "normal") && negb (String.eqb m "fast") then w
  else let br := bridge w in
       _update (setBridge (mkBridge (uartSentCount br) m (_autoStarted br)) w).

Definition _startStreaming (H : Handlers ConnectionState) (w : World) : World :=
  let w := if String.eqb (mode (bridge w)) "fast" then startFast H w else startNormal H w in
  setUartSentCount 0 w.

(** The handlers [_wireLabdisc] installs, given what [_checkAutoStream] does. *)
Definition wireLabdisc (check : World -> World) : Handlers ConnectionState :=
  mkHandlers
    (fun st w => _update (check (bridge_log "info" ("Labdisc: " +:+ stateName st) w)))
    (fun type msg w => bridge_log type ("[Labdisc] " +:+ msg) w).

(** The handlers [_wireMicrobit] installs. *)
Definition wireMicrobit (check : World -> World) : Handlers BleState :=
  mkHandlers
    (fun st w => _update (check (bridge_log "info" ("micro:bit: " +:+ bleStateName st) w)))
    (fun type msg w => bridge_log type ("[BLE] " +:+ msg) w).

(** Auto-stream logic.  A state change made inside calls [_checkAutoStream]
    again, through [onStateChange]; [fuel] bounds that nesting, which is
    never deeper than two calls. *)
Fixpoint _checkAutoStream (fuel : nat) (w : World) : World :=
  match fuel with
  | O => w
  | S fuel' =>
      let H := wireLabdisc (_checkAutoStream fuel') in
      let labReady := bool_decide (state (labdisc w) = CONNECTED) in
      let microReady := bool_decide (ble_state (microbit w) = BLE_CONNECTED) in
      let streaming := isStreaming w in
      (* Both connected + not streaming: auto-start *)
      let w :=
        if labReady && microReady && negb streaming && (0 <? length (sensorIds w))%nat
        then _startStreaming H
               (set_autoStarted true (bridge_log "info" "Ambos conectados — auto-start streaming" w))
        else w in
      (* micro:bit lost + was auto-started: auto-stop *)
      if negb microReady && streaming && _autoStarted (bridge w)
      then stopStreaming H
             (set_autoStarted false (bridge_log "info" "micro:bit perdida — auto-stop streaming" w))
      else w
  end.

(** The nesting bound used for the handlers of a wired bridge. *)
Definition depth : nat := 4.

Definition labdiscHandlers : Handlers ConnectionState := wireLabdisc (_checkAutoStream depth).

Definition microbitHandlers : Handlers BleState := wireMicrobit (_checkAutoStream depth).

(** Manual start: works without micro:bit *)
Definition manualStartStream (w : World) : World :=
  if negb (isConnected w) || isStreaming w then w
  else _startStreaming labdiscHandlers (set_autoStarted false w).

(** Manual stop *)
Definition manualStopStream (w : World) : World :=
  if negb (isStreaming w) then w
  else _update (stopStreaming labdiscHandlers (set_autoStarted false w)).

(** ui/app.js: the Stream / Stop button *)
Definition handleManualStream (w : World) : World :=
  if isStreaming w then manualStopStream w else manualStartStream w.

(** The Beacon's link is lost. *)
Definition beaconLost (w : World) : World :=
  Microbit.gattserverdisconnected microbitHandlers w.

(** The Beacon is connected ([connectMicrobit], the device answering). *)
Definition connectMicrobit (deviceName : string) (w : World) : World :=
  Microbit.connect microbitHandlers deviceName w.

(** The user disconnects the Beacon. *)
Definition disconnectMicrobit (w : World) : World :=
  _update (Microbit.disconnect microbitHandlers w).



End WithMask.

End Current.

(** *** The earlier revision: connection.js with [startOnline] and
    [startExperiment], bridge.js without the [_autoStarted] flag, and the
    Stream button of js/app.js *)

Module Legacy.

Import Protocol Session.

Section WithHandlers.

Variable H : Handlers ConnectionState.

(** Start streaming in Online mode: just sends StartLogin. *)
Definition startOnline (w : World) : World :=
  if negb (isConnected w) || isStreaming w then w
  else
    let w := setStreamMode "online" w in
    let w := sendCommand H CMD.START_LOGIN "StartLogin (Online)" w in
    resetPacketCount (_setState H STREAMING w).

(** Start streaming in Experiment mode (25Hz, 10000 samples). *)
Definition startExperiment (w : World) : World :=
  if negb (isConnected w) || isStreaming w then w
  else
    let w := setStreamMode "experiment" w in
    let numSensors := Z.of_nat (length (sensorIds w)) in
    if numSensors =? 0 then _log H "err" "No hay sensores detectados" w
    else
      let mask := Int32.shl 1 numSensors - 1 in
      let maskHi := Int32.and (Int32.shr mask 8) 0xFF in
      let maskLo := Int32.and mask 0xFF in
      let pkt := buildStartExperiment maskHi maskLo 0x04 0x03 in
      let w := _sendRaw H pkt ("StartExperiment mask=0x" +:+ JS.toString16 mask +:+
                               " rate=25Hz count=10000") w in
      let w := sendCommand H CMD.START_LOGIN "StartLogin (Experiment)" w in
      resetPacketCount (_setState H STREAMING w).

(** Experiment auto-restart *)
Definition _handleExperimentEnd (w : World) : World :=
  if String.eqb (streamMode (labdisc w)) "experiment"
  then startExperiment (_log H "info" "Reiniciando experimento automáticamente..." w)
  else _setState H CONNECTED w.

End WithHandlers.

(** [new Bridge()] *)
Definition newWorld : World :=
  mkWorld (Session.new "online") Microbit.new (mkBridge 0 "normal" false) [] [].

Definition _startStreaming (H : Handlers ConnectionState) (w : World) : World :=
  let w := if String.eqb (mode (bridge w)) "fast" then startExperiment H w else startOnline H w in
  Current.setUartSentCount 0 w.

(** Start when both devices are connected, stop when the micro:bit
    disconnects; [fuel] bounds the nesting through [onStateChange]. *)
Fixpoint _checkAutoStream (fuel : nat) (w : World) : World :=
  match fuel with
  | O => w
  | S fuel' =>
      let H := Current.wireLabdisc (_checkAutoStream fuel') in
      let labReady := bool_decide (state (labdisc w) = CONNECTED) in
      let microReady := bool_decide (ble_state (microbit w) = BLE_CONNECTED) in
      let streaming := isStreaming w in
      let w :=
        if labReady && microReady && negb streaming && (0 <? length (sensorIds w))%nat
        then _startStreaming H
               (Current.bridge_log "info" "Ambos dispositivos conectados — iniciando streaming" w)
        else w in
      if negb microReady && streaming
      then stopStreaming H
             (Current.bridge_log "info" "micro:bit desconectada — deteniendo streaming" w)
      else w
  end.

Definition labdiscHandlers : Handlers ConnectionState :=
  Current.wireLabdisc (_checkAutoStream Current.depth).

Definition microbitHandlers : Handlers BleState :=
  Current.wireMicrobit (_checkAutoStream Current.depth).

(** js/app.js: the Stream / Stop button calls the session directly. *)
Definition handleManualStream (w : World) : World :=
  if isStreaming w then stopStreaming labdiscHandlers w
  else if isConnected w then
    Current.setUartSentCount 0
      (if String.eqb (mode (bridge w)) "fast" then startExperiment labdiscHandlers w
       else startOnline labdiscHandlers w)
  else w.

(** The Beacon's link is lost. *)
Definition beaconLost (w : World) : World :=
  Microbit.gattserverdisconnected microbitHandlers w.

End Legacy.

(** * Properties *)

(** ** Checking a property over a range of raw values by evaluation *)

(** [P] on every [z] with [lo <= z < lo + len], by halving the range;
    [depth] halvings cover [2 ^ depth] values. *)
Fixpoint allRange (depth : nat) (lo len : Z) (P : Z -> bool) : bool :=
  if len <=? 0 then true
  else if len =? 1 then P lo
  else match depth with
       | O => false
       | S d =>
           let h := len / 2 in
           if allRange d lo h P then allRange d (lo + h) (len - h) P else false
       end.

Lemma allRange_spec (depth : nat) :
  forall (lo len : Z) (P : Z -> bool),
    allRange depth lo len P = true -> forall z, lo <= z < lo + len -> P z = true.
Proof.
  induction depth as [|d IH]; intros lo len P H z Hz; simpl in H;
    destruct (Z.leb_spec len 0) as [Hle|Hlt]; try lia;
    destruct (Z.eqb_spec len 1) as [H1|Hn1];
    try (replace z with lo by lia; exact H); try discriminate.
  destruct (allRange d lo (len / 2) P) eqn:Hleft; [|discriminate].
  assert (0 <= len / 2 <= len) by (split; [apply Z.div_pos; lia | apply Z.div_le_upper_bound; lia]).
  destruct (Z_lt_ge_dec z (lo + len / 2)).
  - apply (IH _ _ _ Hleft). lia.
  - apply (IH _ _ _ H). lia.
Qed.

(** ** ProtocolCodec *)

(** C5. Checksum round-trip: for every command code and every payload, the
    bytes a command builder produces ([buildCommand],
    [buildCommandWithPayload], [buildStartExperiment]) pass
    [verifyChecksum]: their sum, checksum included, is 0 modulo 256.  On
    bytes in 0..255 the builders add nothing but the header and the
    checksum. *)
Theorem builders_pass_verifyChecksum
    (code : Z) (payload : list Z) (maskHi maskLo rateIdx countIdx : Z) :
  Protocol.is_byte code -> Forall Protocol.is_byte payload ->
  Protocol.is_byte maskHi -> Protocol.is_byte maskLo ->
  Protocol.is_byte rateIdx -> Protocol.is_byte countIdx ->
  (Protocol.verifyChecksum (Protocol.buildCommand code) = true /\
   Protocol.byteSum (Protocol.buildCommand code) mod 256 = 0 /\
   Protocol.buildCommand code
     = [0x47; 0x14; code; Protocol.calcChecksum [0x47; 0x14; code]]) /\
  (Protocol.verifyChecksum (Protocol.buildCommandWithPayload code payload) = true /\
   Protocol.byteSum (Protocol.buildCommandWithPayload code payload) mod 256 = 0 /\
   Protocol.buildCommandWithPayload code payload
     = [0x47; 0x14; code] ++ payload ++
       [Protocol.calcChecksum ([0x47; 0x14; code] ++ payload)]) /\
  (Protocol.verifyChecksum
     (Protocol.buildStartExperiment maskHi maskLo rateIdx countIdx) = true /\
   Protocol.byteSum
     (Protocol.buildStartExperiment maskHi maskLo rateIdx countIdx) mod 256 = 0 /\
   length (Protocol.buildStartExperiment maskHi maskLo rateIdx countIdx) = 17%nat).
Proof.
  intros Hc Hp Hhi Hlo Hr Hn.
  assert (Forall Protocol.is_byte [0x47; 0x14; code]) as Hhead.
  { repeat constructor; unfold Protocol.is_byte; try lia; apply Hc. }
  assert (forall l, Protocol.verifyChecksum l = true -> Protocol.byteSum l mod 256 = 0) as Hv.
  { intros l. rewrite Protocol.verifyChecksum_mod. apply Z.eqb_eq. }
  repeat split.
  - apply Protocol.checksum_appended_valid.
  - apply Hv, Protocol.checksum_appended_valid.
  - unfold Protocol.buildCommand. rewrite Protocol.Uint8Array_bytes; [reflexivity|].
    apply Forall_app; split; [exact Hhead|].
    constructor; [|constructor]. apply Protocol.calcChecksum_byte, Hhead.
  - apply Protocol.checksum_appended_valid.
  - apply Hv, Protocol.checksum_appended_valid.
  - unfold Protocol.buildCommandWithPayload.
    change (Protocol.CMD_HEADER ++ [code] ++ payload) with ([0x47; 0x14; code] ++ payload).
    assert (Forall Protocol.is_byte ([0x47; 0x14; code] ++ payload)) as Hall.
    { apply Forall_app; split; assumption. }
    rewrite Protocol.Uint8Array_bytes.
    + rewrite <- app_assoc. reflexivity.
    + apply Forall_app; split; [exact Hall|].
      constructor; [|constructor]. apply Protocol.calcChecksum_byte, Hall.
  - apply Protocol.checksum_appended_valid.
  - apply Hv, Protocol.checksum_appended_valid.
Qed.

(** The round-trip at one command of each builder: get-sensor-ids, a
    set-datetime with a 3-byte payload, and a configure-experiment. *)
Lemma builders_pass_verifyChecksum_witness :
  (Protocol.verifyChecksum (Protocol.buildCommand 0xAA) = true /\
   Protocol.byteSum (Protocol.buildCommand 0xAA) mod 256 = 0 /\
   Protocol.buildCommand 0xAA
     = [0x47; 0x14; 0xAA; Protocol.calcChecksum [0x47; 0x14; 0xAA]]) /\
  (Protocol.verifyChecksum (Protocol.buildCommandWithPayload 0xAA [1; 2; 255]) = true /\
   Protocol.byteSum (Protocol.buildCommandWithPayload 0xAA [1; 2; 255]) mod 256 = 0 /\
   Protocol.buildCommandWithPayload 0xAA [1; 2; 255]
     = [0x47; 0x14; 0xAA] ++ [1; 2; 255] ++
       [Protocol.calcChecksum ([0x47; 0x14; 0xAA] ++ [1; 2; 255])]) /\
  (Protocol.verifyChecksum (Protocol.buildStartExperiment 0x01 0xFF 0x02 0x03) = true /\
   Protocol.byteSum (Protocol.buildStartExperiment 0x01 0xFF 0x02 0x03) mod 256 = 0 /\
   length (Protocol.buildStartExperiment 0x01 0xFF 0x02 0x03) = 17%nat).
Proof.
  apply (builders_pass_verifyChecksum 0xAA [1; 2; 255] 0x01 0xFF 0x02 0x03);
    repeat constructor; unfold Protocol.is_byte; lia.
Defined.

(** ** SensorCatalog and the reading record *)

(** The ordinary conversion of a raw value by a descriptor: the formula's
    result when it returns a finite number; [null] when there is no
    descriptor or no formula, when the result is not finite, and when the
    formula throws. *)
Definition converted (sensor : option Sensors.Sensor) (raw : Z) : option float :=
  match sensor with
  | Some s =>
      match Sensors.convert s with
      | Some f =>
          match f (JS.of_Z raw) with
          | Normal v => if JS.Number_isFinite v then Some v else None
          | Throw => None
          end
      | None => None
      end
  | None => None
  end.

(** C3. No-data sentinel law of the generic 2-byte path: for every sensor
    id, raw value and descriptor, the record [_convertRaw] returns has
    [noData = true] exactly when raw is 0xFFFF, or raw is 0x8000 and the id
    is in the reserved set; outside that set 0x8000 goes through the
    ordinary conversion; [value] is [null] whenever [noData] is true and
    whenever the conversion gives no finite number (it is the converted
    value otherwise); a formula that throws yields [null], not an error. *)
Theorem convertRaw_noData_law (sid raw : Z) (sensor : option Sensors.Sensor) :
  (Parser.noData (Parser._convertRaw sid raw sensor) = true <->
     raw = 0xFFFF \/ (raw = 0x8000 /\ sid ∈ Protocol.NO_DATA_0x8000)) /\
  (sid ∉ Protocol.NO_DATA_0x8000 ->
     Parser._convertRaw sid 0x8000 sensor
       = Parser.mkReading 0x8000 (converted sensor 0x8000) false Parser.NoGPS) /\
  (Parser.noData (Parser._convertRaw sid raw sensor) = true ->
     Parser.value (Parser._convertRaw sid raw sensor) = None) /\
  (Parser.noData (Parser._convertRaw sid raw sensor) = false ->
     Parser.value (Parser._convertRaw sid raw sensor) = converted sensor raw) /\
  (forall s f, sensor = Some s -> Sensors.convert s = Some f ->
     (f (JS.of_Z raw) = Throw \/
      exists v, f (JS.of_Z raw) = Normal v /\ JS.Number_isFinite v = false) ->
     Parser.value (Parser._convertRaw sid raw sensor) = None) /\
  Parser.raw (Parser._convertRaw sid raw sensor) = raw.
Proof.
  unfold Parser._convertRaw, converted. cbn [Parser.noData Parser.value Parser.raw].
  split; [|split; [|split; [|split; [|split]]]].
  - rewrite orb_true_iff, andb_true_iff, !Z.eqb_eq, bool_decide_eq_true. tauto.
  - intros Hout. rewrite (bool_decide_eq_false_2 _ Hout). reflexivity.
  - intros ->. reflexivity.
  - intros ->. reflexivity.
  - intros s f -> Hf Hbad.
    destruct ((raw =? 65535) || (raw =? 32768) && bool_decide (sid ∈ Protocol.NO_DATA_0x8000));
      [reflexivity|].
    rewrite Hf. destruct Hbad as [-> | (v & -> & ->)]; reflexivity.
  - reflexivity.
Qed.

(** The law on the catalog: pH (id 2, in the reserved set) reads 0x8000 as
    no data; UV (id 1, outside it) converts 0x8000; the light formula is
    not finite above its table and gives [null] without [noData]. *)
Example convertRaw_catalog :
  Parser._convertRaw 2 0x8000 (Sensors.SENSORS !! 2)
    = Parser.mkReading 0x8000 None true Parser.NoGPS /\
  Parser._convertRaw 1 0x8000 (Sensors.SENSORS !! 1)
    = Parser.mkReading 0x8000 (Some 7.5041010000000004%float) false Parser.NoGPS /\
  Parser._convertRaw 1 0xFFFF (Sensors.SENSORS !! 1)
    = Parser.mkReading 0xFFFF None true Parser.NoGPS /\
  Parser._convertRaw 20 40000 (Sensors.SENSORS !! 20)
    = Parser.mkReading 40000 None false Parser.NoGPS.
Proof. repeat split; vm_compute; reflexivity. Qed.

(** ** WireFormatter *)

(** The value of a sensor in a sample map, when it has one: the sensor is
    present, not marked no-data, and its value is not [null]. *)
Definition available (values : gmap Z Parser.Reading) (id : Z) : option float :=
  match values !! id with
  | Some r => if Parser.noData r then None else Parser.value r
  | None => None
  end.

(** The entry of the wire line for a sensor, in the words of the spec. *)
Definition wireEntry (values : gmap Z Parser.Reading) (entry : Sensors.UartEntry) : float :=
  match available values (Sensors.id entry) with
  | Some v => JS.Math_round (v * Sensors.ufactor entry)%float
  | None => (-9999)%float
  end.

Lemma uartPart_wireEntry (values : gmap Z Parser.Reading) (entry : Sensors.UartEntry) :
  Formatter.uartPart values entry = wireEntry values entry.
Proof.
  unfold Formatter.uartPart, wireEntry, available.
  destruct (values !! Sensors.id entry) as [r|]; [|reflexivity].
  destruct (Parser.noData r); [reflexivity|].
  destruct (Parser.value r); reflexivity.
Qed.

Lemma uartParts_map (values : gmap Z Parser.Reading) (order : list Sensors.UartEntry)
    (parts : list float) :
  Formatter.uartParts values order parts = parts ++ map (wireEntry values) order.
Proof.
  revert parts. induction order as [|e order IH]; intros parts; simpl.
  - rewrite app_nil_r. reflexivity.
  - rewrite IH, uartPart_wireEntry, <- app_assoc. reflexivity.
Qed.

(** [r] is [x] rounded to the nearest integer, in the words of the spec
    and on the exact value [v * 2^e] of a finite [x]: when [x] has a
    fractional part ([e < 0]), [r] is the number of the integer [n] with
    [x - 1/2 < n <= x + 1/2], the upper one of two integers equally near
    (a zero with the sign of [x]); an [x] without one, a zero, NaN and the
    infinities are left as they are. *)
Definition roundedHalfUp (x r : float) : Prop :=
  match Prim2SF x with
  | S754_finite s m e =>
      if 0 <=? e then r = x
      else
        exists n : Z,
          2 * (if s then - Z.pos m else Z.pos m) - 2 ^ (- e)
            < 2 * 2 ^ (- e) * n
            <= 2 * (if s then - Z.pos m else Z.pos m) + 2 ^ (- e) /\
          r = if n =? 0 then (if s then (-0)%float else 0%float) else JS.of_Z n
  | _ => r = x
  end.

Lemma Math_round_roundedHalfUp (x : float) : roundedHalfUp x (JS.Math_round x).
Proof.
  unfold roundedHalfUp, JS.Math_round.
  destruct (Prim2SF x) as [| | |s m e]; try reflexivity.
  destruct (Z.leb_spec 0 e) as [|He]; [reflexivity|]. cbv zeta.
  set (v := if s then - Z.pos m else Z.pos m).
  assert (Hd : 0 < 2 ^ (- e)) by (apply Z.pow_pos_nonneg; lia).
  exists ((2 * v + 2 ^ (- e)) / (2 * 2 ^ (- e))). split; [|reflexivity].
  pose proof (Z.mul_div_le (2 * v + 2 ^ (- e)) (2 * 2 ^ (- e)) ltac:(lia)).
  pose proof (Z.mul_succ_div_gt (2 * v + 2 ^ (- e)) (2 * 2 ^ (- e)) ltac:(lia)).
  lia.
Qed.

Lemma roundedHalfUp_unique (x r r' : float) :
  roundedHalfUp x r -> roundedHalfUp x r' -> r = r'.
Proof.
  unfold roundedHalfUp. destruct (Prim2SF x) as [| | |s m e]; try congruence.
  destruct (Z.leb_spec 0 e) as [|He]; [congruence|].
  assert (Hd : 0 < 2 ^ (- e)) by (apply Z.pow_pos_nonneg; lia).
  intros (n & Hn & ->) (n' & Hn' & ->).
  assert (n = n') as -> by nia. reflexivity.
Qed.

(** C4. For every sample map the wire line has exactly the 13 entries of
    the fixed order, each the sensor's value times its factor rounded to the
    nearest integer, or -9999 when the sensor is absent, marked no-data or
    has a null value, joined by commas and ended by a newline; with ambient
    temperature 26.3 and every other sensor of the order unavailable the
    line is 263 followed by twelve -9999.  The rounding is to the nearest
    integer, upward from a half: 263.4 gives 263, 512.5 gives 513, -2.5
    gives -2 and -0.4 gives 0. *)
Theorem formatForUART_line (values : gmap Z Parser.Reading) :
  Formatter.uartParts values Sensors.UART_ORDER [] = map (wireEntry values) Sensors.UART_ORDER /\
  length (Formatter.uartParts values Sensors.UART_ORDER []) = 13%nat /\
  map Sensors.id Sensors.UART_ORDER = [30; 6; 20; 26; 2; 25; 21; 13; 27; 28; 33; 32; 4] /\
  Formatter.formatForUART values
    = JS.join "," (map (fun e => JSNum.toString (wireEntry values e)) Sensors.UART_ORDER)
      +:+ String "010"%char "" /\
  (available values 30 = Some 26.3%float ->
   (forall id, id ∈ [6; 20; 26; 2; 25; 21; 13; 27; 28; 33; 32; 4] -> available values id = None) ->
   Formatter.formatForUART values
     = "263,-9999,-9999,-9999,-9999,-9999,-9999,-9999,-9999,-9999,-9999,-9999,-9999"
       +:+ String "010"%char "") /\
  Forall2 (fun entry part =>
             match available values (Sensors.id entry) with
             | Some v => roundedHalfUp (v * Sensors.ufactor entry) part
             | None => part = (-9999)%float
             end)
          Sensors.UART_ORDER (Formatter.uartParts values Sensors.UART_ORDER []) /\
  (available values 30 = Some 26.34%float -> available values 6 = Some 51.25%float ->
   available values 21 = Some (-0.04)%float -> available values 13 = Some (-0.25)%float ->
   (forall id, id ∈ [20; 26; 2; 25; 27; 28; 33; 32; 4] -> available values id = None) ->
   Formatter.formatForUART values
     = "263,513,-9999,-9999,-9999,-9999,0,-2,-9999,-9999,-9999,-9999,-9999"
       +:+ String "010"%char "").
Proof.
  assert (Formatter.uartParts values Sensors.UART_ORDER [] = map (wireEntry values) Sensors.UART_ORDER)
    as Hparts by apply uartParts_map.
  assert (Formatter.formatForUART values
    = JS.join "," (map (fun e => JSNum.toString (wireEntry values e)) Sensors.UART_ORDER)
      +:+ String "010"%char "") as Hline.
  { unfold Formatter.formatForUART. rewrite Hparts, map_map. reflexivity. }
  split; [|split; [|split; [|split; [|split; [|split]]]]].
  - exact Hparts.
  - rewrite Hparts, length_map. reflexivity.
  - reflexivity.
  - exact Hline.
  - intros H30 Hrest. rewrite Hline. f_equal.
    unfold Sensors.UART_ORDER, wireEntry. cbn [map Sensors.id Sensors.ufactor].
    rewrite H30.
    rewrite !Hrest by (repeat first [apply list_elem_of_here | apply list_elem_of_further]).
    vm_compute. reflexivity.
  - rewrite Hparts. generalize Sensors.UART_ORDER. intros order.
    induction order as [|entry order IH]; [constructor|].
    cbn [map]. constructor; [|exact IH].
    unfold wireEntry. destruct (available values (Sensors.id entry)); [|reflexivity].
    apply Math_round_roundedHalfUp.
  - intros H30 H6 H21 H13 Hrest. rewrite Hline. f_equal.
    unfold Sensors.UART_ORDER, wireEntry. cbn [map Sensors.id Sensors.ufactor].
    rewrite H30, H6, H21, H13.
    rewrite !Hrest by (repeat first [apply list_elem_of_here | apply list_elem_of_further]).
    vm_compute. reflexivity.
Qed.

(** The scenario on a concrete sample: ambient temperature 26.3 (raw 263),
    humidity marked no-data, pressure with a null value, the rest absent. *)
Definition onlyTemp : gmap Z Parser.Reading :=
  <[30 := Parser.mkReading 263 (Some 26.3%float) false Parser.NoGPS]>
    (<[6 := Parser.mkReading 0x8000 None true Parser.NoGPS]>
       (<[26 := Parser.mkReading 40000 None false Parser.NoGPS]> ∅)).

(** A sample whose products have fractional parts: 263.4, 512.5, -0.4 and
    -2.5. *)
Definition fractions : gmap Z Parser.Reading :=
  <[30 := Parser.mkReading 263 (Some 26.34%float) false Parser.NoGPS]>
    (<[6 := Parser.mkReading 512 (Some 51.25%float) false Parser.NoGPS]>
       (<[21 := Parser.mkReading 0 (Some (-0.04)%float) false Parser.NoGPS]>
          (<[13 := Parser.mkReading 0 (Some (-0.25)%float) false Parser.NoGPS]> ∅))).

Lemma formatForUART_line_witness :
  Formatter.formatForUART onlyTemp
    = "263,-9999,-9999,-9999,-9999,-9999,-9999,-9999,-9999,-9999,-9999,-9999,-9999"
      +:+ String "010"%char "" /\
  Formatter.formatForUART fractions
    = "263,513,-9999,-9999,-9999,-9999,0,-2,-9999,-9999,-9999,-9999,-9999"
      +:+ String "010"%char "".
Proof.
  split.
  - apply (formatForUART_line onlyTemp).
    + vm_compute. reflexivity.
    + intros id Hid. apply list_elem_of_In in Hid. simpl in Hid.
      repeat (destruct Hid as [<- | Hid]; [vm_compute; reflexivity|]). destruct Hid.
  - apply (formatForUART_line fractions); try (vm_compute; reflexivity).
    intros id Hid. apply list_elem_of_In in Hid. simpl in Hid.
    repeat (destruct Hid as [<- | Hid]; [vm_compute; reflexivity|]). destruct Hid.
Defined.

(** *** The thermistor table *)

(** Row [j] of the table: the raw value at its temperature, the
    temperature, the local slope. *)
Definition extRowRaw (j : nat) : float := Sensors.at_ Sensors.extTempTable (j * 3).
Definition extRowTemp (j : nat) : float := Sensors.at_ Sensors.extTempTable (j * 3 + 1).
Definition extRowSlope (j : nat) : float := Sensors.at_ Sensors.extTempTable (j * 3 + 2).

(** The 33 rows, each with the entry that follows it (the next row's raw
    value, or the lower limit that ends the table). *)
Definition extRows : list (float * float * float * float) :=
  map (fun j => (extRowRaw j, extRowTemp j, extRowSlope j, extRowRaw (S j))) (seq 0 33).

(** [raw] lies below the raw value of a row and not below the entry after
    it, and the conversion interpolates backward from that row:
    [temperature + (rawAtRow - raw) * localSlope]. *)
Definition interpolatesIn (rows : list (float * float * float * float)) (raw : Z) : bool :=
  let r := JS.of_Z raw in
  let c := Sensors.convertExtTemp r in
  existsb (fun '(rj, tj, sj, nj) =>
    if PrimFloat.ltb r rj then
      if PrimFloat.leb nj r then PrimFloat.Leibniz.eqb c (tj + (rj - r) * sj)%float else false
    else false) rows.

(** Raw above the first entry clamps to the first temperature. *)
Lemma convertExtTemp_above_table (raw : Z) :
  62587 < raw <= 65535 -> Sensors.convertExtTemp (JS.of_Z raw) = (-40)%float.
Proof.
  intros H. apply FloatAxioms.Leibniz.eqb_spec.
  apply (allRange_spec 17 62588 2948
           (fun z => PrimFloat.Leibniz.eqb (Sensors.convertExtTemp (JS.of_Z z)) (-40)%float));
    [vm_compute; reflexivity | lia].
Qed.

(** Raw inside the table, below its first entry: backward interpolation
    from the row before the first row whose raw is not above the input. *)
Lemma convertExtTemp_interpolates (raw : Z) :
  5376 <= raw < 62587 ->
  exists j, (j < 33)%nat /\
    PrimFloat.ltb (JS.of_Z raw) (extRowRaw j) = true /\
    PrimFloat.leb (extRowRaw (S j)) (JS.of_Z raw) = true /\
    Sensors.convertExtTemp (JS.of_Z raw)
      = (extRowTemp j + (extRowRaw j - JS.of_Z raw) * extRowSlope j)%float.
Proof.
  intros H.
  assert (interpolatesIn extRows raw = true) as Hex.
  { apply (allRange_spec 17 5376 57211 (interpolatesIn extRows));
      [vm_compute; reflexivity | lia]. }
  unfold interpolatesIn in Hex. apply existsb_exists in Hex.
  destruct Hex as ([[[rj tj] sj] nj] & Hin & Hok).
  unfold extRows in Hin. apply in_map_iff in Hin. destruct Hin as (j & Hj & Hseq).
  injection Hj as <- <- <- <-. apply in_seq in Hseq.
  exists j. split; [lia|].
  destruct (PrimFloat.ltb (JS.of_Z raw) (extRowRaw j)); [|discriminate].
  destruct (PrimFloat.leb (extRowRaw (S j)) (JS.of_Z raw)); [|discriminate].
  apply FloatAxioms.Leibniz.eqb_spec in Hok. auto.
Qed.

(** At the first entry itself there is no prior row: the result is NaN. *)
Lemma convertExtTemp_first_entry :
  is_nan (Sensors.convertExtTemp (JS.of_Z 62587)) = true.
Proof. vm_compute. reflexivity. Qed.

(** C8 (the clamp below the table). The last row of the table is
    (5765, 120, 0.0128549) and the entry that ends the table is 5376.  For
    every raw below 5376 the conversion returns the element four places
    from the end, which is the last row's raw entry 5765, where the clamp
    to the last temperature would return 120. *)
Theorem convertExtTemp_below_table :
  Sensors.convertExtTemp (JS.of_Z 5000) = 5765%float /\
  (forall raw, 0 <= raw < 5376 -> Sensors.convertExtTemp (JS.of_Z raw) = 5765%float) /\
  extRowRaw 32 = 5765%float /\ extRowTemp 32 = 120%float /\
  Sensors.at_ Sensors.extTempTable (length Sensors.extTempTable - 1) = 5376%float /\
  Sensors.at_ Sensors.extTempTable (length Sensors.extTempTable - 4) = extRowRaw 32.
Proof.
  split; [vm_compute; reflexivity|].
  split; [|repeat split; vm_compute; reflexivity].
  intros raw H. apply FloatAxioms.Leibniz.eqb_spec.
  apply (allRange_spec 17 0 5376
           (fun z => PrimFloat.Leibniz.eqb (Sensors.convertExtTemp (JS.of_Z z)) 5765%float));
    [vm_compute; reflexivity | lia].
Qed.

(** ** PacketFramer: the GPS entry of a sample *)

(** The fields every GPS record is written with. *)
Definition isGpsRecord (r : Parser.Reading) : Prop :=
  Parser.raw r = 0 /\ Parser.value r = Some PrimFloat.zero /\ Parser.noData r = false.

Lemma emitData_sample (p : Parser.LabdiscParser) (s values : Parser.Sample) (count : Z) :
  Parser.OnData values count ∈ Parser._emitData p s -> values = s.
Proof.
  unfold Parser._emitData. intros H. apply elem_of_app in H. destruct H as [H|H].
  - destruct ((Parser.packetCount p <=? 3) || (Z.rem (Parser.packetCount p) 10 =? 0)).
    + apply list_elem_of_singleton in H. discriminate.
    + inversion H.
  - apply list_elem_of_singleton in H. injection H as -> _. reflexivity.
Qed.

(** In an online packet the entry of id 7 is only ever written by the GPS
    branch: after the loop it is what it was before, or a GPS record. *)
Lemma onlineLoop_gps (pkt : list Z) (ids : list Z) :
  forall (offset : nat) (values : gmap Z Parser.Reading),
    Parser.onlineLoop pkt ids offset values !! 7 = values !! 7 \/
    exists r, Parser.onlineLoop pkt ids offset values !! 7 = Some r /\ isGpsRecord r.
Proof.
  induction ids as [|sid ids IH]; intros offset values; simpl; [left; reflexivity|].
  destruct (Z.eqb_spec sid 7) as [->|Hne].
  - destruct (length pkt - 1 <? offset + 8)%nat; [left; reflexivity|].
    right. match goal with |- context [Parser.onlineLoop _ _ ?o ?v] => destruct (IH o v) as [H|H] end.
    + rewrite H, lookup_insert_eq. eexists. split; [reflexivity|repeat split].
    + exact H.
  - destruct (length pkt - 1 <? offset + 2)%nat; [left; reflexivity|].
    match goal with |- context [Parser.onlineLoop _ _ ?o ?v] => destruct (IH o v) as [H|H] end.
    + left. rewrite H. apply lookup_insert_ne. exact Hne.
    + right. exact H.
Qed.

(** In an experiment packet a position that holds id 7 writes the no-data
    placeholder when its bit is clear; when every such position has its bit
    set, the entry of id 7 is what it was before, or a GPS record. *)
Lemma experimentLoop_gps (pkt : list Z) (mask : Z) (ids : list Z) :
  forall (bitIdx offset : nat) (values : gmap Z Parser.Reading),
    (forall i, ids !! i = Some 7 -> Parser.isActive mask (bitIdx + i) = true) ->
    Parser.experimentLoop pkt mask ids bitIdx offset values !! 7 = values !! 7 \/
    exists r, Parser.experimentLoop pkt mask ids bitIdx offset values !! 7 = Some r /\
              isGpsRecord r.
Proof.
  induction ids as [|sid ids IH]; intros bitIdx offset values Hact; simpl; [left; reflexivity|].
  assert (forall i, ids !! i = Some 7 -> Parser.isActive mask (S bitIdx + i) = true) as Hact'.
  { intros i Hi. replace (S bitIdx + i)%nat with (bitIdx + S i)%nat by lia. apply Hact. exact Hi. }
  destruct (Parser.isActive mask bitIdx) eqn:Hbit; simpl.
  - destruct (Z.eqb_spec sid 7) as [->|Hne].
    + destruct (length pkt - 1 <? offset + 12)%nat; [left; reflexivity|].
      right.
      match goal with |- context [Parser.experimentLoop _ _ _ _ ?o ?v] =>
        destruct (IH (S bitIdx) o v Hact') as [H|H] end.
      * rewrite H, lookup_insert_eq. eexists. split; [reflexivity|repeat split].
      * exact H.
    + destruct (length pkt - 1 <? offset + 2)%nat; [left; reflexivity|].
      match goal with |- context [Parser.experimentLoop _ _ _ _ ?o ?v] =>
        destruct (IH (S bitIdx) o v Hact') as [H|H] end.
      * left. rewrite H. apply lookup_insert_ne. exact Hne.
      * right. exact H.
  - assert (sid <> 7) as Hne.
    { intros ->. specialize (Hact 0%nat eq_refl). rewrite Nat.add_0_r in Hact. congruence. }
    match goal with |- context [Parser.experimentLoop _ _ _ _ ?o ?v] =>
      destruct (IH (S bitIdx) o v Hact') as [H|H] end.
    + left. rewrite H. apply lookup_insert_ne. exact Hne.
    + right. exact H.
Qed.

(** A sensor-id list that names GPS twice, and an experiment packet whose
    mask selects the first position only; it carries the 12 GPS bytes. *)
Definition twiceGps : Parser.LabdiscParser := Parser.mkParser [] [7; 7] 0.

Definition firstGpsOnly : list Z :=
  [0x2E; 0x69; 0x84; 21; 0x00; 0x01; 0; 5;
   40; 0x1E; 0x24; 0x4E; 10; 0; 1; 0x45; 0; 50; 0; 90; 0x36].

(** C10, as stated, fails on a list that holds id 7 twice: the first
    position is bitmask-active and its 12 bytes are there, so GPS is
    decoded, and the second, inactive position then stores the no-data
    placeholder under the same id. *)
Lemma gps_record_overwritten :
  Protocol.verifyChecksum firstGpsOnly = true /\
  Parser.isActive (Parser.word16 firstGpsOnly 4) 0 = true /\
  (8 + 12 <= length firstGpsOnly - 1)%nat /\
  List.filter Parser.isDataEvent (snd (Parser.feed twiceGps firstGpsOnly))
    = [Parser.OnData
         (Parser.mkSample {[ 7 := Parser.mkReading 0xFFFF None true Parser.NoGPS ]}
                          (Some (Some 5))) 1].
Proof. repeat split; vm_compute; reflexivity. Qed.

(** C10, amended. In every sample event of an online-data packet the
    record of GPS (id 7), when there is one, has [raw = 0], [value = 0] and
    [noData = false] whatever the payload bytes; the same holds for an
    experiment-data packet when every position of the cached id list that
    holds id 7 is bitmask-active. *)
Theorem gps_record_fixed_fields (p : Parser.LabdiscParser) (pkt : list Z) :
  (forall values count r,
     Parser.OnData values count ∈ snd (Parser._parseOnlineData p pkt) ->
     Parser.readings values !! 7 = Some r -> isGpsRecord r) /\
  ((forall i, Parser.sensorIds p !! i = Some 7 ->
              Parser.isActive (Parser.word16 pkt 4) i = true) ->
   forall values count r,
     Parser.OnData values count ∈ snd (Parser._parseExperimentData p pkt) ->
     Parser.readings values !! 7 = Some r -> isGpsRecord r).
Proof.
  split.
  - intros values count r Hev Hr. unfold Parser._parseOnlineData in Hev.
    destruct (Parser.sensorIds p) as [|sid ids] eqn:Hids; [inversion Hev|].
    apply emitData_sample in Hev. subst values. cbn [Parser.readings] in Hr.
    destruct (onlineLoop_gps pkt (sid :: ids) 4 ∅) as [H|(r' & H & Hgps)].
    + rewrite H, lookup_empty in Hr. discriminate.
    + rewrite H in Hr. injection Hr as <-. exact Hgps.
  - intros Hact values count r Hev Hr. unfold Parser._parseExperimentData in Hev.
    destruct (Parser.sensorIds p) as [|sid ids] eqn:Hids; [inversion Hev|].
    apply emitData_sample in Hev. subst values. cbn [Parser.readings] in Hr.
    destruct (experimentLoop_gps pkt (Parser.word16 pkt 4) (sid :: ids) 0 8 ∅ Hact)
      as [H|(r' & H & Hgps)].
    + rewrite H, lookup_empty in Hr. discriminate.
    + rewrite H in Hr. injection Hr as <-. exact Hgps.
Qed.

(** A list with GPS in second place, and an experiment packet with both
    positions active: two bytes of ambient temperature, then the 12 of GPS
    with 0xFFFF and 0x8000 among them. *)
Definition tempThenGps : Parser.LabdiscParser := Parser.mkParser [] [30; 7] 0.

Definition bothActive : list Z :=
  [0x2E; 0x69; 0x84; 23; 0x00; 0x03; 0; 9; 0x01; 0x07;
   0xFF; 0xFF; 0x80; 0x00; 0xFF; 0xFF; 0xFF; 0xFF; 0x80; 0x00; 0xFF; 0xFF; 0xC2].

Lemma gps_record_fixed_fields_witness :
  exists values count r,
    List.filter Parser.isDataEvent (snd (Parser.feed tempThenGps bothActive))
      = [Parser.OnData values count] /\
    Parser.readings values !! 7 = Some r /\ isGpsRecord r.
Proof.
  destruct (Parser._parseExperimentData tempThenGps bothActive) as [p' evs] eqn:Hparse.
  pose proof (proj2 (gps_record_fixed_fields tempThenGps bothActive)) as Hfix.
  rewrite Hparse in Hfix. vm_compute in Hparse. injection Hparse as <- <-.
  eexists _, _, _. split; [vm_compute; reflexivity|]. split; [vm_compute; reflexivity|].
  eapply Hfix.
  - intros [|[|i]] Hi; [discriminate|vm_compute; reflexivity|discriminate].
  - apply list_elem_of_further, list_elem_of_here.
  - vm_compute. reflexivity.
Defined.

(** ** LoggerSession: starting a stream *)

(** The bytes written within a run of outputs. *)
Definition txOf (os : list Output) : list (list Z) :=
  omap (fun o => match o with Tx pkt => Some pkt | _ => None end) os.

Lemma transmitted_txOf (w : World) : transmitted w = txOf (out w).
Proof. reflexivity. Qed.

Lemma txOf_app (a b : list Output) : txOf (a ++ b) = txOf a ++ txOf b.
Proof. apply omap_app. Qed.

(** Everything of a world but its outputs and the session's stream mode. *)
Definition sameButMode (w w' : World) : Prop :=
  port (labdisc w') = port (labdisc w) /\
  state (labdisc w') = state (labdisc w) /\
  parser (labdisc w') = parser (labdisc w) /\
  deviceStatus (labdisc w') = deviceStatus (labdisc w) /\
  microbit w' = microbit w /\
  bridge w' = bridge w.

(** Modelled from the spec: [buildMaskForRate], which connection.js imports
    from sensors.js and sensors.js does not define.  The spec says that Fast
    mode keeps the sensors whose maximum rate supports the faster rate, and
    that nothing is known of the capabilities beyond "GPS is rate-limited to
    1 Hz and excluded above that": bit [i] is set unless [ids[i]] is GPS and
    the rate is above 1 Hz. *)
Definition maskWithoutGps (ids : list Z) (hz : Z) : Z :=
  fold_right Z.lor 0
    (imap (fun i id => if (id =? 7) && (1 <? hz) then 0 else Z.shiftl 1 (Z.of_nat i)) ids).

Section Rejected.

Variable buildMaskForRate : list Z -> Z -> Z.
Variable H : Handlers ConnectionState.

Lemma guard_open (w : World) :
  Session.isConnected w = true -> Session.isStreaming w = false ->
  negb (Session.isConnected w) || Session.isStreaming w = false.
Proof. intros -> ->. reflexivity. Qed.

(** With no sensor id cached, a start on a connected, idle session stores
    the requested mode and logs an error; nothing else happens. *)
Lemma startNormal_no_ids (w : World) :
  Session.isConnected w = true -> Session.isStreaming w = false -> Session.sensorIds w = [] ->
  Current.startNormal H w = onLog H "err" "No hay sensores" (Session.setStreamMode "normal" w).
Proof.
  intros Hc Hs Hids. unfold Current.startNormal. rewrite (guard_open w Hc Hs).
  change (Session.sensorIds (Session.setStreamMode "normal" w)) with (Session.sensorIds w).
  rewrite Hids. reflexivity.
Qed.

Lemma startFast_no_ids (w : World) :
  Session.isConnected w = true -> Session.isStreaming w = false -> Session.sensorIds w = [] ->
  Current.startFast buildMaskForRate H w
    = onLog H "err" "No hay sensores" (Session.setStreamMode "fast" w).
Proof.
  intros Hc Hs Hids. unfold Current.startFast. rewrite (guard_open w Hc Hs).
  change (Session.sensorIds (Session.setStreamMode "fast" w)) with (Session.sensorIds w).
  rewrite Hids. reflexivity.
Qed.

Lemma startExperiment_no_ids (w : World) :
  Session.isConnected w = true -> Session.isStreaming w = false -> Session.sensorIds w = [] ->
  Legacy.startExperiment H w
    = onLog H "err" "No hay sensores detectados" (Session.setStreamMode "experiment" w).
Proof.
  intros Hc Hs Hids. unfold Legacy.startExperiment. rewrite (guard_open w Hc Hs).
  change (Session.sensorIds (Session.setStreamMode "experiment" w)) with (Session.sensorIds w).
  rewrite Hids. reflexivity.
Qed.

End Rejected.

(** A rejected start seen from outside: one more log line, no byte
    written and no write attempted, and nothing changed but the stored
    stream mode, which is [mode]. *)
Definition rejectedWith (type msg mode : string) (w w' : World) : Prop :=
  out w' = out w ++ [LogLine type msg] /\
  transmitted w' = transmitted w /\
  txErrors w' = txErrors w /\
  streamMode (labdisc w') = mode /\
  sameButMode w w'.

Lemma rejected_by_log (type msg mode : string) (w : World) :
  rejectedWith type msg mode w (emit (LogLine type msg) (Session.setStreamMode mode w)).
Proof.
  unfold rejectedWith, sameButMode, transmitted. cbn.
  repeat split. rewrite omap_app. cbn. apply app_nil_r.
Qed.

(** The session just after [new Bridge()]: disconnected, no sensor id. *)
Definition freshSession : World := Current.newWorld.

(** The earlier revision's session once its port is open, before the
    sensor-id list has arrived. *)
Definition legacyJustConnected : World :=
  mkWorld (mkLabdisc true CONNECTED Parser.new "online" None) Microbit.new
          (mkBridge 0 "fast" false) [] [].

(** C9, as stated, fails three times.  On a disconnected session the start
    returns at its first guard, without a log line.  On a connected session
    the requested mode is stored before the sensor-id list is looked at:
    the rejected start of the earlier revision's experiment mode leaves
    [streamMode] changed from ["online"] to ["experiment"].  And the
    earlier revision's online start does not look at the list at all: with
    no sensor id it writes start-login and enters Streaming. *)
Lemma rejected_start_counterexample :
  (Session.sensorIds freshSession = [] /\
   out (Current.startNormal recorder freshSession) = []) /\
  (Session.sensorIds legacyJustConnected = [] /\
   streamMode (labdisc legacyJustConnected) = "online" /\
   streamMode (labdisc (Legacy.startExperiment recorder legacyJustConnected)) = "experiment") /\
  (state (labdisc (Legacy.startOnline recorder legacyJustConnected)) = STREAMING /\
   transmitted (Legacy.startOnline recorder legacyJustConnected) = [[0x47; 0x14; 0x22; 0x83]]).
Proof. repeat split. Qed.

(** C9, amended. On a connected session that is not streaming, a start
    by [startNormal] or [startFast], or by [startExperiment] of the earlier
    revision, while the cached sensor-id list is empty is rejected with an
    error log line; no write is attempted and no command byte is written,
    and the connection state, the port, the parser with its buffer and ids,
    the device status, the Beacon session and the orchestrator's fields are
    unchanged; the stored stream mode is the requested one.  The line
    reaches the outside as it is from a session used alone, and prefixed by
    the orchestrator from a wired one.  ([startOnline] of the earlier
    revision has no such check.) *)
Theorem start_without_sensor_ids_rejected
    (buildMaskForRate : list Z -> Z -> Z) (w : World) :
  Session.isConnected w = true -> Session.isStreaming w = false -> Session.sensorIds w = [] ->
  (rejectedWith "err" "No hay sensores" "normal" w (Current.startNormal recorder w) /\
   rejectedWith "err" "No hay sensores" "fast" w
     (Current.startFast buildMaskForRate recorder w) /\
   rejectedWith "err" "No hay sensores detectados" "experiment" w
     (Legacy.startExperiment recorder w)) /\
  (rejectedWith "err" "[Labdisc] No hay sensores" "normal" w
     (Current.startNormal (Current.labdiscHandlers buildMaskForRate) w) /\
   rejectedWith "err" "[Labdisc] No hay sensores" "fast" w
     (Current.startFast buildMaskForRate (Current.labdiscHandlers buildMaskForRate) w) /\
   rejectedWith "err" "[Labdisc] No hay sensores detectados" "experiment" w
     (Legacy.startExperiment Legacy.labdiscHandlers w)).
Proof.
  intros Hc Hs Hids.
  rewrite !startNormal_no_ids, !(startFast_no_ids buildMaskForRate), !startExperiment_no_ids
    by assumption.
  repeat split; apply rejected_by_log.
Qed.

(** The current revision's session once its port is open, before the
    sensor-id list has arrived. *)
Definition justConnected : World :=
  mkWorld (mkLabdisc true CONNECTED Parser.new "normal" None) Microbit.new
          Current.newBridge [] [].

Lemma start_without_sensor_ids_rejected_witness :
  (rejectedWith "err" "No hay sensores" "normal" justConnected
     (Current.startNormal recorder justConnected) /\
   rejectedWith "err" "No hay sensores" "fast" justConnected
     (Current.startFast maskWithoutGps recorder justConnected) /\
   rejectedWith "err" "No hay sensores detectados" "experiment" justConnected
     (Legacy.startExperiment recorder justConnected)) /\
  (rejectedWith "err" "[Labdisc] No hay sensores" "normal" justConnected
     (Current.startNormal (Current.labdiscHandlers maskWithoutGps) justConnected) /\
   rejectedWith "err" "[Labdisc] No hay sensores" "fast" justConnected
     (Current.startFast maskWithoutGps (Current.labdiscHandlers maskWithoutGps) justConnected) /\
   rejectedWith "err" "[Labdisc] No hay sensores detectados" "experiment" justConnected
     (Legacy.startExperiment Legacy.labdiscHandlers justConnected)).
Proof.
  apply (start_without_sensor_ids_rejected maskWithoutGps justConnected); reflexivity.
Defined.

(** *** The command sequence of a start *)

(** A handler of log lines that passes each line on, possibly reworded,
    and does nothing else. *)
Definition logsOnly (H : Handlers ConnectionState) : Prop :=
  forall type msg w, exists msg', onLog H type msg w = emit (LogLine type msg') w.

Lemma recorder_logsOnly : logsOnly recorder.
Proof. intros type msg w. exists msg. reflexivity. Qed.

Lemma wireLabdisc_logsOnly (check : World -> World) : logsOnly (Current.wireLabdisc check).
Proof. intros type msg w. eexists. reflexivity. Qed.

(** The five commands of a start, for a mask and a rate index. *)
Definition startSequence (mask rateIdx : Z) : list (list Z) :=
  [ Protocol.buildCommand Protocol.CMD.STOP_LOGIN;
    Protocol.buildCommand Protocol.CMD.GET_SENSOR_IDS;
    Protocol.buildCommand Protocol.CMD.GET_SENSOR_STATUS;
    Protocol.buildStartExperiment (Int32.and (Int32.shr mask 8) 0xFF) (Int32.and mask 0xFF)
      rateIdx 0x03;
    Protocol.buildCommand Protocol.CMD.START_LOGIN ].

(** The commands of [cmds] whose write goes through when the attempts to
    write end as [errs] tells, in order: all of them when [errs] is empty. *)
Fixpoint delivered (errs : list (option string)) (cmds : list (list Z)) {struct cmds}
  : list (list Z) :=
  match cmds with
  | [] => []
  | c :: cmds' =>
      match errs with
      | [] => c :: cmds'
      | None :: errs' => c :: delivered errs' cmds'
      | Some _ :: errs' => delivered errs' cmds'
      end
  end.

Lemma delivered_nil (cmds : list (list Z)) : delivered [] cmds = cmds.
Proof. destruct cmds; reflexivity. Qed.

Lemma delivered_cons (errs : list (option string)) (c c' : list Z) (cmds : list (list Z)) :
  delivered errs (c :: c' :: cmds) = delivered errs [c] ++ delivered (tail errs) (c' :: cmds).
Proof. destruct errs as [|[m|] errs]; reflexivity. Qed.

Lemma delivered_all_fail (errs : list (option string)) (cmds : list (list Z)) :
  (length cmds <= length errs)%nat -> Forall (fun r => r <> None) errs ->
  delivered errs cmds = [].
Proof.
  revert errs. induction cmds as [|c cmds IH]; intros errs Hl Hall; [reflexivity|].
  destruct Hall as [|r errs Hr Hall]; [simpl in Hl; lia|].
  destruct r as [m|]; [|contradiction]. cbn. apply IH; [simpl in Hl; lia | exact Hall].
Qed.

(** [x] is [w] after the outputs [os] and a change of the stored mode. *)
Definition advanced (w x : World) (os : list Output) : Prop :=
  sameButMode w x /\ out x = out w ++ os.

(** The port is there and the session is connected: a write is attempted. *)
Definition writable (w : World) : Prop :=
  port (labdisc w) = true /\ Session.isConnected w = true.

Lemma emit_out (o : Output) (w : World) : out (emit o w) = out w ++ [o].
Proof. reflexivity. Qed.

Lemma advanced_refl (w : World) : advanced w w [].
Proof. unfold advanced, sameButMode. rewrite app_nil_r. repeat split. Qed.

Lemma advanced_mode (m : string) (w x : World) (os : list Output) :
  advanced w x os -> advanced w (Session.setStreamMode m x) os.
Proof. intros [Hsame Ho]. split; [exact Hsame | exact Ho]. Qed.

Lemma advanced_emit (o : Output) (w x : World) (os : list Output) :
  advanced w x os -> advanced w (emit o x) (os ++ [o]).
Proof.
  intros [Hsame Ho]. split; [exact Hsame|].
  rewrite emit_out, Ho, <- app_assoc. reflexivity.
Qed.

Lemma advanced_next (rest : list (option string)) (w x : World) (os : list Output) :
  advanced w x os ->
  advanced w (mkWorld (labdisc x) (microbit x) (bridge x) (out x) rest) os.
Proof. intros Hadv. exact Hadv. Qed.

Lemma advanced_writable (w x : World) (os : list Output) :
  advanced w x os -> writable w -> writable x.
Proof.
  intros [(Hp & Hs & _) _] [Hwp Hwc]. unfold writable, Session.isConnected in *.
  rewrite Hp, Hs. split; assumption.
Qed.

Section Sequence.

Import Protocol.

Variable buildMaskForRate : list Z -> Z -> Z.
Variable H : Handlers ConnectionState.
Hypothesis Hlog : logsOnly H.

Lemma guard_passed (w : World) :
  Session.isConnected w = true -> Session.isStreaming w = false ->
  negb (Session.isConnected w) || Session.isStreaming w = false.
Proof. intros -> ->. reflexivity. Qed.

Lemma advanced_log (type msg : string) (w x : World) (os : list Output) :
  advanced w x os ->
  exists os', advanced w (Session._log H type msg x) os' /\ txOf os' = txOf os /\
              txErrors (Session._log H type msg x) = txErrors x.
Proof.
  intros Hadv. unfold Session._log. destruct (Hlog type msg x) as [msg' ->].
  exists (os ++ [LogLine type msg']). split; [apply advanced_emit, Hadv|].
  split; [|reflexivity]. rewrite txOf_app. apply app_nil_r.
Qed.

(** One write: the packet goes out when the attempt goes through, an error
    is logged when it does not, and the attempt is used up. *)
Lemma advanced_sendRaw (pkt : list Z) (name : string) (w x : World) (os : list Output) :
  writable w -> advanced w x os ->
  exists os',
    advanced w (Session._sendRaw H pkt name x) os' /\
    txOf os' = txOf os ++ delivered (txErrors x) [pkt] /\
    txErrors (Session._sendRaw H pkt name x) = tail (txErrors x).
Proof.
  intros Hw Hadv. destruct (advanced_writable w x os Hadv Hw) as [Hp Hc].
  unfold Session._sendRaw. rewrite Hp, Hc. cbn [negb orb]. unfold nextWrite.
  destruct (txErrors x) as [|[message|] rest] eqn:Herrs.
  - destruct (advanced_log "tx" (Session.fmtHex pkt +:+ " (" +:+ name +:+ ")") w
                (emit (Tx pkt) x) (os ++ [Tx pkt]) (advanced_emit _ _ _ _ Hadv))
      as (os' & Hadv' & Htx & He).
    exists os'. split; [exact Hadv'|]. split.
    + rewrite Htx, txOf_app. reflexivity.
    + rewrite He. exact Herrs.
  - destruct (advanced_log "err" ("TX error: " +:+ message) w _ os
                (advanced_next rest w x os Hadv)) as (os' & Hadv' & Htx & He).
    exists os'. split; [exact Hadv'|]. split.
    + rewrite Htx. cbn [delivered]. rewrite app_nil_r. reflexivity.
    + rewrite He. reflexivity.
  - destruct (advanced_log "tx" (Session.fmtHex pkt +:+ " (" +:+ name +:+ ")") w
                _ (os ++ [Tx pkt])
                (advanced_emit (Tx pkt) _ _ _ (advanced_next rest w x os Hadv)))
      as (os' & Hadv' & Htx & He).
    exists os'. split; [exact Hadv'|]. split.
    + rewrite Htx, txOf_app. reflexivity.
    + rewrite He. reflexivity.
Qed.

(** The handshake, the configure command and the start-login command:
    what a start does between its checks and the change of state. *)
Lemma commands_sent (mask rateIdx : Z) (name1 name2 : string) (w x : World) (os : list Output) :
  writable w -> advanced w x os -> txOf os = [] ->
  exists os',
    advanced w
      (Session.sendCommand H CMD.START_LOGIN name2
         (Session._sendRaw H
            (buildStartExperiment (Int32.and (Int32.shr mask 8) 0xFF) (Int32.and mask 0xFF)
               rateIdx 0x03) name1
            (Current._handshake H x))) os' /\
    txOf os' = delivered (txErrors x) (startSequence mask rateIdx).
Proof.
  intros Hw Hadv Htx. unfold Current._handshake, Session.sendCommand.
  destruct (advanced_sendRaw (buildCommand CMD.STOP_LOGIN) "StopLogin (handshake)"
              w x os Hw Hadv) as (os1 & H1 & T1 & E1).
  destruct (advanced_sendRaw (buildCommand CMD.GET_SENSOR_IDS) "GetSensorIDs (handshake)"
              w _ os1 Hw H1) as (os2 & H2 & T2 & E2).
  destruct (advanced_sendRaw (buildCommand CMD.GET_SENSOR_STATUS) "GetStatus (handshake)"
              w _ os2 Hw H2) as (os3 & H3 & T3 & E3).
  destruct (advanced_sendRaw
              (buildStartExperiment (Int32.and (Int32.shr mask 8) 0xFF) (Int32.and mask 0xFF)
                 rateIdx 0x03) name1 w _ os3 Hw H3) as (os4 & H4 & T4 & E4).
  destruct (advanced_sendRaw (buildCommand CMD.START_LOGIN) name2 w _ os4 Hw H4)
    as (os5 & H5 & T5 & E5).
  exists os5. split; [exact H5|].
  rewrite T5, T4, T3, T2, T1, Htx, E4, E3, E2, E1.
  unfold startSequence. rewrite !delivered_cons, <- !app_assoc. reflexivity.
Qed.

(** Normal mode up to the change of state: all sensors, rate index 0x02. *)
Lemma startNormal_commands (w : World) :
  writable w -> Session.isStreaming w = false -> Session.sensorIds w <> [] ->
  exists x os,
    Current.startNormal H w = Session.resetPacketCount (Session._setState H STREAMING x) /\
    advanced w x os /\
    txOf os = delivered (txErrors w)
                (startSequence (Int32.shl 1 (Z.of_nat (length (Session.sensorIds w))) - 1) 0x02).
Proof.
  intros Hw Hs Hids. unfold Current.startNormal. rewrite (guard_passed w (proj2 Hw) Hs).
  change (Session.sensorIds (Session.setStreamMode "normal" w)) with (Session.sensorIds w).
  destruct (Session.sensorIds w) as [|id ids] eqn:Hl; [contradiction|].
  cbn [length Nat.eqb]. cbv zeta.
  match goal with
  | |- context [Current._handshake H (Session._log H ?t ?m ?x0)] =>
      destruct (advanced_log t m w x0 [] (advanced_mode _ _ _ _ (advanced_refl w)))
        as (os0 & H0 & T0 & E0)
  end.
  match goal with
  | |- context [Session._sendRaw H ?pkt ?n1 (Current._handshake H ?x1)] =>
      destruct (commands_sent (Int32.shl 1 (Z.of_nat (S (length ids))) - 1) 0x02 n1
                  "StartLogin (Normal 1Hz)" w x1 os0 Hw H0 T0) as (os' & H' & T')
  end.
  rewrite E0 in T'.
  eexists _, os'. split; [reflexivity|]. split; [exact H' | exact T'].
Qed.

(** Fast mode up to the change of state: the mask of [buildMaskForRate],
    rate index 0x03. *)
Lemma startFast_commands (w : World) :
  writable w -> Session.isStreaming w = false -> Session.sensorIds w <> [] ->
  exists x os,
    Current.startFast buildMaskForRate H w
      = Session.resetPacketCount (Session._setState H STREAMING x) /\
    advanced w x os /\
    txOf os = delivered (txErrors w)
                (startSequence (buildMaskForRate (Session.sensorIds w) 10) 0x03).
Proof.
  intros Hw Hs Hids. unfold Current.startFast. rewrite (guard_passed w (proj2 Hw) Hs).
  change (Session.sensorIds (Session.setStreamMode "fast" w)) with (Session.sensorIds w).
  destruct (Session.sensorIds w) as [|id ids] eqn:Hl; [contradiction|].
  cbn [length Nat.eqb]. cbv zeta.
  match goal with
  | |- context [Session._log H "info" ?m2 (if ?c then Session._log H ?t ?m ?x0 else ?x0)] =>
      assert (exists os0, advanced w (if c then Session._log H t m x0 else x0) os0 /\
                          txOf os0 = [] /\
                          txErrors (if c then Session._log H t m x0 else x0) = txErrors w)
        as (os0 & H0 & T0 & E0)
        by (destruct c;
            [apply (advanced_log t m w x0 [] (advanced_mode _ _ _ _ (advanced_refl w)))
            |exists []; split; [apply advanced_mode, advanced_refl | split; reflexivity]]);
      destruct (advanced_log "info" m2 w _ os0 H0) as (os1 & H1 & T1 & E1)
  end.
  rewrite T0 in T1. rewrite E0 in E1.
  match goal with
  | |- context [Session._sendRaw H ?pkt ?n1 (Current._handshake H ?x1)] =>
      destruct (commands_sent (buildMaskForRate (id :: ids) 10) 0x03 n1
                  "StartLogin (Fast 10Hz)" w x1 os1 Hw H1 T1) as (os' & H' & T')
  end.
  rewrite E1 in T'.
  eexists _, os'. split; [reflexivity|]. split; [exact H' | exact T'].
Qed.

(** The earlier revision's online start up to the change of state: the
    start-login command and nothing before it. *)
Lemma startOnline_commands (w : World) :
  writable w -> Session.isStreaming w = false ->
  exists x os,
    Legacy.startOnline H w = Session.resetPacketCount (Session._setState H STREAMING x) /\
    advanced w x os /\
    txOf os = delivered (txErrors w) [buildCommand CMD.START_LOGIN].
Proof.
  intros Hw Hs. unfold Legacy.startOnline. rewrite (guard_passed w (proj2 Hw) Hs).
  unfold Session.sendCommand.
  destruct (advanced_sendRaw (buildCommand CMD.START_LOGIN) "StartLogin (Online)" w
              (Session.setStreamMode "online" w) [] Hw
              (advanced_mode _ _ _ _ (advanced_refl w))) as (os' & H' & T' & _).
  eexists _, os'. split; [reflexivity|]. split; [exact H' | exact T'].
Qed.

End Sequence.

(** What a start adds to the outputs of a session used alone: the commands
    [cmds] and no other byte, then the change of state to Streaming. *)
Definition startedWith (cmds : list (list Z)) (w w' : World) : Prop :=
  exists os,
    out w' = out w ++ os ++ [StateChanged STREAMING] /\
    txOf os = cmds /\
    state (labdisc w') = STREAMING.

Lemma recorder_enters_streaming (cmds : list (list Z)) (w x : World) (os : list Output) :
  Session.isStreaming w = false -> advanced w x os -> txOf os = cmds ->
  startedWith cmds w (Session.resetPacketCount (Session._setState recorder STREAMING x)).
Proof.
  intros Hs [(_ & Hst & _) Ho] Htx.
  assert (state (labdisc x) <> STREAMING) as Hne.
  { rewrite Hst. unfold Session.isStreaming in Hs. apply bool_decide_eq_false in Hs. exact Hs. }
  unfold Session._setState. rewrite bool_decide_eq_false_2 by exact Hne.
  exists os. split; [|split; [exact Htx | reflexivity]].
  cbn. rewrite Ho, <- app_assoc. reflexivity.
Qed.


(** The earlier revision's online start enters Streaming after the
    start-login command alone, whether or not its sensor-id list is empty. *)
Lemma startOnline_sends_start_login_only (w : World) :
  writable w -> Session.isStreaming w = false ->
  startedWith (delivered (txErrors w) [Protocol.buildCommand Protocol.CMD.START_LOGIN]) w
    (Legacy.startOnline recorder w).
Proof.
  intros Hw Hs.
  destruct (startOnline_commands recorder recorder_logsOnly w Hw Hs) as (x & os & -> & Hadv & Htx).
  apply (recorder_enters_streaming _ w x os Hs Hadv Htx).
Qed.

(** A session of the earlier revision, connected, with the sensor ids of
    ambient temperature and GPS cached. *)
Definition legacyReady : World :=
  mkWorld (mkLabdisc true CONNECTED (Parser.mkParser [] [30; 7] 0) "online" None)
          Microbit.new (mkBridge 0 "normal" false) [] [].

(** The same session in the current revision. *)
Definition currentReady : World :=
  mkWorld (mkLabdisc true CONNECTED (Parser.mkParser [] [30; 7] 0) "normal" None)
          Microbit.new Current.newBridge [] [].

(** C1 (the earlier revision's starts). On a connected session with two
    sensor ids, [startOnline] writes the start-login command 47 14 22 83
    and nothing else before it enters Streaming: no stop-login, no
    get-sensor-ids, no get-status, no configure command; [startExperiment]
    writes the configure command and start-login without the handshake.
    [startNormal] of the current revision writes all five on the same
    session. *)
Theorem legacy_start_skips_handshake :
  out (Legacy.startOnline recorder legacyReady)
    = [Tx [0x47; 0x14; 0x22; 0x83];
       LogLine "tx" "47 14 22 83 (StartLogin (Online))";
       StateChanged STREAMING] /\
  transmitted (Legacy.startExperiment recorder legacyReady)
    = [Protocol.buildStartExperiment 0x00 0x03 0x04 0x03;
       Protocol.buildCommand Protocol.CMD.START_LOGIN] /\
  state (labdisc (Legacy.startExperiment recorder legacyReady)) = STREAMING /\
  transmitted (Current.startNormal recorder currentReady)
    = [[0x47; 0x14; 0x33; 0x72];
       [0x47; 0x14; 0xAA; 0xFB];
       [0x47; 0x14; 0x10; 0x95];
       [0x47; 0x14; 0x11; 0x00; 0x03; 0x02; 0x03; 0; 0; 0; 0; 0; 0; 0; 0; 0; 0x8C];
       [0x47; 0x14; 0x22; 0x83]].
Proof. repeat split; vm_compute; reflexivity. Qed.

(** ** BridgeOrchestrator: automatic and manual streams *)

(** [emit] applied to each of [os] in turn. *)
Definition emitAll (os : list Output) (o : list Output) : list Output :=
  fold_left (fun acc x => acc ++ [x]) os o.

Lemma emitAll_app (os o : list Output) : emitAll os o = o ++ os.
Proof.
  revert o. induction os as [|x os IH]; intros o; simpl.
  - rewrite app_nil_r. reflexivity.
  - unfold emitAll in IH. rewrite IH, <- app_assoc. reflexivity.
Qed.

(** A world with its outputs replaced. *)
Definition withOut (o : list Output) (w : World) : World :=
  mkWorld (labdisc w) (microbit w) (bridge w) o (txErrors w).

(** The bytes written between two worlds, from the outputs added. *)
Lemma transmitted_added (w w' : World) (os : list Output) (cmds : list (list Z)) :
  out w' = emitAll os (out w) -> txOf os = cmds -> transmitted w' = transmitted w ++ cmds.
Proof.
  intros Ho Ht. rewrite !transmitted_txOf, Ho, emitAll_app, txOf_app, Ht. reflexivity.
Qed.

(** What the Beacon's side does: the link is lost, the user connects the
    Beacon (and the device answers), the user disconnects it. *)
Inductive BeaconEvent : Type :=
  | LinkLost
  | UserConnects (deviceName : string)
  | UserDisconnects.

(** A stream is on: the state is Streaming since a start that wrote
    [cmds], with the orchestrator's flag [auto]. *)
Definition streamOn (auto : bool) (cmds : list (list Z)) (w w' : World) : Prop :=
  state (labdisc w') = STREAMING /\
  port (labdisc w') = port (labdisc w) /\
  _autoStarted (bridge w') = auto /\
  microbit w' = microbit w /\
  transmitted w' = transmitted w ++ cmds.

Section Orchestrator.

Variable buildMaskForRate : list Z -> Z -> Z.

Definition beaconStep (e : BeaconEvent) (w : World) : World :=
  match e with
  | LinkLost => Current.beaconLost buildMaskForRate w
  | UserConnects deviceName => Current.connectMicrobit buildMaskForRate deviceName w
  | UserDisconnects => Current.disconnectMicrobit buildMaskForRate w
  end.

(** *** When [_checkAutoStream] does nothing *)

Lemma check_streaming_manual (fuel : nat) (w : World) :
  state (labdisc w) = STREAMING -> _autoStarted (bridge w) = false ->
  Current._checkAutoStream buildMaskForRate fuel w = w.
Proof.
  destruct fuel; [reflexivity|].
  destruct w as [[p st pa sm ds] [bs rx] [cnt md fl] o te]. cbn [labdisc bridge state _autoStarted].
  intros -> ->. destruct bs; reflexivity.
Qed.

Lemma check_streaming_beacon (fuel : nat) (w : World) :
  state (labdisc w) = STREAMING -> ble_state (microbit w) = BLE_CONNECTED ->
  Current._checkAutoStream buildMaskForRate fuel w = w.
Proof.
  destruct fuel; [reflexivity|].
  destruct w as [[p st pa sm ds] [bs rx] [cnt md fl] o te]. cbn [labdisc microbit state ble_state].
  intros -> ->. reflexivity.
Qed.

Lemma check_no_beacon (fuel : nat) (w : World) :
  state (labdisc w) <> STREAMING -> ble_state (microbit w) <> BLE_CONNECTED ->
  Current._checkAutoStream buildMaskForRate fuel w = w.
Proof.
  destruct fuel; [reflexivity|].
  destruct w as [[p st pa sm ds] [bs rx] [cnt md fl] o te]. cbn [labdisc microbit state ble_state].
  intros Hst Hbs. destruct st; try contradiction; destruct bs; try contradiction; reflexivity.
Qed.

(** *** Auto-stop: the Beacon is lost while an automatic stream is on *)

(** The Beacon's link is lost while an automatic stream is on: the
    session returns to Connected, the flag is cleared, and stop-login is
    written when the attempt to write goes through. *)
Lemma auto_stream_stopped (w : World) :
  state (labdisc w) = STREAMING -> port (labdisc w) = true ->
  ble_state (microbit w) = BLE_CONNECTED -> _autoStarted (bridge w) = true ->
  state (labdisc (beaconStep LinkLost w)) = CONNECTED /\
  _autoStarted (bridge (beaconStep LinkLost w)) = false /\
  ble_state (microbit (beaconStep LinkLost w)) = BLE_DISCONNECTED /\
  transmitted (beaconStep LinkLost w)
    = transmitted w ++ delivered (txErrors w) [Protocol.buildCommand Protocol.CMD.STOP_LOGIN] /\
  txErrors (beaconStep LinkLost w) = tail (txErrors w).
Proof.
  destruct w as [[p st pa sm ds] [bs rx] [cnt md fl] o te].
  cbn [labdisc microbit bridge state port ble_state _autoStarted txErrors].
  intros -> -> -> ->.
  destruct te as [|[message|] te];
    (split; [vm_compute; reflexivity|]); (split; [vm_compute; reflexivity|]);
    (split; [vm_compute; reflexivity|]); (split; [|vm_compute; reflexivity]);
    match goal with
    | |- transmitted (beaconStep LinkLost ?w0) = _ =>
        apply (transmitted_added w0 _ (out (beaconStep LinkLost (withOut [] w0))));
          vm_compute; reflexivity
    end.
Qed.

(** The user's own disconnection of the Beacon stops it as well. *)
Lemma auto_stream_stopped_by_disconnect (w : World) :
  state (labdisc w) = STREAMING -> port (labdisc w) = true ->
  ble_state (microbit w) = BLE_CONNECTED -> _autoStarted (bridge w) = true ->
  state (labdisc (beaconStep UserDisconnects w)) = CONNECTED /\
  transmitted (beaconStep UserDisconnects w)
    = transmitted w ++ delivered (txErrors w) [Protocol.buildCommand Protocol.CMD.STOP_LOGIN].
Proof.
  destruct w as [[p st pa sm ds] [bs rx] [cnt md fl] o te].
  cbn [labdisc microbit bridge state port ble_state _autoStarted txErrors].
  intros -> -> -> ->.
  destruct te as [|[message|] te];
    (split; [vm_compute; reflexivity|]);
    match goal with
    | |- transmitted (beaconStep UserDisconnects ?w0) = _ =>
        apply (transmitted_added w0 _ (out (beaconStep UserDisconnects (withOut [] w0))));
          vm_compute; reflexivity
    end.
Qed.

(** *** A manual stream outlives every event of the Beacon's side *)

Lemma beacon_event_manual (e : BeaconEvent) (w : World) :
  state (labdisc w) = STREAMING -> _autoStarted (bridge w) = false ->
  labdisc (beaconStep e w) = labdisc w /\
  bridge (beaconStep e w) = bridge w /\
  transmitted (beaconStep e w) = transmitted w.
Proof.
  destruct w as [[p st pa sm ds] [bs rx] [cnt md fl] o te].
  cbn [labdisc bridge state _autoStarted]. intros -> ->.
  split; [destruct e, bs; vm_compute; reflexivity|].
  split; [destruct e, bs; vm_compute; reflexivity|].
  set (w := mkWorld (mkLabdisc p STREAMING pa sm ds) (mkMicrobit bs rx) (mkBridge cnt md false)
              o te).
  assert (out (beaconStep e w) = emitAll (out (beaconStep e (withOut [] w))) o) as Hout
    by (destruct e, bs; vm_compute; reflexivity).
  assert (txOf (out (beaconStep e (withOut [] w))) = []) as Htx
    by (destruct e, bs; vm_compute; reflexivity).
  unfold transmitted. fold (txOf (out (beaconStep e w))). fold (txOf (out w)).
  rewrite Hout, emitAll_app, txOf_app, Htx. apply app_nil_r.
Qed.

Lemma manual_stream_persists (events : list BeaconEvent) (w : World) :
  state (labdisc w) = STREAMING -> _autoStarted (bridge w) = false ->
  state (labdisc (foldl (fun x e => beaconStep e x) w events)) = STREAMING /\
  _autoStarted (bridge (foldl (fun x e => beaconStep e x) w events)) = false /\
  transmitted (foldl (fun x e => beaconStep e x) w events) = transmitted w.
Proof.
  revert w. induction events as [|e events IH]; intros w Hst Hfl; [repeat split; assumption|].
  destruct (beacon_event_manual e w Hst Hfl) as (Hl & Hb & Ht).
  simpl. rewrite <- Ht. apply IH; [rewrite Hl | rewrite Hb]; assumption.
Qed.

End Orchestrator.

Section Starts.

Variable buildMaskForRate : list Z -> Z -> Z.

(** The commands of a start in the orchestrator's selected mode. *)
Definition modeSequence (w : World) : list (list Z) :=
  if String.eqb (mode (bridge w)) "fast"
  then startSequence (buildMaskForRate (Session.sensorIds w) 10) 0x03
  else startSequence (Int32.shl 1 (Z.of_nat (length (Session.sensorIds w))) - 1) 0x02.

(** The session [x] once it is Streaming and the orchestrator has logged
    the change and refreshed the display. *)
Definition entered (x : World) : World :=
  let l := labdisc x in
  emit Update
    (emit (LogLine "info" "Labdisc: streaming")
       (setLabdisc (mkLabdisc (port l) STREAMING (parser l) (streamMode l) (deviceStatus l)) x)).

Lemma wired_enters_streaming (chk : World -> World) (x : World) :
  state (labdisc x) <> STREAMING ->
  (forall y, state (labdisc y) = STREAMING -> microbit y = microbit x -> bridge y = bridge x ->
             chk y = y) ->
  Session._setState (Current.wireLabdisc chk) STREAMING x = entered x.
Proof.
  intros Hne Hchk. unfold Session._setState. rewrite bool_decide_eq_false_2 by exact Hne.
  cbn [onStateChange Current.wireLabdisc]. rewrite Hchk; reflexivity.
Qed.

(** A start of the orchestrator's mode through wired handlers whose check
    leaves a Streaming session alone. *)
Lemma startStreaming_wired (chk : World -> World) (w : World) :
  writable w -> Session.isStreaming w = false -> Session.sensorIds w <> [] ->
  (forall y, state (labdisc y) = STREAMING -> microbit y = microbit w -> bridge y = bridge w ->
             chk y = y) ->
  streamOn (_autoStarted (bridge w)) (delivered (txErrors w) (modeSequence w)) w
    (Current._startStreaming buildMaskForRate (Current.wireLabdisc chk) w).
Proof.
  intros Hw Hs Hids Hchk. unfold Current._startStreaming, modeSequence.
  assert (forall x os cmds,
            advanced w x os -> txOf os = cmds ->
            streamOn (_autoStarted (bridge w)) cmds w
              (Current.setUartSentCount 0
                 (Session.resetPacketCount
                    (Session._setState (Current.wireLabdisc chk) STREAMING x)))) as Hfin.
  { intros x os cmds [(Hp & Hst & Hpa & Hds & Hmb & Hbr) Ho] Htx.
    rewrite wired_enters_streaming.
    - unfold streamOn, transmitted. cbn. rewrite Hp, Hbr, Hmb, Ho.
      repeat split. rewrite <- !app_assoc, !omap_app. cbn. rewrite app_nil_r.
      fold (txOf os). rewrite Htx. reflexivity.
    - rewrite Hst. unfold Session.isStreaming in Hs. apply bool_decide_eq_false in Hs. exact Hs.
    - intros y Hy Hym Hyb. apply Hchk; [exact Hy | rewrite Hym; exact Hmb | rewrite Hyb; exact Hbr]. }
  destruct (String.eqb (mode (bridge w)) "fast").
  - destruct (startFast_commands buildMaskForRate _ (wireLabdisc_logsOnly chk) w Hw Hs Hids)
      as (x & os & -> & Hadv & Htx).
    apply (Hfin x os _ Hadv Htx).
  - destruct (startNormal_commands _ (wireLabdisc_logsOnly chk) w Hw Hs Hids)
      as (x & os & -> & Hadv & Htx).
    apply (Hfin x os _ Hadv Htx).
Qed.

(** Auto-start: when [_checkAutoStream] runs with the Logger connected and
    idle, the Beacon connected and a sensor id known, a stream is started
    in the selected mode and marked automatic; the commands of the mode
    whose write goes through are written. *)
Lemma auto_stream_started (fuel : nat) (w : World) :
  port (labdisc w) = true -> state (labdisc w) = CONNECTED ->
  ble_state (microbit w) = BLE_CONNECTED -> Session.sensorIds w <> [] ->
  streamOn true (delivered (txErrors w) (modeSequence w)) w
    (Current._checkAutoStream buildMaskForRate (S fuel) w).
Proof.
  intros Hp Hst Hbs Hids.
  set (w1 := Current.set_autoStarted true
               (Current.bridge_log "info" "Ambos conectados — auto-start streaming" w)).
  assert (Current._checkAutoStream buildMaskForRate (S fuel) w
          = Current._startStreaming buildMaskForRate
              (Current.wireLabdisc (Current._checkAutoStream buildMaskForRate fuel)) w1) as ->.
  { cbn [Current._checkAutoStream]. unfold Session.isStreaming. rewrite Hst, Hbs.
    destruct (Session.sensorIds w) as [|id ids] eqn:Hl; [contradiction|].
    reflexivity. }
  assert (streamOn (_autoStarted (bridge w1)) (delivered (txErrors w1) (modeSequence w1)) w1
            (Current._startStreaming buildMaskForRate
               (Current.wireLabdisc (Current._checkAutoStream buildMaskForRate fuel)) w1))
    as (H1 & H2 & H3 & H4 & H5).
  { apply startStreaming_wired.
    - split; [exact Hp|]. unfold Session.isConnected. cbn. rewrite Hst. reflexivity.
    - unfold Session.isStreaming. cbn. rewrite Hst. reflexivity.
    - exact Hids.
    - intros y Hy Hym _. apply check_streaming_beacon; [exact Hy | rewrite Hym; exact Hbs]. }
  repeat split; [exact H1 | exact H2 | exact H3 | exact H4 |].
  rewrite H5. unfold transmitted. cbn. rewrite omap_app. cbn. rewrite app_nil_r. reflexivity.
Qed.

(** Manual start: the Stream button on a connected, idle session starts a
    stream in the selected mode and marks it as not automatic, with or
    without a Beacon; the commands of the mode whose write goes through are
    written, all five when every write does. *)
Lemma manual_stream_started (w : World) :
  writable w -> Session.isStreaming w = false -> Session.sensorIds w <> [] ->
  streamOn false (delivered (txErrors w) (modeSequence w)) w
    (Current.manualStartStream buildMaskForRate w).
Proof.
  intros Hw Hs Hids. unfold Current.manualStartStream.
  rewrite (guard_passed w (proj2 Hw) Hs).
  set (w1 := Current.set_autoStarted false w).
  unfold Current.labdiscHandlers.
  assert (streamOn (_autoStarted (bridge w1)) (delivered (txErrors w1) (modeSequence w1)) w1
            (Current._startStreaming buildMaskForRate
               (Current.wireLabdisc (Current._checkAutoStream buildMaskForRate Current.depth)) w1))
    as (H1 & H2 & H3 & H4 & H5).
  { apply startStreaming_wired.
    - exact Hw.
    - exact Hs.
    - exact Hids.
    - intros y Hy _ Hyb. apply check_streaming_manual; [exact Hy | rewrite Hyb; reflexivity]. }
  repeat split; [exact H1 | exact H2 | exact H3 | exact H4 | exact H5].
Qed.

End Starts.

(** The earlier revision with both devices connected and no stream: the
    Beacon connected first, the Logger after it (its id list still empty at
    that state change, so nothing started), and the ids arrived since. *)
Definition legacyBothConnected : World :=
  mkWorld (mkLabdisc true CONNECTED (Parser.mkParser [] [30; 7] 0) "online" None)
          (mkMicrobit BLE_CONNECTED true) (mkBridge 0 "normal" false) [] [].

(** The same situation in the current revision. *)
Definition currentBothConnected : World :=
  mkWorld (mkLabdisc true CONNECTED (Parser.mkParser [] [30; 7] 0) "normal" None)
          (mkMicrobit BLE_CONNECTED true) Current.newBridge [] [].

(** C2 (the earlier revision's orchestrator). The user starts a stream
    with the Stream button and the Beacon's link is then lost: the earlier
    [_checkAutoStream], which has no flag for automatic starts, writes
    stop-login and the session leaves Streaming.  Without a Beacon the same
    button press is undone at once.  The current revision keeps the manual
    stream in the first situation. *)
Theorem legacy_manual_stream_stopped :
  (state (labdisc (Legacy.handleManualStream legacyBothConnected)) = STREAMING /\
   transmitted (Legacy.handleManualStream legacyBothConnected) = [[0x47; 0x14; 0x22; 0x83]] /\
   state (labdisc (Legacy.beaconLost (Legacy.handleManualStream legacyBothConnected)))
     = CONNECTED /\
   transmitted (Legacy.beaconLost (Legacy.handleManualStream legacyBothConnected))
     = [[0x47; 0x14; 0x22; 0x83]; [0x47; 0x14; 0x33; 0x72]]) /\
  (state (labdisc (Legacy.handleManualStream legacyReady)) = CONNECTED /\
   transmitted (Legacy.handleManualStream legacyReady)
     = [[0x47; 0x14; 0x22; 0x83]; [0x47; 0x14; 0x33; 0x72]]) /\
  (state (labdisc (Current.handleManualStream maskWithoutGps currentBothConnected))
     = STREAMING /\
   state (labdisc (Current.beaconLost maskWithoutGps
                     (Current.handleManualStream maskWithoutGps currentBothConnected)))
     = STREAMING /\
   transmitted (Current.beaconLost maskWithoutGps
                  (Current.handleManualStream maskWithoutGps currentBothConnected))
     = transmitted (Current.handleManualStream maskWithoutGps currentBothConnected)).
Proof. repeat split; vm_compute; reflexivity. Qed.

(** The current revision from the start of a session: the Beacon connects
    while the Logger is connected with its ids known, so the stream starts
    by itself with the full command sequence; the link is lost and the
    stream is stopped. *)
Example auto_stream_scenario :
  transmitted (Current.connectMicrobit maskWithoutGps "BBC micro:bit" currentReady)
    = startSequence 3 0x02 /\
  _autoStarted (bridge (Current.connectMicrobit maskWithoutGps "BBC micro:bit" currentReady))
    = true /\
  state (labdisc (Current.connectMicrobit maskWithoutGps "BBC micro:bit" currentReady))
    = STREAMING /\
  state (labdisc (Current.beaconLost maskWithoutGps
                    (Current.connectMicrobit maskWithoutGps "BBC micro:bit" currentReady)))
    = CONNECTED /\
  transmitted (Current.beaconLost maskWithoutGps
                 (Current.connectMicrobit maskWithoutGps "BBC micro:bit" currentReady))
    = startSequence 3 0x02 ++ [Protocol.buildCommand Protocol.CMD.STOP_LOGIN].
Proof. repeat split; vm_compute; reflexivity. Qed.

(** * The framer: resynchronisation and chunking *)

(** [feed]'s first step: the bytes pushed at the end of the buffer. *)
Definition pushBytes (p : Parser.LabdiscParser) (bytes : list Z) : Parser.LabdiscParser :=
  Parser.withBuffer p (Parser.buffer p ++ bytes).

(** What the framer keeps of a buffer once it looked at it: the bytes from
    the first header on, or else a last byte 0x2E that may start one. *)
Fixpoint norm (b : list Z) : list Z :=
  match b with
  | [] => []
  | a :: rest =>
      match rest with
      | [] => if a =? 0x2E then [a] else []
      | c :: _ => if (a =? 0x2E) && (c =? 0x69) then b else norm rest
      end
  end.

(** Two parsers that the framer cannot tell apart. *)
Definition sameFraming (p q : Parser.LabdiscParser) : Prop :=
  Parser.sensorIds p = Parser.sensorIds q /\
  Parser.packetCount p = Parser.packetCount q /\
  norm (Parser.buffer p) = norm (Parser.buffer q).

(** A packet as the framer cuts it: the header, and a type whose length
    is the packet's own. *)
Definition framed (pkt : list Z) : bool :=
  match pkt with
  | a :: b :: t :: _ =>
      (a =? 0x2E) && (b =? 0x69) &&
      match Parser._getPacketLength t pkt with
      | Some len => (len =? Z.of_nat (length pkt)) && (4 <=? len) && (len <=? 800)
      | None => false
      end
  | _ => false
  end.

(** The log line of a checksum failure. *)
Definition badChecksum (pkt : list Z) : Parser.Event :=
  Parser.OnLog "warn" ("Bad checksum, resync (type=0x" +:+ JS.toString16 (Parser.byteAt pkt 2) +:+
                       ", " +:+ JS.toString10 (Z.of_nat (length pkt)) +:+ "b)").

(** The passes of the loop of [_processBuffer] that end in a [continue] or
    at the end of the body, counted along [Parser.loop]. *)
Fixpoint passesFrom (fuel safety : nat) (p : Parser.LabdiscParser) : nat :=
  match fuel with
  | O => O
  | S fuel' =>
      if (4 <=? length (Parser.buffer p))%nat && (safety <? 50)%nat then
        match Parser.loopBody (S safety) p with
        | Parser.Break _ => O
        | Parser.Continue p' _ => S (passesFrom fuel' (S safety) p')
        end
      else O
  end.

(** The passes made by [feed(bytes)]. *)
Definition passes (p : Parser.LabdiscParser) (bytes : list Z) : nat :=
  passesFrom 50 0 (pushBytes p bytes).

(** The loop without its safety counter: [k] passes, then a [break] or a
    buffer under four bytes. *)
Inductive runs : Parser.LabdiscParser -> nat -> list Parser.Event -> Parser.LabdiscParser -> Prop :=
  | runs_short p :
      (length (Parser.buffer p) < 4)%nat -> runs p 0 [] p
  | runs_break p q :
      (4 <= length (Parser.buffer p))%nat ->
      Parser.loopBody 1 p = Parser.Break q -> runs p 0 [] q
  | runs_continue p p' evs k es q :
      (4 <= length (Parser.buffer p))%nat ->
      Parser.loopBody 1 p = Parser.Continue p' evs ->
      runs p' k es q -> runs p (S k) (evs ++ es) q.

(** ** Headers *)

Lemma findHeader_cons2 (a c : Z) (rest : list Z) :
  Parser.findHeader (a :: c :: rest) =
  if (a =? 0x2E) && (c =? 0x69) then Some 0%nat else S <$> Parser.findHeader (c :: rest).
Proof. reflexivity. Qed.

Lemma findHeader_app_Some (b y : list Z) (h : nat) :
  Parser.findHeader b = Some h -> Parser.findHeader (b ++ y) = Some h.
Proof.
  revert h. induction b as [|a [|c b'] IH]; intros h; try discriminate.
  change ((a :: c :: b') ++ y) with (a :: c :: (b' ++ y)).
  rewrite !findHeader_cons2.
  destruct ((a =? 46) && (c =? 105)); [auto|].
  destruct (Parser.findHeader (c :: b')) as [h'|] eqn:E; [|discriminate].
  intros [= <-].
  change (c :: b' ++ y) with ((c :: b') ++ y).
  rewrite (IH h' eq_refl). reflexivity.
Qed.

Lemma findHeader_drop (b : list Z) (h : nat) :
  Parser.findHeader b = Some h ->
  exists rest, drop h b = 0x2E :: 0x69 :: rest.
Proof.
  revert h. induction b as [|a [|c b'] IH]; intros h; try discriminate.
  rewrite findHeader_cons2.
  destruct ((a =? 46) && (c =? 105)) eqn:E.
  - intros [= <-]. apply andb_true_iff in E as [->%Z.eqb_eq ->%Z.eqb_eq]. eexists; reflexivity.
  - destruct (Parser.findHeader (c :: b')) as [h'|] eqn:E'; [|discriminate].
    intros [= <-]. apply (IH h' eq_refl).
Qed.

Lemma findHeader_here (rest : list Z) : Parser.findHeader (0x2E :: 0x69 :: rest) = Some 0%nat.
Proof. reflexivity. Qed.

Lemma findHeader_None_app (a rest : list Z) :
  Parser.findHeader a = None ->
  Parser.findHeader (a ++ 0x2E :: 0x69 :: rest) = Some (length a).
Proof.
  induction a as [|x [|c a'] IH]; intros Hn.
  - reflexivity.
  - change ([x] ++ 46 :: 105 :: rest) with (x :: 46 :: 105 :: rest).
    rewrite findHeader_cons2. rewrite andb_false_r. reflexivity.
  - rewrite findHeader_cons2 in Hn.
    destruct ((x =? 46) && (c =? 105)) eqn:E; [discriminate|].
    destruct (Parser.findHeader (c :: a')) eqn:E'; [discriminate|].
    change ((x :: c :: a') ++ 46 :: 105 :: rest) with (x :: c :: (a' ++ 46 :: 105 :: rest)).
    rewrite findHeader_cons2, E.
    change (c :: a' ++ 46 :: 105 :: rest) with ((c :: a') ++ 46 :: 105 :: rest).
    rewrite (IH eq_refl). reflexivity.
Qed.

Lemma findHeader_bound (b : list Z) (h : nat) :
  Parser.findHeader b = Some h -> (h + 2 <= length b)%nat.
Proof.
  intros Hh. destruct (findHeader_drop b h Hh) as [rest Hr].
  assert (length (drop h b) = S (S (length rest))) as Hl by (rewrite Hr; reflexivity).
  rewrite length_drop in Hl. lia.
Qed.

(** ** What the framer keeps *)

Lemma norm_cons2 (a c : Z) (rest : list Z) :
  norm (a :: c :: rest) =
  if (a =? 0x2E) && (c =? 0x69) then a :: c :: rest else norm (c :: rest).
Proof. reflexivity. Qed.

Lemma norm_Some (b : list Z) (h : nat) :
  Parser.findHeader b = Some h -> norm b = drop h b.
Proof.
  revert h. induction b as [|a [|c b'] IH]; intros h; try discriminate.
  rewrite findHeader_cons2, norm_cons2.
  destruct ((a =? 46) && (c =? 105)) eqn:E.
  - intros [= <-]. reflexivity.
  - destruct (Parser.findHeader (c :: b')) as [h'|] eqn:E'; [|discriminate].
    intros [= <-]. apply (IH h' eq_refl).
Qed.

Lemma norm_None (b : list Z) :
  Parser.findHeader b = None ->
  (length (norm b) <= 1)%nat /\ Parser.findHeader (norm b) = None.
Proof.
  induction b as [|a [|c b'] IH].
  - simpl. auto.
  - simpl. destruct (a =? 46); simpl; auto.
  - rewrite findHeader_cons2, norm_cons2.
    destruct ((a =? 46) && (c =? 105)); [discriminate|].
    destruct (Parser.findHeader (c :: b')); [discriminate|]. auto.
Qed.

Lemma norm_suffix (b : list Z) (n : nat) :
  Parser.findHeader b = None -> (n < length b)%nat -> norm (drop n b) = norm b.
Proof.
  revert n. induction b as [|a [|c b'] IH]; intros n Hn Hlt.
  - simpl in Hlt. lia.
  - simpl in Hlt. replace n with 0%nat by lia. reflexivity.
  - destruct n as [|n]; [reflexivity|].
    rewrite findHeader_cons2 in Hn. rewrite norm_cons2.
    destruct ((a =? 46) && (c =? 105)) eqn:E; [discriminate|].
    destruct (Parser.findHeader (c :: b')) eqn:E'; [discriminate|].
    change (drop (S n) (a :: c :: b')) with (drop n (c :: b')).
    apply IH; [reflexivity|simpl in *; lia].
Qed.

Lemma norm_app (a y : list Z) : norm (a ++ y) = norm (norm a ++ y).
Proof.
  induction a as [|x [|c a'] IH].
  - reflexivity.
  - destruct y as [|y0 y].
    + simpl. destruct (x =? 46) eqn:E; simpl; [rewrite E|]; reflexivity.
    + change ([x] ++ y0 :: y) with (x :: y0 :: y). rewrite norm_cons2.
      simpl norm at 2. destruct (x =? 46) eqn:E.
      * change ([x] ++ y0 :: y) with (x :: y0 :: y). rewrite norm_cons2, E. reflexivity.
      * reflexivity.
  - change ((x :: c :: a') ++ y) with (x :: c :: (a' ++ y)).
    rewrite !norm_cons2. destruct ((x =? 46) && (c =? 105)) eqn:E.
    + change ((x :: c :: a') ++ y) with (x :: c :: (a' ++ y)).
      rewrite norm_cons2, E. reflexivity.
    + exact IH.
Qed.

Lemma norm_idem (b : list Z) : norm (norm b) = norm b.
Proof.
  pose proof (norm_app b []) as H. rewrite !app_nil_r in H. symmetry. exact H.
Qed.

Lemma norm_header (b1 b2 : list Z) (h1 : nat) :
  norm b1 = norm b2 -> Parser.findHeader b1 = Some h1 ->
  exists h2, Parser.findHeader b2 = Some h2 /\ drop h2 b2 = drop h1 b1.
Proof.
  intros Hn H1. destruct (Parser.findHeader b2) as [h2|] eqn:H2.
  - exists h2. split; [reflexivity|].
    rewrite <- (norm_Some _ _ H1), <- (norm_Some _ _ H2). auto.
  - exfalso. destruct (norm_None _ H2) as [_ Hnone].
    rewrite <- Hn, (norm_Some _ _ H1) in Hnone.
    destruct (findHeader_drop _ _ H1) as [rest Hr]. rewrite Hr in Hnone. discriminate.
Qed.

(** ** One pass of the loop *)

Lemma handlePacket_buffer (p : Parser.LabdiscParser) (B : list Z) (t : Z) (pkt : list Z) :
  Parser._handlePacket (Parser.withBuffer p B) t pkt =
  (Parser.withBuffer (fst (Parser._handlePacket p t pkt)) B,
   snd (Parser._handlePacket p t pkt)).
Proof.
  unfold Parser._handlePacket.
  repeat match goal with |- context [if ?c then _ else _] => destruct c end;
    try reflexivity.
  - unfold Parser._parseOnlineData. simpl. destruct (Parser.sensorIds p); reflexivity.
  - unfold Parser._parseExperimentData. simpl. destruct (Parser.sensorIds p); reflexivity.
Qed.

Lemma handlePacket_keeps_buffer (p : Parser.LabdiscParser) (t : Z) (pkt : list Z) :
  Parser.buffer (fst (Parser._handlePacket p t pkt)) = Parser.buffer p.
Proof.
  unfold Parser._handlePacket.
  repeat match goal with |- context [if ?c then _ else _] => destruct c end;
    try reflexivity.
  - unfold Parser._parseOnlineData. destruct (Parser.sensorIds p); reflexivity.
  - unfold Parser._parseExperimentData. destruct (Parser.sensorIds p); reflexivity.
Qed.

Lemma atHeader_same (s : nat) (p1 p2 : Parser.LabdiscParser) (buf : list Z) :
  Parser.sensorIds p1 = Parser.sensorIds p2 ->
  Parser.packetCount p1 = Parser.packetCount p2 ->
  Parser.atHeader s p1 buf = Parser.atHeader s p2 buf.
Proof.
  destruct p1 as [b1 i1 c1], p2 as [b2 i2 c2]. simpl. intros -> ->. reflexivity.
Qed.

Lemma byteAt_app (buf y : list Z) (i : nat) :
  (i < length buf)%nat -> Parser.byteAt (buf ++ y) i = Parser.byteAt buf i.
Proof. intros Hi. unfold Parser.byteAt. apply app_nth1. exact Hi. Qed.

Lemma getPacketLength_app (t : Z) (buf y : list Z) :
  (4 <= length buf)%nat ->
  Parser._getPacketLength t (buf ++ y) = Parser._getPacketLength t buf.
Proof.
  intros Hl. unfold Parser._getPacketLength.
  destruct (Protocol.FIXED_LENGTHS t); [reflexivity|].
  destruct ((t =? Protocol.RSP.ONLINE_DATA) || (t =? Protocol.RSP.EXPERIMENT_DATA)
            || (t =? Protocol.RSP.CONFIG)); [|reflexivity].
  rewrite length_app.
  destruct (Nat.leb_spec 4 (length buf + length y)); [|lia].
  destruct (Nat.leb_spec 4 (length buf)); [|lia].
  rewrite byteAt_app by lia. reflexivity.
Qed.

Lemma atHeader_short (s : nat) (p : Parser.LabdiscParser) (buf : list Z) :
  (length buf < 4)%nat -> Parser.atHeader s p buf = Parser.Break (Parser.withBuffer p buf).
Proof.
  intros Hl. unfold Parser.atHeader.
  destruct (Nat.ltb_spec (length buf) 4); [reflexivity|lia].
Qed.

(** The outcomes of a pass that found a header. *)
Inductive atHeaderCase (s : nat) (p : Parser.LabdiscParser) (buf : list Z) : Parser.Outcome -> Prop :=
  | case_wait :
      atHeaderCase s p buf (Parser.Break (Parser.withBuffer p buf))
  | case_skip :
      (4 <= length buf)%nat ->
      atHeaderCase s p buf (Parser.Continue (Parser.withBuffer p (drop 1 buf)) [])
  | case_packet (len : nat) :
      (4 <= len <= length buf)%nat ->
      Parser._getPacketLength (Parser.byteAt buf 2) buf = Some (Z.of_nat len) ->
      Protocol.verifyChecksum (take len buf) = true ->
      atHeaderCase s p buf
        (Parser.Continue
           (Parser.withBuffer (fst (Parser._handlePacket p (Parser.byteAt buf 2) (take len buf)))
                              (drop len buf))
           (snd (Parser._handlePacket p (Parser.byteAt buf 2) (take len buf))))
  | case_resync (len : nat) :
      (4 <= len <= length buf)%nat ->
      Parser._getPacketLength (Parser.byteAt buf 2) buf = Some (Z.of_nat len) ->
      Protocol.verifyChecksum (take len buf) = false ->
      atHeaderCase s p buf
        (Parser.Continue
           (Parser.withBuffer p
              (if (30 <? s)%nat then drop 10 (drop 1 (take len buf) ++ drop len buf)
               else drop 1 (take len buf) ++ drop len buf))
           [badChecksum (take len buf)]).

Lemma atHeader_cases (s : nat) (p : Parser.LabdiscParser) (buf : list Z) :
  atHeaderCase s p buf (Parser.atHeader s p buf).
Proof.
  unfold Parser.atHeader.
  destruct (Nat.ltb_spec (length buf) 4) as [Hl|Hl]; [constructor|].
  destruct (Parser._getPacketLength (Parser.byteAt buf 2) buf) as [len|] eqn:El;
    [|constructor; exact Hl].
  destruct ((len <? 4) || (800 <? len)) eqn:Eb; [constructor; exact Hl|].
  apply orb_false_iff in Eb as [E4%Z.ltb_ge E8%Z.ltb_ge].
  destruct (Z.ltb_spec (Z.of_nat (length buf)) len) as [Hw|Hw]; [constructor|].
  assert (Hlen : len = Z.of_nat (Z.to_nat len)) by lia.
  destruct (Protocol.verifyChecksum (take (Z.to_nat len) buf)) eqn:Ec.
  - rewrite handlePacket_buffer.
    apply (case_packet s p buf (Z.to_nat len)); [lia|congruence|exact Ec].
  - replace (length (take (Z.to_nat len) buf)) with (Z.to_nat len)
      by (rewrite length_take; lia).
    pose proof (case_resync s p buf (Z.to_nat len)) as C.
    unfold badChecksum in C.
    replace (length (take (Z.to_nat len) buf)) with (Z.to_nat len) in C
      by (rewrite length_take; lia).
    assert (Hb : Parser.byteAt (take (Z.to_nat len) buf) 2 = Parser.byteAt buf 2).
    { unfold Parser.byteAt. rewrite <- (take_drop (Z.to_nat len) buf) at 2.
      symmetry. apply app_nth1. rewrite length_take. lia. }
    rewrite Hb in C. apply C; [lia|congruence|exact Ec].
Qed.

Lemma pushBytes_withBuffer (p : Parser.LabdiscParser) (b y : list Z) :
  pushBytes (Parser.withBuffer p b) y = Parser.withBuffer p (b ++ y).
Proof. reflexivity. Qed.

(** A pass that went on goes on the same way with more bytes behind. *)
Lemma atHeader_mono (p p' : Parser.LabdiscParser) (buf y : list Z) (evs : list Parser.Event) :
  Parser.atHeader 1 p buf = Parser.Continue p' evs ->
  Parser.atHeader 1 p (buf ++ y) = Parser.Continue (pushBytes p' y) evs.
Proof.
  unfold Parser.atHeader.
  destruct (Nat.ltb_spec (length buf) 4) as [Hl|Hl]; [discriminate|].
  rewrite length_app.
  destruct (Nat.ltb_spec (length buf + length y) 4) as [Hl'|_]; [lia|].
  rewrite (byteAt_app buf y 2) by lia.
  rewrite getPacketLength_app by exact Hl.
  assert (Hd1 : drop 1 (buf ++ y) = drop 1 buf ++ y) by (apply drop_app_le; lia).
  destruct (Parser._getPacketLength (Parser.byteAt buf 2) buf) as [len|] eqn:El.
  2:{ intros [= <- <-]. rewrite Hd1. reflexivity. }
  destruct ((len <? 4) || (800 <? len)) eqn:Eb.
  { intros [= <- <-]. rewrite Hd1. reflexivity. }
  apply orb_false_iff in Eb as [E4%Z.ltb_ge E8%Z.ltb_ge].
  destruct (Z.ltb_spec (Z.of_nat (length buf)) len) as [Hw|Hw]; [discriminate|].
  destruct (Z.ltb_spec (Z.of_nat (length buf + length y)%nat) len) as [Hw'|_]; [lia|].
  rewrite take_app_le by lia.
  rewrite (drop_app_le buf y) by lia.
  destruct (Protocol.verifyChecksum (take (Z.to_nat len) buf)).
  - rewrite !handlePacket_buffer. intros [= <- <-]. reflexivity.
  - change (30 <? 1)%nat with false. cbv iota.
    intros [= <- <-]. rewrite pushBytes_withBuffer, app_assoc. reflexivity.
Qed.

Lemma atHeader_safety (s : nat) (p : Parser.LabdiscParser) (buf : list Z) :
  (s <= 30)%nat -> Parser.atHeader s p buf = Parser.atHeader 1 p buf.
Proof.
  intros Hs. unfold Parser.atHeader.
  destruct (Nat.ltb_spec 30 s); [lia|]. reflexivity.
Qed.

Lemma atHeader_break_any (s s' : nat) (p q : Parser.LabdiscParser) (buf : list Z) :
  Parser.atHeader s p buf = Parser.Break q ->
  Parser.atHeader s' p buf = Parser.Break q /\ q = Parser.withBuffer p buf.
Proof.
  unfold Parser.atHeader.
  repeat match goal with
         | |- context [match ?c with _ => _ end] =>
             lazymatch c with
             | Parser._handlePacket _ _ _ => destruct c
             | (30 <? _)%nat => fail
             | _ => destruct c
             end
         end; try discriminate; intros [= <-]; auto.
Qed.

Lemma atHeader_continue_any (s s' : nat) (p p' : Parser.LabdiscParser) (buf : list Z)
    (evs : list Parser.Event) :
  Parser.atHeader s p buf = Parser.Continue p' evs ->
  exists p'' evs', Parser.atHeader s' p buf = Parser.Continue p'' evs'.
Proof.
  intros H. destruct (Parser.atHeader s' p buf) as [q|p'' evs'] eqn:E; [|eauto].
  apply (atHeader_break_any s' s) in E as [E _]. congruence.
Qed.

Lemma atHeader_shrinks (p p' : Parser.LabdiscParser) (buf : list Z) (evs : list Parser.Event) :
  Parser.atHeader 1 p buf = Parser.Continue p' evs ->
  (length (Parser.buffer p') < length buf)%nat.
Proof.
  intros H. pose proof (atHeader_cases 1 p buf) as C. rewrite H in C.
  inversion C; subst; simpl.
  - rewrite length_drop. lia.
  - rewrite length_drop. lia.
  - rewrite length_app, !length_drop, length_take. lia.
Qed.

Lemma sameFraming_refl (p : Parser.LabdiscParser) : sameFraming p p.
Proof. repeat split. Qed.

Lemma sameFraming_sym (p q : Parser.LabdiscParser) : sameFraming p q -> sameFraming q p.
Proof. intros (? & ? & ?). repeat split; auto. Qed.

Lemma sameFraming_trans (p q r : Parser.LabdiscParser) :
  sameFraming p q -> sameFraming q r -> sameFraming p r.
Proof. intros (? & ? & ?) (? & ? & ?). repeat split; congruence. Qed.

Lemma sameFraming_pushBytes (p q : Parser.LabdiscParser) (y : list Z) :
  sameFraming p q -> sameFraming (pushBytes p y) (pushBytes q y).
Proof.
  intros (Hi & Hc & Hn). repeat split; simpl; auto.
  rewrite (norm_app (Parser.buffer p)), (norm_app (Parser.buffer q)), Hn. reflexivity.
Qed.

Lemma loopBody_mono (p p' : Parser.LabdiscParser) (evs : list Parser.Event) (y : list Z) :
  Parser.loopBody 1 p = Parser.Continue p' evs ->
  Parser.loopBody 1 (pushBytes p y) = Parser.Continue (pushBytes p' y) evs.
Proof.
  unfold Parser.loopBody. cbv zeta. simpl (Parser.buffer (pushBytes p y)).
  destruct (Parser.findHeader (Parser.buffer p)) as [h|] eqn:Eh; [|discriminate].
  rewrite (findHeader_app_Some _ y _ Eh).
  pose proof (findHeader_bound _ _ Eh).
  rewrite drop_app_le by lia.
  intros H'. rewrite <- (atHeader_mono _ _ _ y _ H'). apply atHeader_same; reflexivity.
Qed.

Lemma loopBody_safety (s : nat) (p : Parser.LabdiscParser) :
  (s <= 30)%nat -> Parser.loopBody s p = Parser.loopBody 1 p.
Proof.
  intros Hs. unfold Parser.loopBody. cbv zeta.
  destruct (Parser.findHeader (Parser.buffer p)); [apply atHeader_safety; exact Hs|reflexivity].
Qed.

Lemma loopBody_break_any (s s' : nat) (p q : Parser.LabdiscParser) :
  Parser.loopBody s p = Parser.Break q -> Parser.loopBody s' p = Parser.Break q.
Proof.
  unfold Parser.loopBody. cbv zeta.
  destruct (Parser.findHeader (Parser.buffer p)); [|auto].
  intros H. apply (atHeader_break_any s s') in H as [H _]. exact H.
Qed.

Lemma loopBody_continue_any (s s' : nat) (p p' : Parser.LabdiscParser) (evs : list Parser.Event) :
  Parser.loopBody s p = Parser.Continue p' evs ->
  exists p'' evs', Parser.loopBody s' p = Parser.Continue p'' evs'.
Proof.
  intros H. destruct (Parser.loopBody s' p) as [q|p'' evs'] eqn:E; [|eauto].
  apply (loopBody_break_any s' s) in E. congruence.
Qed.

Lemma loopBody_shrinks (p p' : Parser.LabdiscParser) (evs : list Parser.Event) :
  Parser.loopBody 1 p = Parser.Continue p' evs ->
  (length (Parser.buffer p') < length (Parser.buffer p))%nat.
Proof.
  unfold Parser.loopBody. cbv zeta.
  destruct (Parser.findHeader (Parser.buffer p)) as [h|]; [|discriminate].
  intros H. apply atHeader_shrinks in H. rewrite length_drop in H. lia.
Qed.

(** A [break] leaves a parser that the framer cannot tell from the one
    it found. *)
Lemma loopBody_break_norm (s : nat) (p q : Parser.LabdiscParser) :
  Parser.loopBody s p = Parser.Break q -> sameFraming q p.
Proof.
  unfold Parser.loopBody. cbv zeta.
  destruct (Parser.findHeader (Parser.buffer p)) as [h|] eqn:Eh.
  - intros H. apply (atHeader_break_any s s) in H as [_ ->].
    repeat split. simpl. rewrite <- (norm_Some _ _ Eh). apply norm_idem.
  - intros [= <-]. repeat split. simpl.
    destruct (Nat.ltb_spec 200 (length (Parser.buffer p))); [|reflexivity].
    apply norm_suffix; [exact Eh|lia].
Qed.

Lemma loopBody_cong (p1 p2 p' : Parser.LabdiscParser) (evs : list Parser.Event) :
  sameFraming p1 p2 ->
  Parser.loopBody 1 p1 = Parser.Continue p' evs ->
  Parser.loopBody 1 p2 = Parser.Continue p' evs /\ (4 <= length (Parser.buffer p2))%nat.
Proof.
  intros (Hi & Hc & Hn). unfold Parser.loopBody. cbv zeta.
  destruct (Parser.findHeader (Parser.buffer p1)) as [h1|] eqn:E1; [|discriminate].
  destruct (norm_header _ _ _ Hn E1) as (h2 & E2 & Hd).
  rewrite E2, Hd. intros H. split.
  - rewrite <- H. apply atHeader_same; auto.
  - pose proof (atHeader_shrinks _ _ _ _ H) as Hs.
    destruct (Nat.lt_ge_cases (length (drop h1 (Parser.buffer p1))) 4) as [Hl|Hl].
    + rewrite atHeader_short in H by exact Hl. discriminate.
    + rewrite <- Hd, length_drop in Hl. lia.
Qed.

(** ** Runs of the loop *)

Lemma runs_det (p : Parser.LabdiscParser) k E q k' E' q' :
  runs p k E q -> runs p k' E' q' -> k = k' /\ E = E' /\ q = q'.
Proof.
  intros R. revert k' E' q'.
  induction R as [p Hl|p q Hl Hb|p p' evs k es q Hl Hc R IH]; intros k' E' q' R';
    inversion R'; subst; try lia; try congruence; auto.
  - split; [reflexivity|]. split; congruence.
  - assert (p'0 = p' /\ evs0 = evs) as [-> ->] by (split; congruence).
    destruct (IH _ _ _ H1) as (-> & -> & ->). auto.
Qed.

Lemma runs_total (p : Parser.LabdiscParser) : exists k E q, runs p k E q.
Proof.
  remember (length (Parser.buffer p)) as n eqn:Hn.
  revert p Hn. induction (lt_wf n) as [n _ IH]. intros p ->.
  destruct (Nat.lt_ge_cases (length (Parser.buffer p)) 4) as [Hl|Hl].
  { exists 0%nat, [], p. constructor. exact Hl. }
  destruct (Parser.loopBody 1 p) as [q|p' evs] eqn:E.
  { exists 0%nat, [], q. apply runs_break; assumption. }
  destruct (IH _ (loopBody_shrinks _ _ _ E) p' eq_refl) as (k & es & q & R).
  exists (S k), (evs ++ es), q. eapply runs_continue; eassumption.
Qed.

Lemma runs_cong (p1 : Parser.LabdiscParser) k E q1 :
  runs p1 k E q1 -> forall p2, sameFraming p1 p2 ->
  exists q2, runs p2 k E q2 /\ sameFraming q1 q2.
Proof.
  assert (Stop : forall a b c, sameFraming a b -> sameFraming c a ->
            ((length (Parser.buffer a) < 4)%nat \/ exists q, Parser.loopBody 1 a = Parser.Break q) ->
            exists q2, runs b 0 [] q2 /\ sameFraming c q2).
  { intros a b c Sab Sc Hstop.
    destruct (Nat.lt_ge_cases (length (Parser.buffer b)) 4) as [Hl2|Hl2].
    { exists b. split; [constructor; exact Hl2|]. eapply sameFraming_trans; eassumption. }
    destruct (Parser.loopBody 1 b) as [q2|p' evs] eqn:E2.
    { exists q2. split; [apply runs_break; assumption|].
      apply loopBody_break_norm in E2. apply sameFraming_sym in E2.
      eapply sameFraming_trans; [exact Sc|]. eapply sameFraming_trans; eassumption. }
    exfalso. destruct (loopBody_cong _ _ _ _ (sameFraming_sym _ _ Sab) E2) as [E1 Hl1].
    destruct Hstop as [Hs|[q Hq]]; [lia|congruence]. }
  induction 1 as [p Hl|p q Hl Hb|p p' evs k es q Hl Hc R IH]; intros p2 S12.
  - apply (Stop p p2 p S12 (sameFraming_refl p)). left. exact Hl.
  - apply (Stop p p2 q S12 (loopBody_break_norm _ _ _ Hb)). right. eauto.
  - destruct (loopBody_cong _ _ _ _ S12 Hc) as [E2 Hl2].
    exists q. split; [|apply sameFraming_refl].
    eapply runs_continue; eassumption.
Qed.

(** A run goes on where it stopped once more bytes arrive. *)
Lemma runs_ext (p : Parser.LabdiscParser) k E q :
  runs p k E q -> forall y j E2 q3, runs (pushBytes q y) j E2 q3 ->
  exists q3', runs (pushBytes p y) (k + j) (E ++ E2) q3' /\ sameFraming q3 q3'.
Proof.
  induction 1 as [p Hl|p q Hl Hb|p p' evs k es q Hl Hc R IH]; intros y j E2 q3 R3.
  - exists q3. split; [exact R3|apply sameFraming_refl].
  - apply (runs_cong _ _ _ _ R3).
    apply sameFraming_pushBytes. apply (loopBody_break_norm _ _ _ Hb).
  - destruct (IH y j E2 q3 R3) as (q3' & R' & S').
    exists q3'. split; [|exact S'].
    rewrite <- app_assoc. change (S k + j)%nat with (S (k + j)).
    eapply runs_continue; [|apply loopBody_mono; exact Hc|exact R'].
    simpl. rewrite length_app. lia.
Qed.

(** The loop of [_processBuffer] makes the run when it takes at most 30
    passes. *)
Lemma loop_runs (p : Parser.LabdiscParser) k E q :
  runs p k E q -> forall s fuel, (s + k <= 30)%nat -> (k < fuel)%nat ->
  Parser.loop fuel s p = (q, E).
Proof.
  induction 1 as [p Hl|p q Hl Hb|p p' evs k es q Hl Hc R IH]; intros s fuel Hs Hf;
    (destruct fuel as [|fuel]; [lia|]); cbn [Parser.loop].
  - destruct (Nat.leb_spec 4 (length (Parser.buffer p))); [lia|]. reflexivity.
  - destruct (Nat.leb_spec 4 (length (Parser.buffer p))); [|lia].
    destruct (Nat.ltb_spec s 50); [|lia]. cbn [andb].
    rewrite (loopBody_break_any 1 (S s) _ _ Hb). reflexivity.
  - destruct (Nat.leb_spec 4 (length (Parser.buffer p))); [|lia].
    destruct (Nat.ltb_spec s 50); [|lia]. cbn [andb].
    rewrite loopBody_safety by lia. rewrite Hc.
    rewrite (IH (S s) fuel) by lia. reflexivity.
Qed.

Lemma passes_runs (p : Parser.LabdiscParser) k E q :
  runs p k E q -> forall s fuel, (s <= 30)%nat -> (30 - s < fuel)%nat ->
  (passesFrom fuel s p <= 30 - s)%nat -> (s + k <= 30)%nat.
Proof.
  induction 1 as [p Hl|p q Hl Hb|p p' evs k es q Hl Hc R IH]; intros s fuel Hs Hf Hp;
    [lia|lia|].
  destruct fuel as [|fuel]; [lia|]. cbn [passesFrom] in Hp.
  destruct (Nat.leb_spec 4 (length (Parser.buffer p))); [|lia].
  destruct (Nat.ltb_spec s 50); [|lia]. cbn [andb] in Hp.
  destruct (Nat.eq_dec s 30%nat) as [->|Hne].
  - destruct (loopBody_continue_any 1%nat 31%nat _ _ _ Hc) as (p'' & evs' & E'').
    rewrite E'' in Hp. simpl in Hp. lia.
  - rewrite loopBody_safety in Hp by lia. rewrite Hc in Hp.
    specialize (IH (S s) fuel). lia.
Qed.

(** ** Chunks *)

Lemma feedAll_app (p : Parser.LabdiscParser) (c1 c2 : list (list Z)) :
  Parser.feedAll p (c1 ++ c2) =
  let '(p', e1) := Parser.feedAll p c1 in
  let '(p'', e2) := Parser.feedAll p' c2 in (p'', e1 ++ e2).
Proof.
  revert p. induction c1 as [|c c1 IH]; intros p.
  - simpl. destruct (Parser.feedAll p c2). reflexivity.
  - simpl. destruct (Parser.feed p c) as [p1 e]. rewrite IH.
    destruct (Parser.feedAll p1 c1) as [p2 e1].
    destruct (Parser.feedAll p2 c2) as [p3 e2]. rewrite app_assoc. reflexivity.
Qed.

Lemma pushBytes_twice (p : Parser.LabdiscParser) (a c : list Z) :
  pushBytes (pushBytes p a) c = pushBytes p (a ++ c).
Proof. unfold pushBytes. simpl. rewrite app_assoc. reflexivity. Qed.

Lemma chunked_runs (p : Parser.LabdiscParser) (chunks : list (list Z)) :
  Parser.buffer p = [] ->
  forall K E Q, runs (pushBytes p (concat chunks)) K E Q -> (K <= 30)%nat ->
  exists Q', Parser.feedAll p chunks = (Q', E) /\ sameFraming Q' Q.
Proof.
  intros Hb. induction chunks as [|c chunks IH] using rev_ind; intros K E Q R HK.
  - assert (Hp : pushBytes p (concat []) = p).
    { destruct p as [b i n]. simpl in Hb. subst. reflexivity. }
    rewrite Hp in R.
    assert (R0 : runs p 0 [] p) by (constructor; rewrite Hb; simpl; lia).
    destruct (runs_det _ _ _ _ _ _ _ R R0) as (-> & -> & ->).
    exists p. split; [reflexivity|apply sameFraming_refl].
  - rewrite concat_app in R. simpl in R. rewrite app_nil_r in R.
    destruct (runs_total (pushBytes p (concat chunks))) as (Ka & Ea & Qa & Ra).
    destruct (runs_total (pushBytes Qa c)) as (j & E2 & Q3 & R3).
    destruct (runs_ext _ _ _ _ Ra c j E2 Q3 R3) as (Q3' & R' & S3).
    rewrite pushBytes_twice in R'.
    destruct (runs_det _ _ _ _ _ _ _ R R') as (-> & -> & ->).
    destruct (IH Ka Ea Qa Ra) as (Qa' & Hfa & Sa); [lia|].
    destruct (runs_cong _ _ _ _ R3 (pushBytes Qa' c)) as (Q3'' & R'' & S'').
    { apply sameFraming_pushBytes, sameFraming_sym, Sa. }
    rewrite feedAll_app, Hfa. simpl.
    unfold Parser.feed, Parser._processBuffer.
    change (Parser.withBuffer Qa' (Parser.buffer Qa' ++ c)) with (pushBytes Qa' c).
    rewrite (loop_runs _ _ _ _ R'' 0 50) by lia.
    exists Q3''. split; [rewrite app_nil_r; reflexivity|].
    eapply sameFraming_trans; [apply sameFraming_sym; exact S''|exact S3].
Qed.

(** Any cutting of a stream into chunks: when the bulk call takes at most
    30 passes, the chunks fed in turn make the callbacks of the bulk call
    and leave a parser the framer cannot tell from the bulk call's. *)
Lemma chunked_feed_matches_bulk (p : Parser.LabdiscParser) (chunks : list (list Z)) :
  Parser.buffer p = [] ->
  (passes p (concat chunks) <= 30)%nat ->
  snd (Parser.feedAll p chunks) = snd (Parser.feed p (concat chunks)) /\
  sameFraming (fst (Parser.feedAll p chunks)) (fst (Parser.feed p (concat chunks))).
Proof.
  intros Hb Hp.
  destruct (runs_total (pushBytes p (concat chunks))) as (K & E & Q & R).
  assert (HK : (0 + K <= 30)%nat) by (apply (passes_runs _ _ _ _ R 0 50); [lia|lia|exact Hp]).
  destruct (chunked_runs p chunks Hb K E Q R) as (Q' & Hf & S); [lia|].
  unfold Parser.feed, Parser._processBuffer.
  change (Parser.withBuffer p (Parser.buffer p ++ concat chunks)) with (pushBytes p (concat chunks)).
  rewrite (loop_runs _ _ _ _ R 0 50) by lia. rewrite Hf. split; [reflexivity|exact S].
Qed.

(** ** Resynchronisation after a checksum failure *)

Lemma framed_inv (pkt : list Z) :
  framed pkt = true ->
  (exists t rest, pkt = 0x2E :: 0x69 :: t :: rest) /\
  Parser._getPacketLength (Parser.byteAt pkt 2) pkt = Some (Z.of_nat (length pkt)) /\
  (4 <= length pkt <= 800)%nat.
Proof.
  destruct pkt as [|a [|b [|t rest]]]; try discriminate.
  unfold framed. change (Parser.byteAt (a :: b :: t :: rest) 2) with t.
  destruct (Parser._getPacketLength t (a :: b :: t :: rest)) as [len|];
    [|rewrite andb_false_r; discriminate].
  intros H. apply andb_true_iff in H as [Hab Hl].
  apply andb_true_iff in Hab as [->%Z.eqb_eq ->%Z.eqb_eq].
  apply andb_true_iff in Hl as [Hl H8%Z.leb_le].
  apply andb_true_iff in Hl as [->%Z.eqb_eq H4%Z.leb_le].
  split; [eauto|]. split; [reflexivity|lia].
Qed.

Lemma withBuffer_self (p : Parser.LabdiscParser) :
  Parser.withBuffer p (Parser.buffer p) = p.
Proof. destruct p. reflexivity. Qed.

(** The pass over a buffer that starts with a framed packet. *)
Lemma loopBody_framed (s : nat) (p : Parser.LabdiscParser) (pkt rest : list Z) :
  framed pkt = true ->
  Parser.loopBody s (Parser.withBuffer p (pkt ++ rest)) =
  if Protocol.verifyChecksum pkt
  then Parser.Continue
         (Parser.withBuffer (fst (Parser._handlePacket p (Parser.byteAt pkt 2) pkt)) rest)
         (snd (Parser._handlePacket p (Parser.byteAt pkt 2) pkt))
  else Parser.Continue
         (Parser.withBuffer p (if (30 <? s)%nat then drop 10 (drop 1 pkt ++ rest)
                               else drop 1 pkt ++ rest))
         [badChecksum pkt].
Proof.
  intros Hf. destruct (framed_inv pkt Hf) as ((t & tl & Hp) & Hlen & Hb).
  unfold Parser.loopBody. cbv zeta. simpl Parser.buffer.
  replace (Parser.findHeader (pkt ++ rest)) with (Some 0%nat) by (rewrite Hp; reflexivity).
  rewrite drop_0. unfold Parser.atHeader.
  rewrite length_app.
  destruct (Nat.ltb_spec (length pkt + length rest) 4); [lia|].
  rewrite (byteAt_app pkt rest 2) by lia.
  rewrite getPacketLength_app by lia. rewrite Hlen.
  destruct (Z.ltb_spec (Z.of_nat (length pkt)) 4); [lia|].
  destruct (Z.ltb_spec 800 (Z.of_nat (length pkt))); [lia|]. cbn [orb].
  destruct (Z.ltb_spec (Z.of_nat (length pkt + length rest)%nat) (Z.of_nat (length pkt))); [lia|].
  rewrite Nat2Z.id, take_app_length, drop_app_length.
  destruct (Protocol.verifyChecksum pkt); [|reflexivity].
  change (Parser.withBuffer (Parser.withBuffer p (pkt ++ rest)) rest)
    with (Parser.withBuffer p rest).
  rewrite handlePacket_buffer. reflexivity.
Qed.

(** One byte changed to another value breaks a good checksum. *)
Lemma corrupted_checksum (P : list Z) (i : nat) (x v : Z) :
  P !! i = Some x -> 0 <= x < 256 -> 0 <= v < 256 -> v <> x ->
  Protocol.verifyChecksum P = true ->
  Protocol.verifyChecksum (<[i := v]> P) = false.
Proof.
  intros Hi Hx Hv Hne. rewrite !Protocol.verifyChecksum_mod.
  pose proof (take_drop_middle P i x Hi) as HP.
  assert (Hs : Protocol.byteSum (<[i := v]> P) = Protocol.byteSum P + (v - x)).
  { rewrite <- HP at 1 2.
    rewrite insert_app_r_alt by (rewrite length_take; lia).
    replace (i - length (take i P))%nat with 0%nat
      by (rewrite length_take; apply lookup_lt_Some in Hi; lia).
    change (<[0%nat:=v]> (x :: drop (S i) P)) with (v :: drop (S i) P).
    rewrite !Protocol.byteSum_app, !Protocol.byteSum_cons. lia. }
  rewrite Hs. intros H0%Z.eqb_eq. apply Z.eqb_neq. intros H1.
  rewrite Z.add_mod, H0, Z.add_0_l, Z.mod_mod in H1 by lia.
  apply Z.mod_divide in H1; [|lia]. destruct H1 as [k Hk]. lia.
Qed.

(** The framer with an empty buffer on one valid packet. *)
Lemma feed_valid_packet (p : Parser.LabdiscParser) (N : list Z) :
  Parser.buffer p = [] -> framed N = true -> Protocol.verifyChecksum N = true ->
  Parser.feed p N = Parser._handlePacket p (Parser.byteAt N 2) N.
Proof.
  intros Hb HfN HcN. unfold Parser.feed, Parser._processBuffer. rewrite Hb. cbn [app].
  pose proof (framed_inv N HfN) as (_ & _ & HlN).
  pose proof (loopBody_framed 1 p N [] HfN) as L. rewrite HcN, app_nil_r in L.
  pose proof (handlePacket_keeps_buffer p (Parser.byteAt N 2) N) as Hk.
  destruct (Parser._handlePacket p (Parser.byteAt N 2) N) as [q evs] eqn:Eh.
  cbn [fst snd] in L, Hk.
  assert (Hq : Parser.withBuffer q [] = q) by (rewrite <- Hb, <- Hk; apply withBuffer_self).
  rewrite Hq in L.
  rewrite (loop_runs _ 1 (evs ++ []) q); [rewrite app_nil_r; reflexivity| |lia|lia].
  eapply runs_continue; [simpl; lia|exact L|].
  apply runs_short. rewrite Hk, Hb. simpl. lia.
Qed.

(** The framer with an empty buffer on a framed packet of bad checksum
    that holds no header after its first byte, and a valid packet behind. *)
Lemma feed_resync (p : Parser.LabdiscParser) (B N : list Z) :
  Parser.buffer p = [] ->
  framed B = true -> Protocol.verifyChecksum B = false ->
  Parser.findHeader (drop 1 B) = None ->
  framed N = true -> Protocol.verifyChecksum N = true ->
  Parser.feed p (B ++ N) =
  (fst (Parser.feed p N), badChecksum B :: snd (Parser.feed p N)).
Proof.
  intros Hb HfB HcB HhB HfN HcN.
  rewrite (feed_valid_packet p N Hb HfN HcN).
  unfold Parser.feed, Parser._processBuffer. rewrite Hb. cbn [app].
  pose proof (framed_inv B HfB) as (_ & _ & HlB).
  pose proof (framed_inv N HfN) as ((t & tl & HN) & _ & HlN).
  pose proof (loopBody_framed 1 p B N HfB) as L1. rewrite HcB in L1.
  change (30 <? 1)%nat with false in L1. cbv iota in L1.
  pose proof (loopBody_framed 1 p N [] HfN) as L2. rewrite HcN, app_nil_r in L2.
  assert (L2' : Parser.loopBody 1 (Parser.withBuffer p (drop 1 B ++ N)) =
                Parser.loopBody 1 (Parser.withBuffer p N)).
  { unfold Parser.loopBody. cbv zeta. simpl Parser.buffer.
    rewrite HN at 1 2. rewrite (findHeader_None_app _ _ HhB), <- HN.
    rewrite drop_app_length.
    replace (Parser.findHeader N) with (Some 0%nat) by (rewrite HN; reflexivity).
    rewrite drop_0. apply atHeader_same; reflexivity. }
  pose proof (handlePacket_keeps_buffer p (Parser.byteAt N 2) N) as Hk.
  destruct (Parser._handlePacket p (Parser.byteAt N 2) N) as [q evs] eqn:Eh.
  cbn [fst snd] in L2, Hk |- *.
  assert (Hq : Parser.withBuffer q [] = q) by (rewrite <- Hb, <- Hk; apply withBuffer_self).
  rewrite Hq in L2. rewrite <- L2' in L2.
  rewrite (loop_runs _ 2 ([badChecksum B] ++ evs ++ []) q);
    [rewrite app_nil_r; reflexivity| |lia|lia].
  eapply runs_continue; [simpl; rewrite length_app; lia|exact L1|].
  eapply runs_continue; [simpl; rewrite length_app; lia|exact L2|].
  apply runs_short. rewrite Hk, Hb. simpl. lia.
Qed.

(** A valid online-data packet of 9 bytes, and a valid sensor-id packet. *)
Definition shortOnline : list Z := [0x2E; 0x69; 0x81; 9; 0x01; 0x07; 0x02; 0x00; 0xD5].

Definition idsPacket : list Z :=
  [0x2E; 0x69; 0x82; 30; 6; 0; 0; 0; 0; 0; 0; 0; 0; 0; 0; 0; 0; 0; 0; 0; 0xC3].

(** C6, as stated, fails when the corrupted byte is the length byte: the
    framer waits for 200 bytes, logs nothing, and the valid packet behind
    stays in the buffer. *)
Lemma corrupted_length_byte_waits :
  framed shortOnline = true /\ Protocol.verifyChecksum shortOnline = true /\
  framed idsPacket = true /\ Protocol.verifyChecksum idsPacket = true /\
  List.filter Parser.isDataEvent (snd (Parser.feed Parser.new idsPacket))
    = [Parser.OnSensorIds [30; 6]] /\
  Parser.feed Parser.new (<[3%nat := 200]> shortOnline ++ idsPacket)
    = (Parser.mkParser (<[3%nat := 200]> shortOnline ++ idsPacket) [] 0, []).
Proof. repeat split; vm_compute; reflexivity. Qed.

(** C6, amended. A valid packet has one byte changed to another value,
    the header, the type and the declared length staying those of a packet
    of its size, and no header pair after its first byte; a valid packet
    follows at once. Fed to a framer whose buffer is empty, the corrupted
    packet gives the "Bad checksum, resync" warning and no other event, and
    the packet behind it is handled as when it is fed alone, its events
    following the warning. *)
Theorem corrupted_packet_resync (p : Parser.LabdiscParser) (P N : list Z)
    (i : nat) (x v : Z) :
  Parser.buffer p = [] ->
  framed P = true -> Protocol.verifyChecksum P = true ->
  P !! i = Some x -> 0 <= x < 256 -> 0 <= v < 256 -> v <> x ->
  framed (<[i := v]> P) = true ->
  Parser.findHeader (drop 1 (<[i := v]> P)) = None ->
  framed N = true -> Protocol.verifyChecksum N = true ->
  Parser.feed p N = Parser._handlePacket p (Parser.byteAt N 2) N /\
  Parser.feed p (<[i := v]> P ++ N) =
    (fst (Parser.feed p N), badChecksum (<[i := v]> P) :: snd (Parser.feed p N)).
Proof.
  intros Hb HfP HcP Hi Hx Hv Hne HfB HhB HfN HcN. split.
  - apply feed_valid_packet; assumption.
  - apply feed_resync; try assumption.
    eapply corrupted_checksum; eassumption.
Qed.

Lemma corrupted_packet_resync_witness :
  Parser.feed Parser.new (<[5%nat := 8]> shortOnline ++ idsPacket) =
    (Parser.mkParser [] [30; 6] 0,
     [ Parser.OnLog "warn" "Bad checksum, resync (type=0x81, 9b)";
       Parser.OnLog "rx" "SensorIDs: [30,6] (2 sensores)";
       Parser.OnLog "info" "Temp Amb(30), Humedad(6)";
       Parser.OnSensorIds [30; 6] ]).
Proof.
  pose proof (proj2 (corrupted_packet_resync Parser.new shortOnline idsPacket 5 7 8
    eq_refl eq_refl eq_refl eq_refl ltac:(lia) ltac:(lia) ltac:(lia)
    eq_refl eq_refl eq_refl eq_refl)) as H.
  etransitivity; [exact H|]. vm_compute. reflexivity.
Defined.

(** ** One byte at a time *)

(** Fifty-one sensor-id packets in a row. *)
Definition fiftyOnePackets : list Z := concat (replicate 51 idsPacket).

(** C7, as stated, fails on a stream of 51 packets: the loop of one
    [feed] call stops after 50 passes, so the bulk call leaves the last
    packet in the buffer; fed a byte at a time every packet is handled. *)
Lemma bulk_feed_stops_after_50 :
  List.filter Parser.isDataEvent
      (snd (Parser.feedAll Parser.new (map (fun b => [b]) fiftyOnePackets)))
    = replicate 51 (Parser.OnSensorIds [30; 6]) /\
  List.filter Parser.isDataEvent (snd (Parser.feed Parser.new fiftyOnePackets))
    = replicate 50 (Parser.OnSensorIds [30; 6]) /\
  Parser.buffer (fst (Parser.feed Parser.new fiftyOnePackets)) = idsPacket.
Proof. repeat split; vm_compute; reflexivity. Qed.

(** C7, amended. When the bulk [feed] call takes at most 30 passes of
    its loop, feeding the stream one byte at a time to a framer whose
    buffer is empty makes the same callbacks in the same order as feeding
    it whole, the log lines included, and leaves the same sensor ids and
    packet count. *)
Theorem bytewise_feed_matches_bulk (p : Parser.LabdiscParser) (stream : list Z) :
  Parser.buffer p = [] ->
  (passes p stream <= 30)%nat ->
  snd (Parser.feedAll p (map (fun b => [b]) stream)) = snd (Parser.feed p stream) /\
  Parser.sensorIds (fst (Parser.feedAll p (map (fun b => [b]) stream)))
    = Parser.sensorIds (fst (Parser.feed p stream)) /\
  Parser.packetCount (fst (Parser.feedAll p (map (fun b => [b]) stream)))
    = Parser.packetCount (fst (Parser.feed p stream)).
Proof.
  intros Hb Hp.
  assert (Hc : concat (map (fun b => [b]) stream) = stream).
  { clear. induction stream as [|b s IH]; [reflexivity|]. simpl. rewrite IH. reflexivity. }
  pose proof (chunked_feed_matches_bulk p (map (fun b => [b]) stream) Hb) as H.
  rewrite Hc in H. destruct (H Hp) as [He (Hi & Hn & _)]. auto.
Qed.

(** A stream with noise before, between and after three packets, the
    second of bad checksum. *)
Definition noisyStream : list Z :=
  [0x00; 0x2E] ++ idsPacket ++ [0x2E; 0x69; 0x55] ++ <[5%nat := 8]> shortOnline
  ++ shortOnline ++ [0x2E].

Lemma bytewise_feed_matches_bulk_witness :
  (passes Parser.new noisyStream <= 30)%nat /\
  snd (Parser.feedAll Parser.new (map (fun b => [b]) noisyStream))
    = snd (Parser.feed Parser.new noisyStream) /\
  List.filter Parser.isDataEvent (snd (Parser.feed Parser.new noisyStream))
    = [Parser.OnSensorIds [30; 6];
       Parser.OnData (Parser.mkSample
         (<[30 := Parser.mkReading 263 (Some 26.3%float) false Parser.NoGPS]>
          (<[6 := Parser.mkReading 512 (Some 51.2%float) false Parser.NoGPS]> ∅)) None) 1].
Proof.
  assert (Hp : (passes Parser.new noisyStream <= 30)%nat)
    by (apply Nat.leb_le; vm_compute; reflexivity).
  split; [exact Hp|]. split.
  - exact (proj1 (bytewise_feed_matches_bulk Parser.new noisyStream eq_refl Hp)).
  - vm_compute. reflexivity.
Defined.

(** * Further properties of the protocol helpers, the framer and the
    formatter *)

(** ** protocol.js: the checksum *)

Lemma byteSum_insert (pkt : list Z) (i : nat) (x v : Z) :
  pkt !! i = Some x ->
  Protocol.byteSum (<[i := v]> pkt) = Protocol.byteSum pkt + (v - x).
Proof.
  intros Hi. pose proof (take_drop_middle pkt i x Hi) as HP.
  rewrite <- HP at 1 2.
  rewrite insert_app_r_alt by (rewrite length_take; lia).
  replace (i - length (take i pkt))%nat with 0%nat
    by (rewrite length_take; apply lookup_lt_Some in Hi; lia).
  change (<[0%nat:=v]> (x :: drop (S i) pkt)) with (v :: drop (S i) pkt).
  rewrite !Protocol.byteSum_app, !Protocol.byteSum_cons. lia.
Qed.

(** A packet that passes [verifyChecksum] and has one element replaced
    passes again exactly when the new value differs from the old one by a
    multiple of 256: between byte values every change of one byte is
    detected. *)
Theorem verifyChecksum_after_byte_change (pkt : list Z) (i : nat) (x v : Z) :
  pkt !! i = Some x ->
  Protocol.verifyChecksum pkt = true ->
  (Protocol.verifyChecksum (<[i := v]> pkt) = true <-> (v - x) mod 256 = 0).
Proof.
  intros Hi. rewrite !Protocol.verifyChecksum_mod, (byteSum_insert pkt i x v Hi).
  intros H0%Z.eqb_eq. rewrite Z.eqb_eq.
  rewrite Z.add_mod, H0, Z.add_0_l, Z.mod_mod by lia. reflexivity.
Qed.

Lemma verifyChecksum_after_byte_change_witness :
  Protocol.verifyChecksum (<[2%nat := 0x23]> [0x47; 0x14; 0x22; 0x83]) = true <->
  (0x23 - 0x22) mod 256 = 0.
Proof.
  apply (verifyChecksum_after_byte_change [0x47; 0x14; 0x22; 0x83] 2 0x22 0x23);
    reflexivity.
Defined.

Lemma byteSum_Permutation (a b : list Z) : a ≡ₚ b -> Protocol.byteSum a = Protocol.byteSum b.
Proof.
  induction 1 as [|x a b _ IH|x y a|a b c _ IH1 _ IH2].
  - reflexivity.
  - rewrite !Protocol.byteSum_cons, IH. reflexivity.
  - rewrite !Protocol.byteSum_cons. lia.
  - congruence.
Qed.

(** The checksum does not see the order of the bytes: a packet and any
    rearrangement of it get the same checksum and the same verdict. *)
Theorem checksum_ignores_order (a b : list Z) :
  a ≡ₚ b ->
  Protocol.calcChecksum a = Protocol.calcChecksum b /\
  Protocol.verifyChecksum a = Protocol.verifyChecksum b.
Proof.
  intros H. unfold Protocol.calcChecksum, Protocol.verifyChecksum.
  rewrite (byteSum_Permutation a b H). auto.
Qed.

Lemma checksum_ignores_order_witness :
  Protocol.calcChecksum [0x47; 0x14; 0x22] = Protocol.calcChecksum [0x22; 0x47; 0x14] /\
  Protocol.verifyChecksum [0x47; 0x14; 0x22] = Protocol.verifyChecksum [0x22; 0x47; 0x14].
Proof.
  apply (checksum_ignores_order [0x47; 0x14; 0x22] [0x22; 0x47; 0x14]).
  symmetry. apply (Permutation_cons_append [0x47; 0x14] 0x22).
Defined.

(** ** parser.js: the header search and the loop of the framer *)

(** A header pair at index [j] of a buffer. *)
Definition headerAt (buf : list Z) (j : nat) : Prop :=
  buf !! j = Some 0x2E /\ buf !! S j = Some 0x69.

(** The header search returns the index of the first header pair, and
    [None] only for a buffer that holds no pair. *)
Theorem findHeader_first (buf : list Z) :
  match Parser.findHeader buf with
  | Some i => headerAt buf i /\ forall j, (j < i)%nat -> ~ headerAt buf j
  | None => forall j, ~ headerAt buf j
  end.
Proof.
  induction buf as [|a [|c rest] IH].
  - intros j [H _]. rewrite lookup_nil in H. discriminate.
  - intros [|j] [H1 H2]; simpl in H1, H2; discriminate.
  - rewrite findHeader_cons2.
    destruct ((a =? 46) && (c =? 105)) eqn:E.
    + apply andb_true_iff in E as [->%Z.eqb_eq ->%Z.eqb_eq].
      split; [split; reflexivity|]. intros j Hj. lia.
    + destruct (Parser.findHeader (c :: rest)) as [i|]; simpl.
      * destruct IH as [[H1 H2] Hmin]. split; [split; assumption|].
        intros [|j] Hj [G1 G2].
        -- simpl in G1, G2. injection G1 as ->. injection G2 as ->. discriminate.
        -- apply (Hmin j); [lia|]. split; assumption.
      * intros [|j] [G1 G2].
        -- simpl in G1, G2. injection G1 as ->. injection G2 as ->. discriminate.
        -- apply (IH j). split; assumption.
Qed.

(** Bytes without a header pair: [feed] makes no callback and keeps the
    ids and the packet count; the buffer is kept whole up to 200 bytes, and
    cut to its last two bytes beyond. *)
Theorem feed_without_header (p : Parser.LabdiscParser) (bytes : list Z) :
  Parser.findHeader (Parser.buffer p ++ bytes) = None ->
  Parser.feed p bytes =
    (Parser.withBuffer p
       (if (200 <? length (Parser.buffer p ++ bytes))%nat
        then drop (length (Parser.buffer p ++ bytes) - 2) (Parser.buffer p ++ bytes)
        else Parser.buffer p ++ bytes), []) /\
  (length (Parser.buffer (fst (Parser.feed p bytes))) <= 200)%nat.
Proof.
  intros Hn.
  assert (E : Parser.feed p bytes =
    (Parser.withBuffer p
       (if (200 <? length (Parser.buffer p ++ bytes))%nat
        then drop (length (Parser.buffer p ++ bytes) - 2) (Parser.buffer p ++ bytes)
        else Parser.buffer p ++ bytes), [])).
  { unfold Parser.feed, Parser._processBuffer. cbn [Parser.loop].
    cbn [Parser.buffer Parser.withBuffer].
    destruct (Nat.leb_spec 4 (length (Parser.buffer p ++ bytes))) as [H4|H4]; cbn [andb].
    - change (0 <? 50)%nat with true. cbv iota.
      unfold Parser.loopBody. cbv zeta. cbn [Parser.buffer Parser.withBuffer].
      rewrite Hn. reflexivity.
    - destruct (Nat.ltb_spec 200 (length (Parser.buffer p ++ bytes))); [lia|]. reflexivity. }
  split; [exact E|]. rewrite E. cbn [fst Parser.buffer Parser.withBuffer].
  destruct (Nat.ltb_spec 200 (length (Parser.buffer p ++ bytes))); [|lia].
  rewrite length_drop. lia.
Qed.

Lemma feed_without_header_witness :
  Parser.feed Parser.new (replicate 300 0x2E%Z) = (Parser.mkParser [0x2E; 0x2E] [] 0, []) /\
  (length (Parser.buffer (fst (Parser.feed Parser.new (replicate 300 0x2E%Z)))) <= 200)%nat.
Proof.
  pose proof (feed_without_header Parser.new (replicate 300 0x2E%Z)) as H.
  destruct H as [H1 H2]; [vm_compute; reflexivity|].
  split; [|exact H2]. etransitivity; [exact H1|]. vm_compute. reflexivity.
Defined.

(** The packets handled one after the other, the callbacks in order. *)
Fixpoint handleAll (p : Parser.LabdiscParser) (pkts : list (list Z))
  : Parser.LabdiscParser * list Parser.Event :=
  match pkts with
  | [] => (p, [])
  | pkt :: rest =>
      let '(p', evs) := Parser._handlePacket p (Parser.byteAt pkt 2) pkt in
      let '(p'', evs') := handleAll p' rest in
      (p'', evs ++ evs')
  end.

Lemma loop_valid_packets (pkts : list (list Z)) :
  forall (p : Parser.LabdiscParser) (s fuel : nat),
  Parser.buffer p = [] ->
  Forall (fun pkt => framed pkt = true /\ Protocol.verifyChecksum pkt = true) pkts ->
  (s + length pkts <= 50)%nat -> (length pkts <= fuel)%nat ->
  Parser.loop fuel s (Parser.withBuffer p (concat pkts)) = handleAll p pkts.
Proof.
  induction pkts as [|pkt rest IH]; intros p s fuel Hb Hall Hs Hf.
  - assert (E0 : Parser.withBuffer p [] = p) by (rewrite <- Hb; apply withBuffer_self).
    cbn [concat]. rewrite E0.
    destruct fuel; [reflexivity|]. cbn [Parser.loop]. rewrite Hb. reflexivity.
  - apply Forall_cons in Hall as [[Hfr Hck] Hall].
    destruct fuel as [|fuel]; [simpl in Hf; lia|].
    pose proof (framed_inv pkt Hfr) as (_ & _ & Hl).
    cbn [Parser.loop concat handleAll]. cbn [Parser.buffer Parser.withBuffer].
    rewrite length_app.
    destruct (Nat.leb_spec 4 (length pkt + length (concat rest))); [|lia].
    destruct (Nat.ltb_spec s 50); [|simpl in Hs; lia]. cbn [andb].
    rewrite (loopBody_framed (S s) p pkt (concat rest) Hfr), Hck.
    pose proof (handlePacket_keeps_buffer p (Parser.byteAt pkt 2) pkt) as Hk.
    destruct (Parser._handlePacket p (Parser.byteAt pkt 2) pkt) as [p' evs].
    cbn [fst snd] in Hk |- *.
    rewrite (IH p' (S s) fuel); [reflexivity|congruence|assumption|simpl in Hs; lia|simpl in Hf; lia].
Qed.

Lemma feed_handles_all (p : Parser.LabdiscParser) (pkts : list (list Z)) :
  Parser.buffer p = [] ->
  Forall (fun pkt => framed pkt = true /\ Protocol.verifyChecksum pkt = true) pkts ->
  (length pkts <= 50)%nat ->
  Parser.feed p (concat pkts) = handleAll p pkts.
Proof.
  intros Hb Hall Hn. unfold Parser.feed, Parser._processBuffer. rewrite Hb. cbn [app].
  apply loop_valid_packets; [assumption|assumption|lia|assumption].
Qed.

Lemma handleAll_buffer (pkts : list (list Z)) :
  forall p : Parser.LabdiscParser,
  Parser.buffer p = [] -> Parser.buffer (fst (handleAll p pkts)) = [].
Proof.
  induction pkts as [|pkt rest IH]; intros p Hb; [exact Hb|].
  cbn [handleAll].
  pose proof (handlePacket_keeps_buffer p (Parser.byteAt pkt 2) pkt) as Hk.
  destruct (Parser._handlePacket p (Parser.byteAt pkt 2) pkt) as [p' evs].
  cbn [fst] in Hk. specialize (IH p' ltac:(congruence)).
  destruct (handleAll p' rest) as [p'' evs']. exact IH.
Qed.

(** Up to 50 valid packets back to back in one chunk, fed to a framer
    whose buffer is empty: each is handled, in order, and the buffer is
    empty again. *)
Theorem feed_valid_packets (p : Parser.LabdiscParser) (pkts : list (list Z)) :
  Parser.buffer p = [] ->
  Forall (fun pkt => framed pkt = true /\ Protocol.verifyChecksum pkt = true) pkts ->
  (length pkts <= 50)%nat ->
  Parser.feed p (concat pkts) = handleAll p pkts /\
  Parser.buffer (fst (Parser.feed p (concat pkts))) = [].
Proof.
  intros Hb Hall Hn. rewrite (feed_handles_all p pkts Hb Hall Hn).
  split; [reflexivity|]. apply handleAll_buffer, Hb.
Qed.

Lemma feed_valid_packets_witness :
  Parser.feed Parser.new (concat [idsPacket; shortOnline; shortOnline])
    = handleAll Parser.new [idsPacket; shortOnline; shortOnline] /\
  Parser.buffer (fst (Parser.feed Parser.new (concat [idsPacket; shortOnline; shortOnline]))) = [].
Proof.
  apply (feed_valid_packets Parser.new [idsPacket; shortOnline; shortOnline]).
  - reflexivity.
  - repeat constructor.
  - simpl. lia.
Defined.

(** Any cutting of a stream into chunks, empty chunks included: when the
    bulk [feed] call takes at most 30 passes of its loop, the chunks fed
    in turn to a framer whose buffer is empty make the callbacks of the
    bulk call, in the same order, and leave the same ids and packet count. *)
Theorem chunked_feed_same_events (p : Parser.LabdiscParser) (chunks : list (list Z)) :
  Parser.buffer p = [] ->
  (passes p (concat chunks) <= 30)%nat ->
  snd (Parser.feedAll p chunks) = snd (Parser.feed p (concat chunks)) /\
  Parser.sensorIds (fst (Parser.feedAll p chunks))
    = Parser.sensorIds (fst (Parser.feed p (concat chunks))) /\
  Parser.packetCount (fst (Parser.feedAll p chunks))
    = Parser.packetCount (fst (Parser.feed p (concat chunks))).
Proof.
  intros Hb Hp.
  destruct (chunked_feed_matches_bulk p chunks Hb Hp) as [He (Hi & Hn & _)]. auto.
Qed.

Lemma chunked_feed_same_events_witness :
  snd (Parser.feedAll Parser.new [take 7 noisyStream; []; take 20 (drop 7 noisyStream);
                                  drop 27 noisyStream])
    = snd (Parser.feed Parser.new noisyStream).
Proof.
  pose proof (chunked_feed_same_events Parser.new
    [take 7 noisyStream; []; take 20 (drop 7 noisyStream); drop 27 noisyStream]
    eq_refl) as H.
  destruct H as [H _]; [apply Nat.leb_le; vm_compute; reflexivity|].
  etransitivity; [exact H|]. vm_compute. reflexivity.
Defined.

(** ** parser.js: what a data packet is decoded to *)

(** A decidable proposition settled by evaluation. *)
Ltac by_decide :=
  lazymatch goal with |- ?P => apply (bool_decide_unpack P); vm_compute; exact I end.

(** The record of a two-byte sensor read at [offset]. *)
Definition readAt (pkt : list Z) (offset : nat) (sid : Z) : Parser.Reading :=
  Parser._convertRaw sid (Parser.word16 pkt offset) (Sensors.SENSORS !! sid).

(** The coordinate decoded from the four bytes at [offset]. *)
Definition coordAt (pkt : list Z) (offset : nat) : Sensors.GPSCoord :=
  Sensors.decodeGPSCoord (Parser.byteAt pkt offset) (Parser.byteAt pkt (offset + 1))
    (Parser.byteAt pkt (offset + 2)) (Parser.byteAt pkt (offset + 3)).

(** The record an online packet gives the sensor [sid] whose bytes start
    at [offset]: 8 bytes of GPS, or a two-byte word. *)
Definition onlineRecord (pkt : list Z) (offset : nat) (sid : Z) : Parser.Reading :=
  if sid =? 7
  then Parser.mkReading 0 (Some PrimFloat.zero) false
         (Parser.LatLon (coordAt pkt offset) (coordAt pkt (offset + 4)))
  else readAt pkt offset sid.

(** The same for an experiment packet: 12 bytes of GPS. *)
Definition experimentRecord (pkt : list Z) (offset : nat) (sid : Z) : Parser.Reading :=
  if sid =? 7
  then Parser.mkReading 0 (Some PrimFloat.zero) false
         (Parser.LatLonVelAng (coordAt pkt offset) (coordAt pkt (offset + 4))
            (JS.of_Z (Parser.word16 pkt (offset + 8)) / 10)%float
            (JS.of_Z (Parser.word16 pkt (offset + 10)) / 10)%float)
  else readAt pkt offset sid.

(** The record the experiment parser stores for a sensor whose bit is off. *)
Definition inactiveRecord : Parser.Reading := Parser.mkReading 0xFFFF None true Parser.NoGPS.

(** The bytes a sensor takes in a packet where GPS takes [gps]. *)
Definition slotSize (gps : nat) (sid : Z) : nat := if sid =? 7 then gps else 2%nat.

(** Where the bytes of position [j] start: after [base] and the bytes of
    the positions before it. *)
Definition slotOffset (gps base : nat) (ids : list Z) (j : nat) : nat :=
  (base + sum_list (map (slotSize gps) (take j ids)))%nat.

(** [true] when the [size] bytes at [offset] lie before the checksum byte. *)
Definition fits (pkt : list Z) (offset size : nat) : bool :=
  (offset + size <=? length pkt - 1)%nat.

Lemma lon_coord (pkt : list Z) (offset : nat) :
  Sensors.decodeGPSCoord (Parser.byteAt pkt (offset + 4)) (Parser.byteAt pkt (offset + 5))
    (Parser.byteAt pkt (offset + 6)) (Parser.byteAt pkt (offset + 7))
  = coordAt pkt (offset + 4).
Proof. unfold coordAt. rewrite <- !Nat.add_assoc. reflexivity. Qed.

Lemma slotSize_pos (gps : nat) (sid : Z) : (0 < gps)%nat -> (0 < slotSize gps sid)%nat.
Proof. unfold slotSize. destruct (sid =? 7); lia. Qed.

Lemma slotOffset_S (gps base : nat) (sid0 : Z) (ids : list Z) (j : nat) :
  slotOffset gps base (sid0 :: ids) (S j) = slotOffset gps (base + slotSize gps sid0) ids j.
Proof. unfold slotOffset. simpl. lia. Qed.

Lemma slotOffset_ge (gps base : nat) (ids : list Z) (j : nat) :
  (base <= slotOffset gps base ids j)%nat.
Proof. unfold slotOffset. lia. Qed.

Lemma onlineLoop_frame (pkt : list Z) (ids : list Z) (k : Z) :
  forall (offset : nat) (values : gmap Z Parser.Reading),
  k ∉ ids -> Parser.onlineLoop pkt ids offset values !! k = values !! k.
Proof.
  induction ids as [|sid ids IH]; intros offset values Hk; [reflexivity|].
  apply not_elem_of_cons in Hk as [Hne Hk]. cbn [Parser.onlineLoop].
  destruct (Z.eqb_spec sid 7) as [->|H7].
  - destruct (length pkt - 1 <? offset + 8)%nat; [reflexivity|].
    rewrite IH by assumption. apply lookup_insert_ne. congruence.
  - destruct (length pkt - 1 <? offset + 2)%nat; [reflexivity|].
    rewrite IH by assumption. apply lookup_insert_ne. congruence.
Qed.

Lemma experimentLoop_frame (pkt : list Z) (mask : Z) (ids : list Z) (k : Z) :
  forall (bitIdx offset : nat) (values : gmap Z Parser.Reading),
  k ∉ ids -> Parser.experimentLoop pkt mask ids bitIdx offset values !! k = values !! k.
Proof.
  induction ids as [|sid ids IH]; intros bitIdx offset values Hk; [reflexivity|].
  apply not_elem_of_cons in Hk as [Hne Hk]. cbn [Parser.experimentLoop].
  destruct (negb (Parser.isActive mask bitIdx)).
  { rewrite IH by assumption. apply lookup_insert_ne. congruence. }
  destruct (Z.eqb_spec sid 7) as [->|H7].
  - destruct (length pkt - 1 <? offset + 12)%nat; [reflexivity|].
    rewrite IH by assumption. apply lookup_insert_ne. congruence.
  - destruct (length pkt - 1 <? offset + 2)%nat; [reflexivity|].
    rewrite IH by assumption. apply lookup_insert_ne. congruence.
Qed.

Lemma onlineLoop_layout (pkt : list Z) (ids : list Z) :
  forall (offset : nat) (values : gmap Z Parser.Reading),
  NoDup ids ->
  forall (j : nat) (sid : Z), ids !! j = Some sid ->
  Parser.onlineLoop pkt ids offset values !! sid =
  if fits pkt (slotOffset 8 offset ids j) (slotSize 8 sid)
  then Some (onlineRecord pkt (slotOffset 8 offset ids j) sid) else values !! sid.
Proof.
  unfold fits.
  induction ids as [|sid0 ids IH]; intros offset values Hnd j sid Hj; [discriminate|].
  apply NoDup_cons in Hnd as [Hnot Hnd].
  assert (Hbrk : forall size, size = slotSize 8 sid0 ->
            (length pkt - 1 < offset + size)%nat ->
            (slotOffset 8 offset (sid0 :: ids) j + slotSize 8 sid <=? length pkt - 1)%nat = false).
  { intros size -> Hlt. apply Nat.leb_gt. destruct j as [|j].
    - injection Hj as <-. unfold slotOffset. cbn. lia.
    - rewrite slotOffset_S.
      pose proof (slotOffset_ge 8 (offset + slotSize 8 sid0) ids j).
      pose proof (slotSize_pos 8 sid ltac:(lia)). lia. }
  assert (Hstep : forall r, r = onlineRecord pkt offset sid0 ->
            (offset + slotSize 8 sid0 <= length pkt - 1)%nat ->
            Parser.onlineLoop pkt ids (offset + slotSize 8 sid0) (<[sid0 := r]> values) !! sid =
            if (slotOffset 8 offset (sid0 :: ids) j + slotSize 8 sid <=? length pkt - 1)%nat
            then Some (onlineRecord pkt (slotOffset 8 offset (sid0 :: ids) j) sid)
            else values !! sid).
  { intros r -> Hok. destruct j as [|j].
    - injection Hj as <-. rewrite onlineLoop_frame by assumption.
      rewrite lookup_insert_eq. unfold slotOffset. cbn [take map sum_list sum_list_with].
      rewrite Nat.add_0_r. destruct (Nat.leb_spec (offset + slotSize 8 sid0) (length pkt - 1));
        [reflexivity|lia].
    - cbn in Hj. rewrite (IH _ _ Hnd j sid Hj), slotOffset_S.
      destruct (slotOffset 8 (offset + slotSize 8 sid0) ids j + slotSize 8 sid
                <=? length pkt - 1)%nat; [reflexivity|].
      apply lookup_insert_ne. intros ->. apply Hnot. eapply list_elem_of_lookup_2. exact Hj. }
  cbn [Parser.onlineLoop]. unfold onlineRecord, slotSize in Hstep, Hbrk |- *.
  destruct (Z.eqb_spec sid0 7) as [->|H7].
  - change (7 =? 7) with true in *. cbv iota in Hstep, Hbrk.
    destruct (Nat.ltb_spec (length pkt - 1) (offset + 8)) as [Hlt|Hok].
    + rewrite (Hbrk 8%nat eq_refl Hlt). reflexivity.
    + rewrite lon_coord. apply (Hstep _ eq_refl Hok).
  - destruct (Z.eqb_spec sid0 7) as [|_]; [contradiction|].
    destruct (Nat.ltb_spec (length pkt - 1) (offset + 2)) as [Hlt|Hok].
    + rewrite (Hbrk 2%nat eq_refl Hlt). reflexivity.
    + apply (Hstep _ eq_refl Hok).
Qed.

Lemma experimentLoop_layout (pkt : list Z) (mask : Z) (ids : list Z) :
  forall (bitIdx offset : nat) (values : gmap Z Parser.Reading),
  (forall i, (i < length ids)%nat -> Parser.isActive mask (bitIdx + i) = true) ->
  NoDup ids ->
  forall (j : nat) (sid : Z), ids !! j = Some sid ->
  Parser.experimentLoop pkt mask ids bitIdx offset values !! sid =
  if fits pkt (slotOffset 12 offset ids j) (slotSize 12 sid)
  then Some (experimentRecord pkt (slotOffset 12 offset ids j) sid) else values !! sid.
Proof.
  unfold fits.
  induction ids as [|sid0 ids IH]; intros bitIdx offset values Hact Hnd j sid Hj;
    [discriminate|].
  apply NoDup_cons in Hnd as [Hnot Hnd].
  assert (Hact' : forall i, (i < length ids)%nat -> Parser.isActive mask (S bitIdx + i) = true).
  { intros i Hi. replace (S bitIdx + i)%nat with (bitIdx + S i)%nat by lia.
    apply Hact. simpl. lia. }
  assert (Hbrk : forall size, size = slotSize 12 sid0 ->
            (length pkt - 1 < offset + size)%nat ->
            (slotOffset 12 offset (sid0 :: ids) j + slotSize 12 sid <=? length pkt - 1)%nat
            = false).
  { intros size -> Hlt. apply Nat.leb_gt. destruct j as [|j].
    - injection Hj as <-. unfold slotOffset. cbn. lia.
    - rewrite slotOffset_S.
      pose proof (slotOffset_ge 12 (offset + slotSize 12 sid0) ids j).
      pose proof (slotSize_pos 12 sid ltac:(lia)). lia. }
  assert (Hstep : forall r, r = experimentRecord pkt offset sid0 ->
            (offset + slotSize 12 sid0 <= length pkt - 1)%nat ->
            Parser.experimentLoop pkt mask ids (S bitIdx) (offset + slotSize 12 sid0)
              (<[sid0 := r]> values) !! sid =
            if (slotOffset 12 offset (sid0 :: ids) j + slotSize 12 sid <=? length pkt - 1)%nat
            then Some (experimentRecord pkt (slotOffset 12 offset (sid0 :: ids) j) sid)
            else values !! sid).
  { intros r -> Hok. destruct j as [|j].
    - injection Hj as <-. rewrite experimentLoop_frame by assumption.
      rewrite lookup_insert_eq. unfold slotOffset. cbn [take map sum_list sum_list_with].
      rewrite Nat.add_0_r. destruct (Nat.leb_spec (offset + slotSize 12 sid0) (length pkt - 1));
        [reflexivity|lia].
    - cbn in Hj. rewrite (IH _ _ _ Hact' Hnd j sid Hj), slotOffset_S.
      destruct (slotOffset 12 (offset + slotSize 12 sid0) ids j + slotSize 12 sid
                <=? length pkt - 1)%nat; [reflexivity|].
      apply lookup_insert_ne. intros ->. apply Hnot. eapply list_elem_of_lookup_2. exact Hj. }
  cbn [Parser.experimentLoop].
  pose proof (Hact 0%nat ltac:(simpl; lia)) as H0.
  replace (bitIdx + 0)%nat with bitIdx in H0 by lia. rewrite H0. cbn [negb].
  unfold experimentRecord, slotSize in Hstep, Hbrk |- *.
  destruct (Z.eqb_spec sid0 7) as [->|H7].
  - change (7 =? 7) with true in *. cbv iota in Hstep, Hbrk.
    destruct (Nat.ltb_spec (length pkt - 1) (offset + 12)) as [Hlt|Hok].
    + rewrite (Hbrk 12%nat eq_refl Hlt). reflexivity.
    + rewrite lon_coord. apply (Hstep _ eq_refl Hok).
  - destruct (Z.eqb_spec sid0 7) as [|_]; [contradiction|].
    destruct (Nat.ltb_spec (length pkt - 1) (offset + 2)) as [Hlt|Hok].
    + rewrite (Hbrk 2%nat eq_refl Hlt). reflexivity.
    + apply (Hstep _ eq_refl Hok).
Qed.

Lemma experimentLoop_inactive (pkt : list Z) (mask : Z) (ids : list Z) :
  forall (bitIdx offset : nat) (values : gmap Z Parser.Reading),
  NoDup ids ->
  forall (i : nat) (sid : Z) (r : Parser.Reading),
  ids !! i = Some sid -> Parser.isActive mask (bitIdx + i) = false -> values !! sid = None ->
  Parser.experimentLoop pkt mask ids bitIdx offset values !! sid = Some r ->
  r = inactiveRecord.
Proof.
  induction ids as [|sid0 ids IH]; intros bitIdx offset values Hnd i sid r Hi Hoff Hnone Hr;
    [discriminate|].
  apply NoDup_cons in Hnd as [Hnot Hnd].
  destruct i as [|i].
  - injection Hi as <-. replace (bitIdx + 0)%nat with bitIdx in Hoff by lia.
    cbn [Parser.experimentLoop] in Hr. rewrite Hoff in Hr. cbn [negb] in Hr.
    rewrite experimentLoop_frame, lookup_insert_eq in Hr by assumption.
    injection Hr as <-. reflexivity.
  - cbn in Hi.
    assert (Hne : sid0 <> sid).
    { intros ->. apply Hnot. eapply list_elem_of_lookup_2. exact Hi. }
    assert (Hoff' : Parser.isActive mask (S bitIdx + i) = false)
      by (replace (S bitIdx + i)%nat with (bitIdx + S i)%nat by lia; exact Hoff).
    cbn [Parser.experimentLoop] in Hr.
    destruct (negb (Parser.isActive mask bitIdx)).
    { eapply (IH (S bitIdx) offset _ Hnd i sid r Hi Hoff'); [|exact Hr].
      rewrite lookup_insert_ne by exact Hne. exact Hnone. }
    destruct (Z.eqb_spec sid0 7) as [E7|_].
    + destruct (length pkt - 1 <? offset + 12)%nat; [congruence|].
      eapply (IH (S bitIdx) _ _ Hnd i sid r Hi Hoff'); [|exact Hr].
      rewrite lookup_insert_ne by congruence. exact Hnone.
    + destruct (length pkt - 1 <? offset + 2)%nat; [congruence|].
      eapply (IH (S bitIdx) _ _ Hnd i sid r Hi Hoff'); [|exact Hr].
      rewrite lookup_insert_ne by exact Hne. exact Hnone.
Qed.

Lemma emitData_event (p : Parser.LabdiscParser) (s values : Parser.Sample) (count : Z) :
  Parser.OnData values count ∈ Parser._emitData p s ->
  values = s /\ count = Parser.packetCount p.
Proof.
  unfold Parser._emitData. intros H. apply elem_of_app in H. destruct H as [H|H].
  - destruct ((Parser.packetCount p <=? 3) || (Z.rem (Parser.packetCount p) 10 =? 0)).
    + apply list_elem_of_singleton in H. discriminate.
    + inversion H.
  - apply list_elem_of_singleton in H. injection H as -> ->. auto.
Qed.

(** An online-data packet, the cached ids distinct: the bytes of the
    sensors follow each other from byte 4 in the order of the list, 8 bytes
    for GPS and 2 for any other sensor; the sensor at position [j] is decoded
    from its bytes (a two-byte word, big-endian, through [_convertRaw]; two
    coordinates for GPS) when they lie before the checksum byte, and has no
    record at all otherwise.  The sample carries the packet count after
    its increment and no counter. *)
Theorem online_sample_layout (p : Parser.LabdiscParser) (pkt : list Z)
    (values : Parser.Sample) (count : Z) :
  NoDup (Parser.sensorIds p) ->
  Parser.OnData values count ∈ snd (Parser._parseOnlineData p pkt) ->
  count = Parser.packetCount p + 1 /\
  Parser._counter values = None /\
  forall (j : nat) (sid : Z), Parser.sensorIds p !! j = Some sid ->
    Parser.readings values !! sid =
    if fits pkt (slotOffset 8 4 (Parser.sensorIds p) j) (slotSize 8 sid)
    then Some (onlineRecord pkt (slotOffset 8 4 (Parser.sensorIds p) j) sid) else None.
Proof.
  intros Hnd Hev. unfold Parser._parseOnlineData in Hev.
  destruct (Parser.sensorIds p) as [|sid0 ids] eqn:Hids; [inversion Hev|].
  cbn [snd] in Hev. apply emitData_event in Hev as [-> ->].
  split; [reflexivity|]. split; [reflexivity|].
  intros j sid Hj. cbn [Parser.readings].
  rewrite (onlineLoop_layout pkt (sid0 :: ids) 4 ∅ Hnd j sid Hj).
  destruct (fits pkt (slotOffset 8 4 (sid0 :: ids) j) (slotSize 8 sid));
    [reflexivity|apply lookup_empty].
Qed.

(** An online packet for GPS and ambient temperature, in that order. *)
Definition gpsThenTemp : list Z :=
  [0x2E; 0x69; 0x81; 15; 34; 0x8B; 0x3C; 0x53; 56; 0x2D; 0x50; 0x57; 0x01; 0x07; 0x89].

Lemma online_sample_layout_witness :
  exists values,
    Parser.OnData values 1
      ∈ snd (Parser._parseOnlineData (Parser.mkParser [] [7; 30; 6] 0) gpsThenTemp) /\
    Parser.readings values !! 7 = Some (onlineRecord gpsThenTemp 4 7) /\
    Parser.readings values !! 30 = Some (readAt gpsThenTemp 12 30) /\
    Parser.readings values !! 6 = None.
Proof.
  destruct (Parser._parseOnlineData (Parser.mkParser [] [7; 30; 6] 0) gpsThenTemp)
    as [p' evs] eqn:E.
  pose proof (online_sample_layout (Parser.mkParser [] [7; 30; 6] 0) gpsThenTemp) as L.
  rewrite E in L. vm_compute in E. injection E as <- <-.
  eexists. split; [apply list_elem_of_further, list_elem_of_here|].
  match goal with |- context [Parser.readings ?v] =>
    specialize (L v 1 ltac:(by_decide)
                     ltac:(apply list_elem_of_further, list_elem_of_here))
  end.
  destruct L as (_ & _ & L).
  split; [exact (L 0%nat 7 eq_refl)|]. split; [exact (L 1%nat 30 eq_refl)|].
  exact (L 2%nat 6 eq_refl).
Defined.

(** An experiment-data packet in which the bits of all cached positions
    are set, the ids distinct: the bytes of the sensors follow each other
    from byte 8 in the order of the list, 12 bytes for GPS and 2 for any
    other sensor, and each sensor is decoded from its bytes when they lie
    before the checksum byte; the sample carries the packet count after its
    increment, and byte 7 as its counter. *)
Theorem experiment_sample_layout (p : Parser.LabdiscParser) (pkt : list Z)
    (values : Parser.Sample) (count : Z) :
  (forall i, (i < length (Parser.sensorIds p))%nat ->
             Parser.isActive (Parser.word16 pkt 4) i = true) ->
  NoDup (Parser.sensorIds p) ->
  Parser.OnData values count ∈ snd (Parser._parseExperimentData p pkt) ->
  count = Parser.packetCount p + 1 /\
  Parser._counter values = Some (pkt !! 7%nat) /\
  forall (j : nat) (sid : Z), Parser.sensorIds p !! j = Some sid ->
    Parser.readings values !! sid =
    if fits pkt (slotOffset 12 8 (Parser.sensorIds p) j) (slotSize 12 sid)
    then Some (experimentRecord pkt (slotOffset 12 8 (Parser.sensorIds p) j) sid) else None.
Proof.
  intros Hact Hnd Hev. unfold Parser._parseExperimentData in Hev.
  destruct (Parser.sensorIds p) as [|sid0 ids] eqn:Hids; [inversion Hev|].
  cbn [snd] in Hev. apply emitData_event in Hev as [-> ->].
  split; [reflexivity|]. split; [reflexivity|].
  intros j sid Hj. cbn [Parser.readings].
  rewrite (experimentLoop_layout pkt _ (sid0 :: ids) 0 8 ∅ Hact Hnd j sid Hj).
  destruct (fits pkt (slotOffset 12 8 (sid0 :: ids) j) (slotSize 12 sid));
    [reflexivity|apply lookup_empty].
Qed.

(** An experiment packet for two sensors, both bits set. *)
Definition twoActive : list Z :=
  [0x2E; 0x69; 0x84; 13; 0x00; 0x03; 0; 9; 0x01; 0x07; 0x02; 0x00; 0xC2].

Lemma experiment_sample_layout_witness :
  exists values,
    Parser.OnData values 1
      ∈ snd (Parser._parseExperimentData (Parser.mkParser [] [30; 6] 0) twoActive) /\
    Parser._counter values = Some (Some 9) /\
    Parser.readings values !! 30 = Some (readAt twoActive 8 30) /\
    Parser.readings values !! 6 = Some (readAt twoActive 10 6).
Proof.
  destruct (Parser._parseExperimentData (Parser.mkParser [] [30; 6] 0) twoActive)
    as [p' evs] eqn:E.
  pose proof (experiment_sample_layout (Parser.mkParser [] [30; 6] 0) twoActive) as L.
  rewrite E in L. vm_compute in E. injection E as <- <-.
  eexists. split; [apply list_elem_of_further, list_elem_of_here|].
  match goal with |- context [Parser.readings ?v] =>
    specialize (L v 1
      ltac:(intros [|[|i]] Hi; [reflexivity|reflexivity|simpl in Hi; lia])
      ltac:(by_decide)
      ltac:(apply list_elem_of_further, list_elem_of_here))
  end.
  destruct L as (_ & Hc & L).
  split; [exact Hc|].
  split; [exact (L 0%nat 30 eq_refl)|exact (L 1%nat 6 eq_refl)].
Defined.

(** In the sample of an experiment-data packet, the ids distinct, a
    sensor whose bit is off has the no-data placeholder for its record. *)
Theorem experiment_inactive_record (p : Parser.LabdiscParser) (pkt : list Z)
    (values : Parser.Sample) (count : Z) (i : nat) (sid : Z) (r : Parser.Reading) :
  NoDup (Parser.sensorIds p) ->
  Parser.OnData values count ∈ snd (Parser._parseExperimentData p pkt) ->
  Parser.sensorIds p !! i = Some sid ->
  Parser.isActive (Parser.word16 pkt 4) i = false ->
  Parser.readings values !! sid = Some r ->
  r = inactiveRecord.
Proof.
  intros Hnd Hev Hi Hoff Hr. unfold Parser._parseExperimentData in Hev.
  destruct (Parser.sensorIds p) as [|sid0 ids] eqn:Hids; [inversion Hev|].
  cbn [snd] in Hev. apply emitData_event in Hev as [-> ->]. cbn [Parser.readings] in Hr.
  apply (experimentLoop_inactive pkt _ (sid0 :: ids) 0 8 ∅ Hnd i sid r Hi Hoff
           (lookup_empty sid) Hr).
Qed.

(** An experiment packet for two sensors, the bit of the second off. *)
Definition firstActive : list Z :=
  [0x2E; 0x69; 0x84; 11; 0x00; 0x01; 0; 9; 0x01; 0x07; 0xC8].

Lemma experiment_inactive_record_witness :
  exists values,
    Parser.OnData values 1
      ∈ snd (Parser._parseExperimentData (Parser.mkParser [] [30; 6] 0) firstActive) /\
    Parser.readings values !! 6 = Some inactiveRecord.
Proof.
  destruct (Parser._parseExperimentData (Parser.mkParser [] [30; 6] 0) firstActive)
    as [p' evs] eqn:E.
  pose proof (experiment_inactive_record (Parser.mkParser [] [30; 6] 0) firstActive) as L.
  rewrite E in L. vm_compute in E. injection E as <- <-.
  eexists. split; [apply list_elem_of_further, list_elem_of_here|].
  match goal with |- ?m !! 6 = _ => destruct (m !! 6) as [r|] eqn:Hr; [|vm_compute in Hr; discriminate] end.
  f_equal. eapply (L _ 1 1%nat 6 r).
  - by_decide.
  - apply list_elem_of_further, list_elem_of_here.
  - reflexivity.
  - reflexivity.
  - exact Hr.
Defined.

(** A sample never holds a record under an id that is not in the cached
    list, for either kind of data packet. *)
Theorem sample_ids_cached (p : Parser.LabdiscParser) (pkt : list Z)
    (values : Parser.Sample) (count : Z) (sid : Z) (r : Parser.Reading) :
  Parser.OnData values count ∈ snd (Parser._parseOnlineData p pkt) \/
  Parser.OnData values count ∈ snd (Parser._parseExperimentData p pkt) ->
  Parser.readings values !! sid = Some r ->
  sid ∈ Parser.sensorIds p.
Proof.
  intros Hev Hr. destruct (decide (sid ∈ Parser.sensorIds p)) as [|Hnot]; [assumption|].
  exfalso. unfold Parser._parseOnlineData, Parser._parseExperimentData in Hev.
  destruct (Parser.sensorIds p) as [|sid0 ids] eqn:Hids;
    [destruct Hev as [Hev|Hev]; inversion Hev|].
  cbn [snd] in Hev. destruct Hev as [Hev|Hev];
    apply emitData_event in Hev as [-> _]; cbn [Parser.readings] in Hr.
  - rewrite onlineLoop_frame, lookup_empty in Hr by assumption. discriminate.
  - rewrite experimentLoop_frame, lookup_empty in Hr by assumption. discriminate.
Qed.

Lemma sample_ids_cached_witness :
  30 ∈ Parser.sensorIds (Parser.mkParser [] [30; 6] 0).
Proof.
  apply (sample_ids_cached (Parser.mkParser [] [30; 6] 0) shortOnline
    (Parser.mkSample
       (<[30 := readAt shortOnline 4 30]> (<[6 := readAt shortOnline 6 6]> ∅)) None)
    1 30 (readAt shortOnline 4 30)).
  - left. vm_compute. apply list_elem_of_further, list_elem_of_here.
  - vm_compute. reflexivity.
Defined.

(** ** parser.js: the sensor-id packet and the packet count *)

(** A sensor-id packet as the Logger sends it: the ids, zeros up to 17
    places, and the checksum. *)
Definition sensorIdsPacket (ids : list Z) : list Z :=
  let body := [0x2E; 0x69; 0x82] ++ ids ++ replicate (17 - length ids) 0 in
  body ++ [Protocol.calcChecksum body].

Lemma filter_nonzero_padded (ids : list Z) (n : nat) :
  Forall (fun b => b <> 0) ids ->
  List.filter (fun b => negb (b =? 0)) (ids ++ replicate n 0) = ids.
Proof.
  induction 1 as [|x ids Hx _ IH]; simpl.
  - induction n as [|n IHn]; [reflexivity|exact IHn].
  - destruct (Z.eqb_spec x 0); [contradiction|]. simpl. rewrite IH. reflexivity.
Qed.

(** The round trip of the sensor-id list: a packet that lists up to 17
    nonzero ids, padded with zeros, makes the framer cache exactly that
    list, in order, and hand it to [onSensorIds]; the packet count is
    untouched and the buffer is empty again. *)
Theorem feed_sensor_ids_packet (p : Parser.LabdiscParser) (ids : list Z) :
  Parser.buffer p = [] ->
  Forall (fun b => b <> 0) ids -> (length ids <= 17)%nat ->
  fst (Parser.feed p (sensorIdsPacket ids)) = Parser.mkParser [] ids (Parser.packetCount p) /\
  List.filter Parser.isDataEvent (snd (Parser.feed p (sensorIdsPacket ids)))
    = [Parser.OnSensorIds ids].
Proof.
  intros Hb Hnz Hlen.
  set (body := [0x2E; 0x69; 0x82] ++ ids ++ replicate (17 - length ids) 0).
  assert (Hl : length (sensorIdsPacket ids) = 21%nat).
  { unfold sensorIdsPacket. cbv zeta. rewrite !length_app, length_replicate. simpl. lia. }
  assert (Hfr : framed (sensorIdsPacket ids) = true).
  { unfold framed. change (sensorIdsPacket ids) with
      (0x2E :: 0x69 :: 0x82 :: ((ids ++ replicate (17 - length ids) 0) ++ [Protocol.calcChecksum body])) at 1.
    cbv iota. change (Parser._getPacketLength 130 (sensorIdsPacket ids)) with (Some 21).
    rewrite Hl. reflexivity. }
  assert (Hck : Protocol.verifyChecksum (sensorIdsPacket ids) = true).
  { unfold sensorIdsPacket. cbv zeta. fold body.
    rewrite Protocol.verifyChecksum_mod, Protocol.byteSum_app, Protocol.byteSum_cons.
    change (Protocol.byteSum []) with 0. rewrite Z.add_0_r.
    rewrite Protocol.calcChecksum_cancels. reflexivity. }
  rewrite (feed_valid_packet p _ Hb Hfr Hck).
  change (Parser.byteAt (sensorIdsPacket ids) 2) with 130.
  change (Parser._handlePacket p 130 (sensorIdsPacket ids))
    with (Parser._parseSensorIds p (sensorIdsPacket ids)).
  unfold Parser._parseSensorIds. cbv zeta. rewrite Hl, Hb.
  assert (Hmid : take (21 - 1 - 3) (drop 3 (sensorIdsPacket ids))
                 = ids ++ replicate (17 - length ids) 0).
  { change (drop 3 (sensorIdsPacket ids))
      with ((ids ++ replicate (17 - length ids) 0) ++ [Protocol.calcChecksum body]).
    apply take_app_length'. rewrite length_app, length_replicate. lia. }
  rewrite Hmid, (filter_nonzero_padded ids _ Hnz). split; reflexivity.
Qed.

Lemma feed_sensor_ids_packet_witness :
  fst (Parser.feed Parser.new (sensorIdsPacket [30; 6; 7])) = Parser.mkParser [] [30; 6; 7] 0 /\
  List.filter Parser.isDataEvent (snd (Parser.feed Parser.new (sensorIdsPacket [30; 6; 7])))
    = [Parser.OnSensorIds [30; 6; 7]].
Proof.
  apply (feed_sensor_ids_packet Parser.new [30; 6; 7]).
  - reflexivity.
  - repeat constructor; discriminate.
  - simpl. lia.
Defined.

(** The counts handed to [onData], in order. *)
Definition dataCounts (evs : list Parser.Event) : list Z :=
  omap (fun e => match e with Parser.OnData _ c => Some c | _ => None end) evs.

(** [true] for a data packet: online or experiment. *)
Definition isDataPacket (pkt : list Z) : bool :=
  (Parser.byteAt pkt 2 =? 0x81) || (Parser.byteAt pkt 2 =? 0x84).

Lemma dataCounts_app (a b : list Parser.Event) : dataCounts (a ++ b) = dataCounts a ++ dataCounts b.
Proof. apply omap_app. Qed.

Lemma dataCounts_emitData (p : Parser.LabdiscParser) (s : Parser.Sample) :
  dataCounts (Parser._emitData p s) = [Parser.packetCount p].
Proof.
  unfold Parser._emitData. rewrite dataCounts_app.
  destruct ((Parser.packetCount p <=? 3) || (Z.rem (Parser.packetCount p) 10 =? 0)); reflexivity.
Qed.

Lemma handle_data_packet (p : Parser.LabdiscParser) (pkt : list Z) :
  isDataPacket pkt = true ->
  (Parser.sensorIds p = [] ->
   Parser._handlePacket p (Parser.byteAt pkt 2) pkt = (p, [])) /\
  (Parser.sensorIds p <> [] ->
   Parser.sensorIds (fst (Parser._handlePacket p (Parser.byteAt pkt 2) pkt)) = Parser.sensorIds p /\
   Parser.packetCount (fst (Parser._handlePacket p (Parser.byteAt pkt 2) pkt))
     = Parser.packetCount p + 1 /\
   dataCounts (snd (Parser._handlePacket p (Parser.byteAt pkt 2) pkt))
     = [Parser.packetCount p + 1]).
Proof.
  unfold isDataPacket. intros Ht. unfold Parser._handlePacket.
  change Protocol.RSP.SENSOR_IDS with 0x82. change Protocol.RSP.DEVICE_STATUS with 0x83.
  change Protocol.RSP.ONLINE_DATA with 0x81. change Protocol.RSP.EXPERIMENT_DATA with 0x84.
  apply orb_true_iff in Ht as [Ht|Ht]; apply Z.eqb_eq in Ht; rewrite Ht; cbn [Z.eqb Pos.eqb];
    unfold Parser._parseOnlineData, Parser._parseExperimentData;
    (split; [intros ->; reflexivity|]); intros Hne;
    destruct (Parser.sensorIds p) as [|sid ids] eqn:Hids; try contradiction;
    cbn [fst snd Parser.sensorIds Parser.packetCount]; rewrite dataCounts_emitData; auto.
Qed.

(** Data packets before the id list is known are dropped without a
    callback: the framer consumes each valid online or experiment packet,
    and the packet count stays. *)
Theorem data_before_ids_dropped (p : Parser.LabdiscParser) (pkts : list (list Z)) :
  Parser.buffer p = [] -> Parser.sensorIds p = [] ->
  Forall (fun pkt => framed pkt = true /\ Protocol.verifyChecksum pkt = true) pkts ->
  Forall (fun pkt => isDataPacket pkt = true) pkts ->
  (length pkts <= 50)%nat ->
  Parser.feed p (concat pkts) = (p, []).
Proof.
  intros Hb Hids Hall Hdata Hn.
  rewrite (feed_handles_all p pkts Hb Hall Hn). clear Hall Hn Hb.
  induction Hdata as [|pkt rest Hd _ IH]; [reflexivity|].
  cbn [handleAll]. rewrite (proj1 (handle_data_packet p pkt Hd) Hids), IH. reflexivity.
Qed.

Lemma data_before_ids_dropped_witness :
  Parser.feed Parser.new (concat [shortOnline; twoActive]) = (Parser.new, []).
Proof.
  apply (data_before_ids_dropped Parser.new [shortOnline; twoActive]);
    [reflexivity|reflexivity|repeat constructor|repeat constructor|simpl; lia].
Defined.

Lemma handleAll_data (pkts : list (list Z)) :
  forall p : Parser.LabdiscParser,
  Parser.sensorIds p <> [] ->
  Forall (fun pkt => isDataPacket pkt = true) pkts ->
  Parser.sensorIds (fst (handleAll p pkts)) = Parser.sensorIds p /\
  Parser.packetCount (fst (handleAll p pkts)) = Parser.packetCount p + Z.of_nat (length pkts) /\
  dataCounts (snd (handleAll p pkts))
    = map (fun i => Parser.packetCount p + 1 + Z.of_nat i) (seq 0 (length pkts)).
Proof.
  induction pkts as [|pkt rest IH]; intros p Hne Hdata.
  - cbn. repeat split; lia.
  - apply Forall_cons in Hdata as [Hd Hdata].
    destruct (proj2 (handle_data_packet p pkt Hd) Hne) as (Hi & Hc & Hev).
    cbn [handleAll].
    destruct (Parser._handlePacket p (Parser.byteAt pkt 2) pkt) as [p' evs].
    cbn [fst snd] in Hi, Hc, Hev.
    destruct (IH p' ltac:(congruence) Hdata) as (Hi' & Hc' & Hev').
    destruct (handleAll p' rest) as [p'' evs']. cbn [fst snd] in *.
    split; [congruence|]. split; [rewrite Hc', Hc; cbn [length]; lia|].
    rewrite dataCounts_app, Hev, Hev'. cbn [length seq map app].
    f_equal; [lia|]. rewrite <- seq_shift, map_map. apply map_ext. intros i. lia.
Qed.

(** Up to 50 valid data packets in one chunk, the id list known: [onData]
    is called once for each, with consecutive counts that continue the
    packet count, which ends that much higher; the id list stays. *)
Theorem data_packets_counted (p : Parser.LabdiscParser) (pkts : list (list Z)) :
  Parser.buffer p = [] -> Parser.sensorIds p <> [] ->
  Forall (fun pkt => framed pkt = true /\ Protocol.verifyChecksum pkt = true) pkts ->
  Forall (fun pkt => isDataPacket pkt = true) pkts ->
  (length pkts <= 50)%nat ->
  dataCounts (snd (Parser.feed p (concat pkts)))
    = map (fun i => Parser.packetCount p + 1 + Z.of_nat i) (seq 0 (length pkts)) /\
  Parser.packetCount (fst (Parser.feed p (concat pkts)))
    = Parser.packetCount p + Z.of_nat (length pkts) /\
  Parser.sensorIds (fst (Parser.feed p (concat pkts))) = Parser.sensorIds p.
Proof.
  intros Hb Hids Hall Hdata Hn.
  rewrite (feed_handles_all p pkts Hb Hall Hn).
  destruct (handleAll_data pkts p Hids Hdata) as (Hi & Hc & Hev). auto.
Qed.

Lemma data_packets_counted_witness :
  dataCounts (snd (Parser.feed (Parser.mkParser [] [30; 6] 7)
                     (concat [shortOnline; twoActive; shortOnline])))
    = [8; 9; 10] /\
  Parser.packetCount (fst (Parser.feed (Parser.mkParser [] [30; 6] 7)
                             (concat [shortOnline; twoActive; shortOnline]))) = 10 /\
  Parser.sensorIds (fst (Parser.feed (Parser.mkParser [] [30; 6] 7)
                           (concat [shortOnline; twoActive; shortOnline]))) = [30; 6].
Proof.
  apply (data_packets_counted (Parser.mkParser [] [30; 6] 7)
           [shortOnline; twoActive; shortOnline]);
    [reflexivity|discriminate|repeat constructor|repeat constructor|simpl; lia].
Defined.

(** ** sensors.js: the GPS coordinate decoder *)

(** The checks on one byte that the decoder's detour through hex text
    relies on: two hex digits whose values are the halves of the byte, and
    the direction strings matching their byte values only. *)
Definition hexByteCheck (b : Z) : bool :=
  let h := Parser.hex2 b in
  match h with
  | String c1 (String c2 EmptyString) =>
      bool_decide (JS.hexValue c1 = Some (b / 16))
      && bool_decide (JS.hexValue c2 = Some (b mod 16))
  | _ => false
  end
  && Bool.eqb (String.eqb h "4e") (b =? 0x4E)
  && Bool.eqb (String.eqb h "45") (b =? 0x45)
  && Bool.eqb (String.eqb h "00") (b =? 0x00)
  && Bool.eqb (String.eqb h "53") (b =? 0x53)
  && Bool.eqb (String.eqb h "57") (b =? 0x57).

Lemma hexByte_ok (b : Z) : 0 <= b <= 255 -> hexByteCheck b = true.
Proof.
  intros H. apply (allRange_spec 9 0 256 hexByteCheck); [vm_compute; reflexivity|lia].
Qed.

Lemma hex2_two_chars (b : Z) :
  0 <= b <= 255 ->
  exists c1 c2, Parser.hex2 b = String c1 (String c2 "") /\
    JS.hexValue c1 = Some (b / 16) /\ JS.hexValue c2 = Some (b mod 16).
Proof.
  intros H. pose proof (hexByte_ok b H) as C. unfold hexByteCheck in C. cbv zeta in C.
  repeat (apply andb_true_iff in C as [C _]).
  destruct (Parser.hex2 b) as [|c1 [|c2 [|c3 s]]]; try discriminate.
  apply andb_true_iff in C as [C1%bool_decide_eq_true C2%bool_decide_eq_true]. eauto.
Qed.

(** The letter of a direction byte in the [dms] text. *)
Definition directionLetter (b3 : Z) : string :=
  if b3 =? 0x4E then "N" else if b3 =? 0x53 then "S"
  else if b3 =? 0x45 then "E" else if b3 =? 0x57 then "W" else "?".

(** The coordinate decoder on four bytes: the degrees are byte 0, the
    minutes are bytes 1 and 2 read big-endian, in thousandths; the value is
    positive for the direction bytes 'N', 'E' and 0 and negative for every
    other byte, 'S' and 'W' included; the text ends in the direction letter,
    or in '?' for a byte that is none of the four. *)
Theorem decodeGPSCoord_fields (b0 b1 b2 b3 : Z) :
  0 <= b0 <= 255 -> 0 <= b1 <= 255 -> 0 <= b2 <= 255 -> 0 <= b3 <= 255 ->
  Sensors.decodeGPSCoord b0 b1 b2 b3 =
  let deg := JS.of_Z b0 in
  let minutes := (JS.of_Z (b1 * 256 + b2) / 1000)%float in
  let decDeg := (deg + minutes / 60)%float in
  Sensors.mkGPSCoord
    (if (b3 =? 0x4E) || (b3 =? 0x45) || (b3 =? 0) then decDeg else (- decDeg)%float)
    (JSNum.toString deg +:+ "°" +:+ JSNum.toFixed minutes 3 +:+ "'" +:+ directionLetter b3).
Proof.
  intros H0 H1 H2 H3.
  pose proof (hexByte_ok b3 H3) as C3.
  unfold hexByteCheck in C3. cbv zeta in C3.
  repeat match goal with H : _ && _ = true |- _ => apply andb_true_iff in H as [H ?] end.
  repeat match goal with H : Bool.eqb _ _ = true |- _ => apply Bool.eqb_prop in H end.
  destruct (hex2_two_chars b0 H0) as (a1 & a2 & E0 & Va1 & Va2).
  destruct (hex2_two_chars b1 H1) as (c1 & c2 & E1 & Vc1 & Vc2).
  destruct (hex2_two_chars b2 H2) as (d1 & d2 & E2 & Vd1 & Vd2).
  destruct (hex2_two_chars b3 H3) as (e1 & e2 & E3 & _ & _).
  assert (P0 : JS.parseInt16 (Parser.hex2 b0) = JS.of_Z b0).
  { rewrite E0. unfold JS.parseInt16. cbn [JS.parseHex_go]. rewrite Va1, Va2.
    cbv [default from_option id]. f_equal. pose proof (Z.div_mod b0 16 ltac:(lia)). lia. }
  assert (C12 : JS.parseInt16 (Parser.hex2 b1 +:+ Parser.hex2 b2) = JS.of_Z (b1 * 256 + b2)).
  { rewrite E1, E2.
    change (String c1 (String c2 "") +:+ String d1 (String d2 ""))
      with (String c1 (String c2 (String d1 (String d2 "")))).
    unfold JS.parseInt16. cbn [JS.parseHex_go].
    rewrite Vc1, Vc2, Vd1, Vd2. cbv [default from_option id]. f_equal.
    pose proof (Z.div_mod b1 16 ltac:(lia)). pose proof (Z.div_mod b2 16 ltac:(lia)). lia. }
  unfold Sensors.decodeGPSCoord. cbv zeta.
  change (JS.padStart 2 "0"%char (JS.toString16 b0)) with (Parser.hex2 b0).
  change (map (fun b => JS.padStart 2 "0"%char (JS.toString16 b)) [b0; b1; b2; b3])
    with [Parser.hex2 b0; Parser.hex2 b1; Parser.hex2 b2; Parser.hex2 b3].
  rewrite E0, E1, E2, E3.
  change (JS.slice 0 2 (JS.join "" [String a1 (String a2 ""); String c1 (String c2 "");
                                    String d1 (String d2 ""); String e1 (String e2 "")]))
    with (String a1 (String a2 "")).
  change (JS.slice 2 6 (JS.join "" [String a1 (String a2 ""); String c1 (String c2 "");
                                    String d1 (String d2 ""); String e1 (String e2 "")]))
    with (String c1 (String c2 "") +:+ String d1 (String d2 "")).
  change (JS.slice 6 8 (JS.join "" [String a1 (String a2 ""); String c1 (String c2 "");
                                    String d1 (String d2 ""); String e1 (String e2 "")]))
    with (String e1 (String e2 "")).
  rewrite <- E0, <- E1, <- E2, <- E3.
  rewrite C12, P0.
  repeat match goal with H : String.eqb (Parser.hex2 b3) _ = _ |- _ => rewrite H end.
  unfold directionLetter. reflexivity.
Qed.

Lemma decodeGPSCoord_fields_witness :
  Sensors.decodeGPSCoord 34 0x8B 0x3C 0x53 =
  Sensors.mkGPSCoord (- (JS.of_Z 34 + JS.of_Z 35644 / 1000 / 60))%float
    (JSNum.toString (JS.of_Z 34) +:+ "°" +:+ JSNum.toFixed (JS.of_Z 35644 / 1000)%float 3
     +:+ "'" +:+ "S").
Proof.
  apply (decodeGPSCoord_fields 34 0x8B 0x3C 0x53); lia.
Defined.

(** ** sensors.js: which readings have no value *)

Definition isNone {A : Type} (o : option A) : bool :=
  match o with None => true | Some _ => false end.

(** The raw words of a catalogued sensor that give a [null] value. *)
Definition nullRaw (sid raw : Z) : bool :=
  (raw =? 0xFFFF) || ((raw =? 0x8000) && bool_decide (sid ∈ Protocol.NO_DATA_0x8000))
  || (sid =? 7) || ((sid =? 20) && (35280 <? raw)) || ((sid =? 13) && (raw =? 62587)).

Definition nullCheck (s : Sensors.Sensor) (sid raw : Z) : bool :=
  Bool.eqb (isNone (Parser.value (Parser._convertRaw sid raw (Some s)))) (nullRaw sid raw).

Lemma catalog_nullCheck :
  forallb (fun '(sid, s) => allRange 17 0 65536 (nullCheck s sid))
          (map_to_list Sensors.SENSORS) = true.
Proof. vm_cast_no_check (eq_refl true). Qed.

(** For every 16-bit raw word and every id, [_convertRaw] with the
    catalogue's descriptor gives a [null] value in these cases and no other:
    the no-data sentinels (0xFFFF, and 0x8000 for the reserved ids), an id
    that is not in the catalogue, GPS (which has no conversion), light above
    the last entry 35280 of its table, and external temperature at the
    first entry 62587 of its table.  Every other conversion of the
    catalogue is finite on every raw word. *)
Theorem value_null_cases (sid raw : Z) :
  0 <= raw <= 65535 ->
  (Parser.value (Parser._convertRaw sid raw (Sensors.SENSORS !! sid)) = None <->
   raw = 0xFFFF \/ (raw = 0x8000 /\ sid ∈ Protocol.NO_DATA_0x8000) \/
   Sensors.SENSORS !! sid = None \/ sid = 7 \/
   (sid = 20 /\ 35280 < raw) \/ (sid = 13 /\ raw = 62587)).
Proof.
  intros Hraw.
  assert (Hrefl : nullRaw sid raw = true <->
    raw = 0xFFFF \/ (raw = 0x8000 /\ sid ∈ Protocol.NO_DATA_0x8000) \/ sid = 7 \/
    (sid = 20 /\ 35280 < raw) \/ (sid = 13 /\ raw = 62587)).
  { unfold nullRaw. rewrite !orb_true_iff, !andb_true_iff, !Z.eqb_eq, Z.ltb_lt,
      bool_decide_eq_true. tauto. }
  destruct (Sensors.SENSORS !! sid) as [s|] eqn:Hs.
  - assert (Hc : nullCheck s sid raw = true).
    { pose proof catalog_nullCheck as C. rewrite forallb_forall in C.
      specialize (C (sid, s)). cbv beta iota in C.
      apply (allRange_spec 17 0 65536 (nullCheck s sid)); [|lia].
      apply C. apply list_elem_of_In, elem_of_map_to_list. exact Hs. }
    unfold nullCheck in Hc. apply Bool.eqb_prop in Hc.
    split.
    + intros Hn. rewrite Hn in Hc. cbn in Hc. symmetry in Hc. apply Hrefl in Hc.
      intuition.
    + intros Hcases.
      assert (nullRaw sid raw = true) as Hnr by (apply Hrefl; intuition discriminate).
      rewrite Hnr in Hc.
      destruct (Parser.value (Parser._convertRaw sid raw (Some s))); [discriminate|reflexivity].
  - split; [auto|]. intros _. unfold Parser._convertRaw. cbn [Parser.value].
    destruct ((raw =? 65535) || (raw =? 32768) && bool_decide (sid ∈ Protocol.NO_DATA_0x8000));
      reflexivity.
Qed.

Lemma value_null_cases_witness :
  Parser.value (Parser._convertRaw 20 40000 (Sensors.SENSORS !! 20)) = None.
Proof.
  apply (proj2 (value_null_cases 20 40000 ltac:(lia))).
  right. right. right. right. left. split; [reflexivity|lia].
Defined.

(** ** sensors.js: the light table *)

Definition lightRowRaw (j : nat) : float := Sensors.at_ Sensors.lightTable (j * 3).
Definition lightRowValue (j : nat) : float := Sensors.at_ Sensors.lightTable (j * 3 + 1).
Definition lightRowSlope (j : nat) : float := Sensors.at_ Sensors.lightTable (j * 3 + 2).

(** The rows of the table with the raw entry that follows each. *)
Definition lightRows : list (float * float * float * float) :=
  Eval vm_compute in
    map (fun j => (lightRowRaw j, lightRowValue j, lightRowSlope j, lightRowRaw (S j))) (seq 0 10).

Definition lightCheck (rows : list (float * float * float * float)) (raw : Z) : bool :=
  let r := JS.of_Z raw in
  let c := Sensors.convertLight r in
  if (raw =? 0) || (raw =? 65535) then PrimFloat.Leibniz.eqb c 0%float
  else if raw <=? 35280 then
    existsb (fun '(rj, vj, sj, nj) =>
      if PrimFloat.ltb rj r then
        if PrimFloat.leb r nj then PrimFloat.Leibniz.eqb c ((r - rj) * sj + vj)%float else false
      else false) rows
  else is_nan c.

(** The light conversion on every 16-bit raw word: 0 at the raw words 0
    and 65535; between 1 and the last entry 35280 of the table, forward
    interpolation from the row whose raw entry is the last one below the
    input; NaN above 35280. *)
Theorem convertLight_segments (raw : Z) :
  0 <= raw <= 65535 ->
  (raw = 0 \/ raw = 65535 -> Sensors.convertLight (JS.of_Z raw) = 0%float) /\
  (1 <= raw <= 35280 ->
   exists j, (j < 10)%nat /\
     PrimFloat.ltb (lightRowRaw j) (JS.of_Z raw) = true /\
     PrimFloat.leb (JS.of_Z raw) (lightRowRaw (S j)) = true /\
     Sensors.convertLight (JS.of_Z raw)
       = ((JS.of_Z raw - lightRowRaw j) * lightRowSlope j + lightRowValue j)%float) /\
  (35280 < raw < 65535 -> is_nan (Sensors.convertLight (JS.of_Z raw)) = true).
Proof.
  intros H.
  assert (Hc : lightCheck lightRows raw = true).
  { apply (allRange_spec 17 0 65536 (lightCheck lightRows)); [vm_compute; reflexivity|lia]. }
  unfold lightCheck in Hc. cbv zeta in Hc.
  split; [|split].
  - intros Hz. assert ((raw =? 0) || (raw =? 65535) = true) as E
      by (apply orb_true_iff; rewrite !Z.eqb_eq; exact Hz).
    rewrite E in Hc. apply FloatAxioms.Leibniz.eqb_spec in Hc. exact Hc.
  - intros Hin.
    destruct (Z.eqb_spec raw 0); [lia|]. destruct (Z.eqb_spec raw 65535); [lia|].
    cbn [orb] in Hc. destruct (Z.leb_spec raw 35280); [|lia].
    apply existsb_exists in Hc. destruct Hc as ((((rj & vj) & sj) & nj) & Hin' & Hok).
    change lightRows with
      (map (fun j => (lightRowRaw j, lightRowValue j, lightRowSlope j, lightRowRaw (S j)))
           (seq 0 10)) in Hin'.
    apply in_map_iff in Hin'. destruct Hin' as (j & Hj & Hseq).
    injection Hj as <- <- <- <-. apply in_seq in Hseq.
    exists j. split; [lia|].
    destruct (PrimFloat.ltb (lightRowRaw j) (JS.of_Z raw)); [|discriminate].
    destruct (PrimFloat.leb (JS.of_Z raw) (lightRowRaw (S j))); [|discriminate].
    apply FloatAxioms.Leibniz.eqb_spec in Hok. auto.
  - intros Hout.
    destruct (Z.eqb_spec raw 0); [lia|]. destruct (Z.eqb_spec raw 65535); [lia|].
    cbn [orb] in Hc. destruct (Z.leb_spec raw 35280); [lia|]. exact Hc.
Qed.

Lemma convertLight_segments_witness :
  Sensors.convertLight (JS.of_Z 0) = 0%float /\
  (exists j, (j < 10)%nat /\
     PrimFloat.ltb (lightRowRaw j) (JS.of_Z 3715) = true /\
     PrimFloat.leb (JS.of_Z 3715) (lightRowRaw (S j)) = true /\
     Sensors.convertLight (JS.of_Z 3715)
       = ((JS.of_Z 3715 - lightRowRaw j) * lightRowSlope j + lightRowValue j)%float) /\
  is_nan (Sensors.convertLight (JS.of_Z 40000)) = true.
Proof.
  split; [|split].
  - apply (proj1 (convertLight_segments 0 ltac:(lia))). left. reflexivity.
  - apply (proj1 (proj2 (convertLight_segments 3715 ltac:(lia)))). lia.
  - apply (proj2 (proj2 (convertLight_segments 40000 ltac:(lia)))). lia.
Defined.

(** ** sensors.js: the thermistor table above its lower end *)

(** The external-temperature conversion from the entry that ends the
    table upward: above the first raw entry 62587 the first temperature, -40;
    below it, backward interpolation from the row whose raw entry is the
    last one above the input. *)
Theorem convertExtTemp_in_table (raw : Z) :
  5376 <= raw <= 65535 ->
  (62587 < raw -> Sensors.convertExtTemp (JS.of_Z raw) = (-40)%float) /\
  (raw < 62587 ->
   exists j, (j < 33)%nat /\
     PrimFloat.ltb (JS.of_Z raw) (extRowRaw j) = true /\
     PrimFloat.leb (extRowRaw (S j)) (JS.of_Z raw) = true /\
     Sensors.convertExtTemp (JS.of_Z raw)
       = (extRowTemp j + (extRowRaw j - JS.of_Z raw) * extRowSlope j)%float).
Proof.
  intros H. split; intros H'.
  - apply convertExtTemp_above_table. lia.
  - apply convertExtTemp_interpolates. lia.
Qed.

Lemma convertExtTemp_in_table_witness :
  Sensors.convertExtTemp (JS.of_Z 63000) = (-40)%float /\
  exists j, (j < 33)%nat /\
    PrimFloat.ltb (JS.of_Z 40000) (extRowRaw j) = true /\
    PrimFloat.leb (extRowRaw (S j)) (JS.of_Z 40000) = true /\
    Sensors.convertExtTemp (JS.of_Z 40000)
      = (extRowTemp j + (extRowRaw j - JS.of_Z 40000) * extRowSlope j)%float.
Proof.
  split.
  - apply (proj1 (convertExtTemp_in_table 63000 ltac:(lia))). lia.
  - apply (proj2 (convertExtTemp_in_table 40000 ltac:(lia))). lia.
Defined.

(** ** formatter.js: the rows of the debug view *)

(** The row of the debug view for an entry of the fixed order whose
    sensor is [sensor]. *)
Definition displayRow (values : gmap Z Parser.Reading) (entry : Sensors.UartEntry)
    (sensor : Sensors.Sensor) : Formatter.DisplayRow :=
  match available values (Sensors.id entry) with
  | Some v =>
      Formatter.mkDisplayRow (Sensors.id entry) (Sensors.name sensor)
        (JSNum.toFixed v (Sensors.dec sensor)) (Sensors.unit sensor) true
  | None =>
      Formatter.mkDisplayRow (Sensors.id entry) (Sensors.name sensor) "—"
        (Sensors.unit sensor) false
  end.

Lemma order_in_catalog (entry : Sensors.UartEntry) :
  entry ∈ Sensors.UART_ORDER ->
  exists sensor, Sensors.SENSORS !! Sensors.id entry = Some sensor /\
                 Sensors.name sensor = Sensors.uname entry.
Proof.
  intros Hin.
  assert (C : forallb (fun e => match Sensors.SENSORS !! Sensors.id e with
                                | Some s => String.eqb (Sensors.name s) (Sensors.uname e)
                                | None => false
                                end) Sensors.UART_ORDER = true) by (vm_compute; reflexivity).
  rewrite forallb_forall in C. specialize (C entry (proj1 (list_elem_of_In _ _) Hin)).
  destruct (Sensors.SENSORS !! Sensors.id entry) as [s|]; [|discriminate].
  exists s. split; [reflexivity|]. apply String.eqb_eq. exact C.
Qed.

(** The debug view has one row for each of the 13 entries of the fixed
    order, in that order, whatever the sample: no entry is skipped. A row
    carries the catalogue's name and unit; it has data exactly when the wire
    line has a value for the sensor (the sensor is present, not marked
    no-data, its value not null), and then shows the value with the
    sensor's number of decimals; otherwise it shows a dash. *)
Theorem formatForDisplay_rows (values : gmap Z Parser.Reading) :
  Forall2 (fun entry row =>
             exists sensor, Sensors.SENSORS !! Sensors.id entry = Some sensor /\
                            row = displayRow values entry sensor)
          Sensors.UART_ORDER (Formatter.formatForDisplay values) /\
  map Formatter.row_id (Formatter.formatForDisplay values)
    = [30; 6; 20; 26; 2; 25; 21; 13; 27; 28; 33; 32; 4] /\
  Forall2 (fun row part =>
             Formatter.hasData row = false -> part = Sensors.NO_DATA_VALUE)
          (Formatter.formatForDisplay values)
          (Formatter.uartParts values Sensors.UART_ORDER []).
Proof.
  assert (A : Forall2 (fun entry row =>
             exists sensor, Sensors.SENSORS !! Sensors.id entry = Some sensor /\
                            row = displayRow values entry sensor)
          Sensors.UART_ORDER (Formatter.formatForDisplay values)).
  { unfold Formatter.formatForDisplay.
    assert (G : forall l, (forall e, e ∈ l -> e ∈ Sensors.UART_ORDER) ->
      Forall2 (fun entry row =>
             exists sensor, Sensors.SENSORS !! Sensors.id entry = Some sensor /\
                            row = displayRow values entry sensor)
        l (omap (fun entry =>
            match Sensors.SENSORS !! Sensors.id entry with
            | None => None
            | Some sensor =>
                Some (match values !! Sensors.id entry with
                      | Some (Parser.mkReading _ (Some v) false _) =>
                          Formatter.mkDisplayRow (Sensors.id entry) (Sensors.name sensor)
                            (JSNum.toFixed v (Sensors.dec sensor)) (Sensors.unit sensor) true
                      | _ =>
                          Formatter.mkDisplayRow (Sensors.id entry) (Sensors.name sensor) "—"
                            (Sensors.unit sensor) false
                      end)
            end) l)).
    { induction l as [|e l IH]; intros Hl; [constructor|].
      cbn [omap list_omap].
      destruct (order_in_catalog e (Hl e (list_elem_of_here _ _))) as (s & Hs & _).
      rewrite Hs. constructor.
      - exists s. split; [exact Hs|]. unfold displayRow, available.
        destruct (values !! Sensors.id e) as [[r [v|] [|] g]|]; reflexivity.
      - apply IH. intros e' He'. apply Hl. apply list_elem_of_further. exact He'. }
    apply G. auto. }
  split; [exact A|]. split.
  - assert (E : map Formatter.row_id (Formatter.formatForDisplay values)
                = map Sensors.id Sensors.UART_ORDER).
    { clear -A. induction A as [|e row l rows (s & _ & ->) _ IH]; [reflexivity|].
      cbn [map]. rewrite IH. f_equal. unfold displayRow.
      destruct (available values (Sensors.id e)); reflexivity. }
    rewrite E. reflexivity.
  - rewrite uartParts_map. cbn [app].
    clear -A. induction A as [|e row l rows (s & _ & ->) _ IH]; [constructor|].
    cbn [map]. constructor; [|exact IH].
    unfold displayRow, wireEntry. destruct (available values (Sensors.id e)); [discriminate|].
    reflexivity.
Qed.

(** * Further properties of the sessions and the orchestrator *)



(** The current revision with both devices connected and a stream that
    the orchestrator started. *)
Definition autoStreaming : World :=
  mkWorld (mkLabdisc true STREAMING (Parser.mkParser [] [30; 7] 0) "normal" None)
          (mkMicrobit BLE_CONNECTED true) (mkBridge 0 "normal" true) [] [].

(** The same when the next write to the Logger's port throws. *)
Definition autoStreamingLost : World :=
  mkWorld (mkLabdisc true STREAMING (Parser.mkParser [] [30; 7] 0) "normal" None)
          (mkMicrobit BLE_CONNECTED true) (mkBridge 0 "normal" true) []
          [Some "The device has been lost."].

(** The same with a stream that the user started. *)
Definition manualStreaming : World :=
  mkWorld (mkLabdisc true STREAMING (Parser.mkParser [] [30; 7] 0) "normal" None)
          (mkMicrobit BLE_CONNECTED true) (mkBridge 0 "normal" false) [] [].

Lemma auto_stream_stopped_witness :
  (state (labdisc (beaconStep maskWithoutGps LinkLost autoStreaming)) = CONNECTED /\
   transmitted (beaconStep maskWithoutGps LinkLost autoStreaming)
     = [[0x47; 0x14; 0x33; 0x72]]) /\
  (state (labdisc (beaconStep maskWithoutGps LinkLost autoStreamingLost)) = CONNECTED /\
   transmitted (beaconStep maskWithoutGps LinkLost autoStreamingLost) = []).
Proof.
  split.
  - destruct (auto_stream_stopped maskWithoutGps autoStreaming eq_refl eq_refl eq_refl eq_refl)
      as (H1 & _ & _ & H4 & _).
    split; [exact H1|exact H4].
  - destruct (auto_stream_stopped maskWithoutGps autoStreamingLost
                eq_refl eq_refl eq_refl eq_refl) as (H1 & _ & _ & H4 & _).
    split; [exact H1|exact H4].
Defined.

Lemma manual_stream_persists_witness :
  state (labdisc (foldl (fun x e => beaconStep maskWithoutGps e x) manualStreaming
                    [LinkLost; UserConnects "BBC micro:bit"; UserDisconnects])) = STREAMING /\
  transmitted (foldl (fun x e => beaconStep maskWithoutGps e x) manualStreaming
                 [LinkLost; UserConnects "BBC micro:bit"; UserDisconnects]) = [].
Proof.
  destruct (manual_stream_persists maskWithoutGps
              [LinkLost; UserConnects "BBC micro:bit"; UserDisconnects] manualStreaming
              eq_refl eq_refl) as (H1 & _ & H3).
  split; [exact H1|exact H3].
Defined.

Section MoreOrchestrator.

Variable buildMaskForRate : list Z -> Z -> Z.

(** What [_checkAutoStream] makes of the session that the Stop button has
    just returned to Connected. *)
Lemma restarted_after_stop (w3 : World) (cmds : list (list Z)) (w : World) :
  port (labdisc w3) = true -> state (labdisc w3) = CONNECTED ->
  ble_state (microbit w3) = BLE_CONNECTED -> Session.sensorIds w3 <> [] ->
  Current.manualStopStream buildMaskForRate w
    = Current._update (Current._update (Current._checkAutoStream buildMaskForRate 4 w3)) ->
  transmitted w3 ++ delivered (txErrors w3) (modeSequence buildMaskForRate w3)
    = transmitted w ++ cmds ->
  state (labdisc (Current.manualStopStream buildMaskForRate w)) = STREAMING /\
  _autoStarted (bridge (Current.manualStopStream buildMaskForRate w)) = true /\
  transmitted (Current.manualStopStream buildMaskForRate w) = transmitted w ++ cmds.
Proof.
  intros Hp Hst Hbs Hids E Htx. rewrite E.
  destruct (auto_stream_started buildMaskForRate 3 w3 Hp Hst Hbs Hids)
    as (H1 & H2 & H3 & H4 & H5).
  split; [exact H1|]. split; [exact H3|].
  rewrite <- Htx, <- H5. unfold transmitted, Current._update, emit. cbn [out].
  rewrite !omap_app. cbn [omap list_omap]. rewrite !app_nil_r. reflexivity.
Qed.

(** The Stop button while the Beacon is connected: the session attempts to
    write stop-login and becomes Connected, and that change of state makes
    [_checkAutoStream] start the stream again at once, now marked automatic.
    The button does not end the stream while the Beacon stays connected.
    Of stop-login and the start sequence of the selected mode, the commands
    whose write goes through are written, all of them when every write
    does. *)
Theorem manual_stop_restarts (w : World) :
  state (labdisc w) = STREAMING -> port (labdisc w) = true ->
  ble_state (microbit w) = BLE_CONNECTED -> Session.sensorIds w <> [] ->
  state (labdisc (Current.manualStopStream buildMaskForRate w)) = STREAMING /\
  _autoStarted (bridge (Current.manualStopStream buildMaskForRate w)) = true /\
  transmitted (Current.manualStopStream buildMaskForRate w)
    = transmitted w
      ++ delivered (txErrors w)
           (Protocol.buildCommand Protocol.CMD.STOP_LOGIN :: modeSequence buildMaskForRate w).
Proof.
  destruct w as [[p st pa sm ds] [bs rx] [cnt md fl] o te].
  cbn [labdisc microbit bridge state port ble_state txErrors].
  intros -> -> -> Hids.
  destruct te as [|[message|] te].
  - apply (restarted_after_stop
             (mkWorld (mkLabdisc true CONNECTED pa sm ds) (mkMicrobit BLE_CONNECTED rx)
                (mkBridge cnt md false)
                (((o ++ [Tx (Protocol.buildCommand Protocol.CMD.STOP_LOGIN)])
                    ++ [LogLine "tx" "[Labdisc] 47 14 33 72 (StopLogin)"])
                   ++ [LogLine "info" "Labdisc: connected"]) []));
      [reflexivity|reflexivity|reflexivity|exact Hids|reflexivity|].
    unfold transmitted. cbn [out txErrors]. rewrite !omap_app, !delivered_nil.
    cbn [omap list_omap]. rewrite !app_nil_r, <- !app_assoc. reflexivity.
  - apply (restarted_after_stop
             (mkWorld (mkLabdisc true CONNECTED pa sm ds) (mkMicrobit BLE_CONNECTED rx)
                (mkBridge cnt md false)
                ((o ++ [LogLine "err" ("[Labdisc] TX error: " +:+ message)])
                   ++ [LogLine "info" "Labdisc: connected"]) te));
      [reflexivity|reflexivity|reflexivity|exact Hids|reflexivity|].
    unfold transmitted. cbn [out txErrors delivered]. rewrite !omap_app.
    cbn [omap list_omap]. rewrite !app_nil_r. reflexivity.
  - apply (restarted_after_stop
             (mkWorld (mkLabdisc true CONNECTED pa sm ds) (mkMicrobit BLE_CONNECTED rx)
                (mkBridge cnt md false)
                (((o ++ [Tx (Protocol.buildCommand Protocol.CMD.STOP_LOGIN)])
                    ++ [LogLine "tx" "[Labdisc] 47 14 33 72 (StopLogin)"])
                   ++ [LogLine "info" "Labdisc: connected"]) te));
      [reflexivity|reflexivity|reflexivity|exact Hids|reflexivity|].
    unfold transmitted. cbn [out txErrors delivered]. rewrite !omap_app.
    cbn [omap list_omap]. rewrite !app_nil_r, <- !app_assoc. reflexivity.
Qed.

(** The Beacon is connected while the Logger is connected and idle with
    its sensor ids known: the change of the Beacon's state makes
    [_checkAutoStream] start a stream in the selected mode, marked
    automatic; nothing is written but the commands of that mode's start
    sequence whose write goes through, all five when every write does. *)
Theorem beacon_connect_starts_stream (deviceName : string) (w : World) :
  port (labdisc w) = true -> state (labdisc w) = CONNECTED ->
  ble_state (microbit w) = BLE_DISCONNECTED -> Session.sensorIds w <> [] ->
  state (labdisc (Current.connectMicrobit buildMaskForRate deviceName w)) = STREAMING /\
  ble_state (microbit (Current.connectMicrobit buildMaskForRate deviceName w)) = BLE_CONNECTED /\
  _autoStarted (bridge (Current.connectMicrobit buildMaskForRate deviceName w)) = true /\
  transmitted (Current.connectMicrobit buildMaskForRate deviceName w)
    = transmitted w ++ delivered (txErrors w) (modeSequence buildMaskForRate w).
Proof.
  destruct w as [[p st pa sm ds] [bs rx] [cnt md fl] o te].
  cbn [labdisc microbit bridge state port ble_state txErrors].
  intros -> -> -> Hids.
  set (w3 := mkWorld (mkLabdisc true CONNECTED pa sm ds) (mkMicrobit BLE_CONNECTED true)
               (mkBridge cnt md fl)
               ((((((o ++ [LogLine "info" "micro:bit: connecting"]) ++ [Update])
                     ++ [LogLine "info" "[BLE] Buscando micro:bit..."])
                    ++ [LogLine "info" ("[BLE] Conectando a " +:+ deviceName +:+ "...")])
                   ++ [LogLine "info" "[BLE] Obteniendo servicio UART..."])
                  ++ [LogLine "info" "micro:bit: connected"]) te).
  assert (E : Current.connectMicrobit buildMaskForRate deviceName
                (mkWorld (mkLabdisc true CONNECTED pa sm ds) (mkMicrobit BLE_DISCONNECTED rx)
                         (mkBridge cnt md fl) o te)
              = emit (LogLine "info" ("[BLE] micro:bit conectada: " +:+ deviceName))
                  (Current._update (Current._checkAutoStream buildMaskForRate 4 w3)))
    by reflexivity.
  rewrite E.
  destruct (auto_stream_started buildMaskForRate 3 w3 eq_refl eq_refl eq_refl Hids)
    as (H1 & H2 & H3 & H4 & H5).
  split; [exact H1|]. split; [cbn [emit Current._update microbit]; rewrite H4; reflexivity|].
  split; [exact H3|].
  rewrite !transmitted_txOf in *. cbn [Current._update emit out].
  rewrite !txOf_app, H5. subst w3. cbn [out]. rewrite !txOf_app.
  cbn [txOf omap list_omap]. rewrite !app_nil_r. reflexivity.
Qed.



End MoreOrchestrator.

Lemma manual_stop_restarts_witness :
  state (labdisc (Current.manualStopStream maskWithoutGps manualStreaming)) = STREAMING /\
  _autoStarted (bridge (Current.manualStopStream maskWithoutGps manualStreaming)) = true /\
  transmitted (Current.manualStopStream maskWithoutGps manualStreaming)
    = [[0x47; 0x14; 0x33; 0x72]] ++ startSequence 3 0x02.
Proof.
  apply (manual_stop_restarts maskWithoutGps manualStreaming); try reflexivity. discriminate.
Defined.

(** The current revision with the Logger connected, its ids known, and no
    Beacon. *)
Definition loggerOnly : World :=
  mkWorld (mkLabdisc true CONNECTED (Parser.mkParser [] [30; 7] 0) "normal" None)
          Microbit.new Current.newBridge [] [].

(** The same when the second of the coming writes throws. *)
Definition loggerOnlyOneLost : World :=
  mkWorld (mkLabdisc true CONNECTED (Parser.mkParser [] [30; 7] 0) "normal" None)
          Microbit.new Current.newBridge [] [None; Some "The device has been lost."].

Lemma beacon_connect_starts_stream_witness :
  (state (labdisc (Current.connectMicrobit maskWithoutGps "BBC micro:bit" loggerOnly))
     = STREAMING /\
   transmitted (Current.connectMicrobit maskWithoutGps "BBC micro:bit" loggerOnly)
     = startSequence 3 0x02) /\
  (state (labdisc (Current.connectMicrobit maskWithoutGps "BBC micro:bit" loggerOnlyOneLost))
     = STREAMING /\
   transmitted (Current.connectMicrobit maskWithoutGps "BBC micro:bit" loggerOnlyOneLost)
     = [[0x47; 0x14; 0x33; 0x72];
        [0x47; 0x14; 0x10; 0x95];
        [0x47; 0x14; 0x11; 0x00; 0x03; 0x02; 0x03; 0; 0; 0; 0; 0; 0; 0; 0; 0; 0x8C];
        [0x47; 0x14; 0x22; 0x83]]).
Proof.
  split.
  - destruct (beacon_connect_starts_stream maskWithoutGps "BBC micro:bit" loggerOnly
                eq_refl eq_refl eq_refl ltac:(discriminate)) as (H1 & _ & _ & H4).
    split; [exact H1|exact H4].
  - destruct (beacon_connect_starts_stream maskWithoutGps "BBC micro:bit" loggerOnlyOneLost
                eq_refl eq_refl eq_refl ltac:(discriminate)) as (H1 & _ & _ & H4).
    split; [exact H1|exact H4].
Defined.

Lemma manual_stream_started_witness :
  streamOn false (startSequence 3 0x02) loggerOnly
    (Current.manualStartStream maskWithoutGps loggerOnly) /\
  streamOn false
    [[0x47; 0x14; 0x33; 0x72];
     [0x47; 0x14; 0x10; 0x95];
     [0x47; 0x14; 0x11; 0x00; 0x03; 0x02; 0x03; 0; 0; 0; 0; 0; 0; 0; 0; 0; 0x8C];
     [0x47; 0x14; 0x22; 0x83]]
    loggerOnlyOneLost (Current.manualStartStream maskWithoutGps loggerOnlyOneLost).
Proof.
  split.
  - apply (manual_stream_started maskWithoutGps loggerOnly).
    + split; reflexivity.
    + reflexivity.
    + discriminate.
  - apply (manual_stream_started maskWithoutGps loggerOnlyOneLost).
    + split; reflexivity.
    + reflexivity.
    + discriminate.
Defined.




(** * ble-uart.js: sending a line to the Beacon *)

Module BleSend.

(** What [send] does to the outside: a chunk handed to [writeValue] that
    was written, or a line for [onLog]. *)
Inductive Effect : Type :=
  | Write (chunk : list Z)
  | Log (type msg : string).

(** [new TextEncoder().encode(text)]: a string is held as its UTF-8 bytes. *)
Definition encode (text : string) : list Z :=
  map (fun c => Z.of_nat (nat_of_ascii c)) (list_ascii_of_string text).

Section WithWrites.

(** How the call of [writeValue] made at offset [i] ends: [None] when it
    resolves, the message of the error when it rejects. *)
Variable writeValue : nat -> option string.

(** [for (let i = 0; i < data.length; i += chunkSize) { ... }]; the loop
    makes fewer than [data.length + 1] passes. *)
Fixpoint sendLoop (fuel : nat) (data : list Z) (i : nat) : list Effect :=
  match fuel with
  | O => []
  | S fuel' =>
      if (i <? length data)%nat then
        let chunk := take 20 (drop i data) in      (* [data.slice(i, i + chunkSize)] *)
        match writeValue i with
        | None => Write chunk :: sendLoop fuel' data (i + 20)
        | Some message => [Log "err" ("BLE write: " +:+ message)]
        end
      else []
  end.

(** [send(text)]; [rx] tells whether [this.rxCharacteristic] is there. *)
Definition send (rx : bool) (text : string) : list Effect :=
  if negb rx then []
  else let data := encode text in sendLoop (length data) data 0.

End WithWrites.

End BleSend.

(** The chunks that were written, in order. *)
Definition written (es : list BleSend.Effect) : list (list Z) :=
  omap (fun e => match e with BleSend.Write c => Some c | _ => None end) es.

Lemma sendLoop_ok (writeValue : nat -> option string) (data : list Z) :
  (forall i, writeValue i = None) ->
  forall (fuel i : nat), (length data - i <= fuel)%nat ->
  exists chunks,
    BleSend.sendLoop writeValue fuel data i = map BleSend.Write chunks /\
    concat chunks = drop i data /\
    Forall (fun c => (1 <= length c <= 20)%nat) chunks /\
    Forall (fun c => length c = 20%nat) (removelast chunks) /\
    length chunks = ((length data - i + 19) / 20)%nat.
Proof.
  intros Hok. induction fuel as [|fuel IH]; intros i Hf.
  - exists []. cbn. rewrite drop_ge by lia.
    replace (length data - i + 19)%nat with 19%nat by lia. repeat split; constructor.
  - cbn [BleSend.sendLoop]. destruct (Nat.ltb_spec i (length data)) as [Hlt|Hge].
    + rewrite Hok. destruct (IH (i + 20)%nat ltac:(lia)) as (chunks & E & Hc & Hl & Hfull & Hn).
      exists (take 20 (drop i data) :: chunks). rewrite E.
      split; [reflexivity|]. split.
      { cbn [concat]. rewrite Hc, <- drop_drop. apply take_drop. }
      split.
      { constructor; [|exact Hl]. rewrite length_take, length_drop. lia. }
      split.
      { destruct chunks as [|c chunks]; [constructor|].
        change (removelast (take 20 (drop i data) :: c :: chunks))
          with (take 20 (drop i data) :: removelast (c :: chunks)).
        constructor; [|exact Hfull].
        rewrite length_take, length_drop.
        destruct (Nat.le_gt_cases (length data) (i + 20)) as [Hend|]; [|lia].
        cbn [length] in Hn. replace (length data - (i + 20))%nat with 0%nat in Hn by lia.
        cbn in Hn. discriminate. }
      cbn [length]. rewrite Hn.
      destruct (Nat.le_gt_cases (length data) (i + 20)) as [Hend|Hmore].
      * replace (length data - (i + 20))%nat with 0%nat by lia.
        change ((0 + 19) / 20)%nat with 0%nat.
        apply Nat.div_unique with (r := (length data - i + 19 - 20)%nat); lia.
      * replace (length data - i + 19)%nat with ((length data - (i + 20) + 19) + 1 * 20)%nat
          by lia.
        rewrite Nat.div_add by lia. lia.
    + exists []. cbn. rewrite drop_ge by lia.
      replace (length data - i + 19)%nat with 19%nat by lia. repeat split; constructor.
Qed.

(** [send] when every write resolves: the encoded text leaves in chunks,
    in order, whose concatenation is the text; every chunk holds between 1
    and 20 bytes and every chunk but the last exactly 20; an empty text
    makes no write, and without the characteristic nothing is written. *)
Theorem send_chunks (writeValue : nat -> option string) (text : string) :
  (forall i, writeValue i = None) ->
  BleSend.send writeValue false text = [] /\
  exists chunks,
    BleSend.send writeValue true text = map BleSend.Write chunks /\
    concat chunks = BleSend.encode text /\
    Forall (fun c => (1 <= length c <= 20)%nat) chunks /\
    Forall (fun c => length c = 20%nat) (removelast chunks) /\
    length chunks = ((length (BleSend.encode text) + 19) / 20)%nat.
Proof.
  intros Hok. split; [reflexivity|].
  unfold BleSend.send. cbn [negb]. cbv zeta.
  destruct (sendLoop_ok writeValue (BleSend.encode text) Hok
              (length (BleSend.encode text)) 0 ltac:(lia)) as (chunks & E & Hc & Hl & Hfull & Hn).
  exists chunks. rewrite Nat.sub_0_r in Hn. rewrite drop_0 in Hc. auto.
Qed.

Lemma send_chunks_witness :
  exists chunks,
    BleSend.send (fun _ => None) true "263,-9999,-9999,-9999,-9999" = map BleSend.Write chunks /\
    concat chunks = BleSend.encode "263,-9999,-9999,-9999,-9999" /\
    length chunks = 2%nat.
Proof.
  destruct (send_chunks (fun _ => None) "263,-9999,-9999,-9999,-9999" (fun _ => eq_refl))
    as (_ & chunks & E & Hc & _ & _ & Hn).
  exists chunks. split; [exact E|]. split; [exact Hc|]. rewrite Hn. reflexivity.
Defined.

Lemma sendLoop_failure (writeValue : nat -> option string) (data : list Z)
    (k : nat) (message : string) :
  writeValue (20 * k)%nat = Some message ->
  (forall j, (j < k)%nat -> writeValue (20 * j)%nat = None) ->
  (20 * k < length data)%nat ->
  forall (fuel j : nat), (j <= k)%nat -> (k - j < fuel)%nat ->
  BleSend.sendLoop writeValue fuel data (20 * j)
  = map (fun j' => BleSend.Write (take 20 (drop (20 * j') data))) (seq j (k - j))
    ++ [BleSend.Log "err" ("BLE write: " +:+ message)].
Proof.
  intros Hfail Hbefore Hin. induction fuel as [|fuel IH]; intros j Hj Hf; [lia|].
  cbn [BleSend.sendLoop]. destruct (Nat.ltb_spec (20 * j) (length data)); [|lia].
  destruct (Nat.eq_dec j k) as [->|Hne].
  - rewrite Hfail, Nat.sub_diag. reflexivity.
  - rewrite (Hbefore j) by lia.
    replace (20 * j + 20)%nat with (20 * S j)%nat by lia.
    rewrite (IH (S j)) by lia.
    replace (k - j)%nat with (S (k - S j)) by lia. reflexivity.
Qed.

(** [send] when a write rejects: the chunks before it are written, the
    error is logged once, and nothing is written after it. *)
Theorem send_stops_at_failure (writeValue : nat -> option string) (text : string)
    (k : nat) (message : string) :
  writeValue (20 * k)%nat = Some message ->
  (forall j, (j < k)%nat -> writeValue (20 * j)%nat = None) ->
  (20 * k < length (BleSend.encode text))%nat ->
  BleSend.send writeValue true text
  = map (fun j => BleSend.Write (take 20 (drop (20 * j) (BleSend.encode text)))) (seq 0 k)
    ++ [BleSend.Log "err" ("BLE write: " +:+ message)].
Proof.
  intros Hfail Hbefore Hin. unfold BleSend.send. cbn [negb]. cbv zeta.
  pose proof (sendLoop_failure writeValue (BleSend.encode text) k message Hfail Hbefore Hin
                (length (BleSend.encode text)) 0 ltac:(lia) ltac:(lia)) as E.
  rewrite Nat.sub_0_r in E. exact E.
Qed.

Lemma send_stops_at_failure_witness :
  written (BleSend.send (fun i => if (i =? 20)%nat then Some "GATT operation failed" else None)
             true "263,-9999,-9999,-9999,-9999,-9999,-9999,-9999,-9999")
  = [BleSend.encode "263,-9999,-9999,-999"].
Proof.
  rewrite (send_stops_at_failure
             (fun i => if (i =? 20)%nat then Some "GATT operation failed" else None)
             "263,-9999,-9999,-9999,-9999,-9999,-9999,-9999,-9999" 1 "GATT operation failed").
  - vm_compute. reflexivity.
  - reflexivity.
  - intros [|j] Hj; [reflexivity|lia].
  - vm_compute. lia.
Defined.

(** * logger.js: the scrolling log *)

Module LogView.

(** The kinds of entry the log knows. *)
Inductive LogType : Type := tx | rx | info | err | warn.

Definition typeName (t : LogType) : string :=
  match t with tx => "tx" | rx => "rx" | info => "info" | err => "err" | warn => "warn" end.

Definition prefix (t : LogType) : string :=
  match t with tx => "→" | rx => "←" | info => "ℹ" | err => "✕" | warn => "⚠" end.

(** A line element of the log: its class and the markup it was given. *)
Record Line : Type := mkLine { className : string; innerHTML : string }.

(** The logger with its container, which holds log lines only, oldest
    first; [counterEl] is the text of the counter element when there is
    one. *)
Record Logger : Type := mkLogger {
  container : list Line;
  maxLines : nat;
  count : Z;
  counterEl : option string
}.

(** [new Logger(container, maxLines)] on an empty container *)
Definition new (maxLines : nat) : Logger := mkLogger [] maxLines 0 None.

(** [while (children.length > maxLines) removeChild(firstChild)] *)
Fixpoint prune (fuel : nat) (maxLines : nat) (lines : list Line) : list Line :=
  match fuel with
  | O => lines
  | S fuel' =>
      if (maxLines <? length lines)%nat then prune fuel' maxLines (tail lines) else lines
  end.

(** [log(type, message)]; [ts] is the time of day the clock gives,
    [new Date().toISOString().substring(11, 23)]. *)
Definition log (ts : string) (type : LogType) (message : string) (l : Logger) : Logger :=
  let line := mkLine ("log-line " +:+ typeName type)
                     ("<span class=" +:+ String "034"%char "ts" +:+ String "034"%char ">" +:+ ts
                      +:+ "</span> " +:+ prefix type +:+ " " +:+ message) in
  let lines := container l ++ [line] in
  let lines := prune (length lines) (maxLines l) lines in
  let n := count l + 1 in
  mkLogger lines (maxLines l) n (match counterEl l with
                                 | Some _ => Some (JS.toString10 n)
                                 | None => None
                                 end).

(** [clear()] *)
Definition clear (l : Logger) : Logger :=
  mkLogger [] (maxLines l) 0 (match counterEl l with Some _ => Some "0" | None => None end).

End LogView.

(** An entry as [log] is called with it: the time, the kind, the message. *)
Definition lineOf (e : string * LogView.LogType * string) : LogView.Line :=
  let '(ts, type, message) := e in
  LogView.mkLine ("log-line " +:+ LogView.typeName type)
    ("<span class=" +:+ String "034"%char "ts" +:+ String "034"%char ">" +:+ ts
     +:+ "</span> " +:+ LogView.prefix type +:+ " " +:+ message).

Definition logAll (l : LogView.Logger) (entries : list (string * LogView.LogType * string))
  : LogView.Logger :=
  foldl (fun l e => let '(ts, type, message) := e in LogView.log ts type message l) l entries.

Lemma prune_drop (maxLines : nat) :
  forall (fuel : nat) (lines : list LogView.Line),
  (length lines - maxLines <= fuel)%nat ->
  LogView.prune fuel maxLines lines = drop (length lines - maxLines) lines.
Proof.
  induction fuel as [|fuel IH]; intros lines Hf.
  - cbn. replace (length lines - maxLines)%nat with 0%nat by lia. reflexivity.
  - cbn [LogView.prune]. destruct (Nat.ltb_spec maxLines (length lines)) as [Hlt|Hge].
    + destruct lines as [|x lines]; [simpl in Hlt; lia|]. cbn [tail].
      cbn [length] in Hlt, Hf.
      rewrite IH by lia. cbn [length].
      replace (S (length lines) - maxLines)%nat with (S (length lines - maxLines)) by lia.
      reflexivity.
    + replace (length lines - maxLines)%nat with 0%nat by lia. reflexivity.
Qed.

Lemma log_container (ts : string) (type : LogView.LogType) (message : string)
    (l : LogView.Logger) :
  LogView.container (LogView.log ts type message l)
  = drop (length (LogView.container l ++ [lineOf (ts, type, message)]) - LogView.maxLines l)
         (LogView.container l ++ [lineOf (ts, type, message)]).
Proof.
  unfold LogView.log. cbn [LogView.container]. apply prune_drop. apply Nat.le_sub_l.
Qed.

Lemma drop_last_app (A : Type) (m : nat) (X Y : list A) :
  drop (length (drop (length X - m) X ++ Y) - m) (drop (length X - m) X ++ Y)
  = drop (length (X ++ Y) - m) (X ++ Y).
Proof.
  rewrite !drop_app, !length_app, !length_drop, !drop_drop.
  destruct (Nat.le_gt_cases (length X) m) as [Hle|Hgt].
  - replace (length X - m)%nat with 0%nat by lia. rewrite !Nat.sub_0_r, Nat.add_0_l.
    reflexivity.
  - replace (length X - (length X - m))%nat with m by lia.
    replace (m + length Y - m)%nat with (length Y) by lia.
    f_equal; [f_equal; lia|f_equal; lia].
Qed.

(** The log after any run of entries: the container holds the last
    [maxLines] of all the lines it was given, oldest first, and never more
    than [maxLines]; the count is the number of entries logged, pruned or
    not. *)
Theorem logger_keeps_last (l : LogView.Logger)
    (entries : list (string * LogView.LogType * string)) :
  (length (LogView.container l) <= LogView.maxLines l)%nat ->
  LogView.container (logAll l entries)
    = drop (length (LogView.container l ++ map lineOf entries) - LogView.maxLines l)
           (LogView.container l ++ map lineOf entries) /\
  (length (LogView.container (logAll l entries)) <= LogView.maxLines l)%nat /\
  LogView.count (logAll l entries) = LogView.count l + Z.of_nat (length entries) /\
  LogView.maxLines (logAll l entries) = LogView.maxLines l.
Proof.
  revert l. induction entries as [|[[ts type] message] entries IH]; intros l Hinv.
  - cbn [logAll foldl map length]. rewrite app_nil_r.
    replace (length (LogView.container l) - LogView.maxLines l)%nat with 0%nat by lia.
    rewrite drop_0. repeat split; [exact Hinv|lia].
  - change (logAll l ((ts, type, message) :: entries))
      with (logAll (LogView.log ts type message l) entries).
    pose proof (log_container ts type message l) as Hc.
    assert (Hm : LogView.maxLines (LogView.log ts type message l) = LogView.maxLines l)
      by reflexivity.
    assert (Hn : LogView.count (LogView.log ts type message l) = LogView.count l + 1)
      by reflexivity.
    assert (Hinv1 : (length (LogView.container (LogView.log ts type message l))
                     <= LogView.maxLines (LogView.log ts type message l))%nat).
    { rewrite Hc, Hm, length_drop. lia. }
    destruct (IH _ Hinv1) as (E1 & E2 & E3 & E4).
    rewrite Hm in E1, E2. rewrite Hn in E3. rewrite E4, Hm.
    split; [|split; [exact E2|split; [|reflexivity]]].
    + rewrite E1, Hc, drop_last_app, <- app_assoc. reflexivity.
    + rewrite E3. cbn [length]. lia.
Qed.

Lemma logger_keeps_last_witness :
  map LogView.className
    (LogView.container
       (logAll (LogView.new 2)
          [("12:00:00.000", LogView.info, "Labdisc: connected");
           ("12:00:00.250", LogView.tx, "47 14 33 72");
           ("12:00:00.500", LogView.rx, "SensorIDs: [30,6] (2 sensores)")]))
  = ["log-line tx"; "log-line rx"] /\
  LogView.count
    (logAll (LogView.new 2)
       [("12:00:00.000", LogView.info, "Labdisc: connected");
        ("12:00:00.250", LogView.tx, "47 14 33 72");
        ("12:00:00.500", LogView.rx, "SensorIDs: [30,6] (2 sensores)")]) = 3.
Proof.
  destruct (logger_keeps_last (LogView.new 2)
              [("12:00:00.000", LogView.info, "Labdisc: connected");
               ("12:00:00.250", LogView.tx, "47 14 33 72");
               ("12:00:00.500", LogView.rx, "SensorIDs: [30,6] (2 sensores)")])
    as (E1 & _ & E3 & _).
  - cbn. lia.
  - rewrite E1, E3. split; reflexivity.
Defined.
